(** * Data fetchers of [pytorch_lightning/utilities/fetching.py]

    A shallow embedding of the fetcher classes
    ([AbstractDataFetcher], [DataFetcher], [InterBatchParallelDataFetcher],
    [StepFuncDataLoaderIter], [DataLoaderIterDataFetcher]) and the
    verification of their iteration protocol.

    Python objects are records, attribute assignment is a record update,
    a method is a function from the fetcher to an outcome and the updated
    fetcher: what a method has mutated before it raises stays mutated. *)

From Stdlib Require Import ZArith List Bool Lia.
From stdpp Require Import gmap strings list fin_maps.

Local Open Scope Z_scope.

(** ** Exceptions and outcomes *)

Inductive exn : Set :=
| StopIteration
| MisconfigurationException
| AssertionError
| IndexError
| KeyError
| TypeError
| AttributeError.

Inductive outcome (A : Type) : Type :=
| Return (a : A)
| Raise (e : exn).
Arguments Return {A} a.
Arguments Raise {A} e.

(** ** Collaborators that live outside the file *)

(** Modelled from the spec: [IteratorState] (auto_restart.py) is the
    ProgressToken, "an opaque, per-source snapshot of iteration position,
    named and ordered".  Only [name] is read by the fetcher; the position is
    kept as the number of batches the source had produced. *)
Record IteratorState : Set := {
  name : string;
  num_batches_fetched : Z
}.

(** Modelled from the spec: [MergedIteratorState] (auto_restart.py) is the
    MergedState, "a mapping from source name to its currently-applicable
    ProgressToken".  [MergedIteratorState()] is the empty mapping, [len] its
    number of entries and [update name s] binds [name] to [s]. *)
Abbreviation MergedIteratorState := (gmap string IteratorState).

Definition MergedIteratorState_update (iter_name : string) (s : IteratorState)
    (m : MergedIteratorState) : MergedIteratorState :=
  <[iter_name := s]> m.

Definition MergedIteratorState_len (m : MergedIteratorState) : nat := size m.

(** [torch.cuda.Event()] objects are told apart by the order of their
    creation. *)
Definition Event : Set := nat.

(** What a source is an instance of: [isinstance(dataloader, ...)]. *)
Inductive LoaderKind : Set :=
| IsDataLoader
| IsCombinedLoader
| IsIterable.

(** Calls that leave the file, in the order they are made. *)
Inductive ExtCall : Set :=
| AddCaptureMetadataCollate
| AttachLightningFetcher
| PatchDataloaderGetIterators
| PatchDataloaderIterator
| TeardownDataloaderGetIterators
| CombinedLoaderReset
| ShutdownWorkersAndResetIterator
| EventRecord (e : Event)
| EventWait (e : Event).

(** The classes that can be instantiated. *)
Inductive FetcherClass : Set :=
| DataFetcher
| InterBatchParallelDataFetcher
| DataLoaderIterDataFetcher.

(** The wrapper object of [StepFuncDataLoaderIter]: it holds two references,
    to the iterator that was the fetcher's [dataloader_iter] when
    [prefetching] made it and to the fetcher itself, and no data of its
    own. *)
Inductive StepFuncDataLoaderIter : Set := StepFuncWrapper.

Section Fetching.

Context {Batch : Type}.

(** The source: what it is an instance of and what one pull after the other
    yields, each batch with the progress tokens the capturing collate
    function attaches to it.  A deterministic source that can be replayed
    ([loader_once] is [None]: a list, a loader over a fixed dataset in a
    fixed order) hands out an iterator at its first item each time [iter]
    is called on it.  One that cannot ([Some id]: a generator, which is its
    own iterator, or a loader that draws from one pull by pull) is consumed
    by the pulls: [loader_items] is what it holds when it is handed to the
    fetcher, and [iter] goes on where the earlier pulls stopped; [id] tells
    such sources apart. *)
Record Dataloader : Type := {
  loader_kind : LoaderKind;
  loader_items : list (Batch * list IteratorState);
  loader_once : option nat
}.

(** [iter(dataloader)]: a cursor, with the attributes the fetcher injects
    ([None] until first stored).  [iterator_id] is [Some id] when the
    cursor draws from the source [id] that cannot be replayed. *)
Record DataloaderIter : Type := {
  remaining : list (Batch * list IteratorState);
  patched : bool;
  cache_states : option (gmap string (list IteratorState));
  state : option MergedIteratorState;
  previous_state : option MergedIteratorState;
  iterator_id : option nat
}.

Record Fetcher : Type := {
  cls : FetcherClass;
  prefetch_batches : Z;
  _dataloader : option Dataloader;
  dataloader_iter : option DataloaderIter;
  fetched : Z;
  done : bool;
  store_on_device : bool;
  batch_to_device : Batch -> Batch;
  batches : list Batch;
  events : list Event;
  iterator : option StepFuncDataLoaderIter;
  (* the world around the fetcher *)
  env_fault_tolerant : bool;      (* what _fault_tolerant_training() answers *)
  env_left : gmap nat (list (Batch * list IteratorState));
                                  (* what each source that cannot be replayed has
                                     left, once it was pulled from *)
  env_events_created : nat;       (* torch.cuda.Event() objects made so far *)
  env_log : list ExtCall
}.

(** *** Attribute assignment *)

Definition set_remaining (v : list (Batch * list IteratorState)) (it : DataloaderIter) :=
  {| remaining := v; patched := patched it; cache_states := cache_states it;
     state := state it; previous_state := previous_state it;
     iterator_id := iterator_id it |}.

Definition set_patched (v : bool) (it : DataloaderIter) :=
  {| remaining := remaining it; patched := v; cache_states := cache_states it;
     state := state it; previous_state := previous_state it;
     iterator_id := iterator_id it |}.

Definition set_merge (c : gmap string (list IteratorState)) (s : MergedIteratorState)
    (p : option MergedIteratorState) (it : DataloaderIter) :=
  {| remaining := remaining it; patched := patched it; cache_states := Some c;
     state := Some s; previous_state := p; iterator_id := iterator_id it |}.

Definition set_prefetch_batches (v : Z) (f : Fetcher) :=
  {| cls := cls f; prefetch_batches := v; _dataloader := _dataloader f;
     dataloader_iter := dataloader_iter f; fetched := fetched f; done := done f;
     store_on_device := store_on_device f; batch_to_device := batch_to_device f;
     batches := batches f; events := events f; iterator := iterator f;
     env_fault_tolerant := env_fault_tolerant f; env_left := env_left f;
     env_events_created := env_events_created f; env_log := env_log f |}.

Definition set_store_on_device (v : bool) (f : Fetcher) :=
  {| cls := cls f; prefetch_batches := prefetch_batches f; _dataloader := _dataloader f;
     dataloader_iter := dataloader_iter f; fetched := fetched f; done := done f;
     store_on_device := v; batch_to_device := batch_to_device f;
     batches := batches f; events := events f; iterator := iterator f;
     env_fault_tolerant := env_fault_tolerant f; env_left := env_left f;
     env_events_created := env_events_created f; env_log := env_log f |}.

Definition set__dataloader (v : option Dataloader) (f : Fetcher) :=
  {| cls := cls f; prefetch_batches := prefetch_batches f; _dataloader := v;
     dataloader_iter := dataloader_iter f; fetched := fetched f; done := done f;
     store_on_device := store_on_device f; batch_to_device := batch_to_device f;
     batches := batches f; events := events f; iterator := iterator f;
     env_fault_tolerant := env_fault_tolerant f; env_left := env_left f;
     env_events_created := env_events_created f; env_log := env_log f |}.

Definition set_dataloader_iter (v : option DataloaderIter) (f : Fetcher) :=
  {| cls := cls f; prefetch_batches := prefetch_batches f; _dataloader := _dataloader f;
     dataloader_iter := v; fetched := fetched f; done := done f;
     store_on_device := store_on_device f; batch_to_device := batch_to_device f;
     batches := batches f; events := events f; iterator := iterator f;
     env_fault_tolerant := env_fault_tolerant f; env_left := env_left f;
     env_events_created := env_events_created f; env_log := env_log f |}.

Definition set_fetched (v : Z) (f : Fetcher) :=
  {| cls := cls f; prefetch_batches := prefetch_batches f; _dataloader := _dataloader f;
     dataloader_iter := dataloader_iter f; fetched := v; done := done f;
     store_on_device := store_on_device f; batch_to_device := batch_to_device f;
     batches := batches f; events := events f; iterator := iterator f;
     env_fault_tolerant := env_fault_tolerant f; env_left := env_left f;
     env_events_created := env_events_created f; env_log := env_log f |}.

Definition set_done (v : bool) (f : Fetcher) :=
  {| cls := cls f; prefetch_batches := prefetch_batches f; _dataloader := _dataloader f;
     dataloader_iter := dataloader_iter f; fetched := fetched f; done := v;
     store_on_device := store_on_device f; batch_to_device := batch_to_device f;
     batches := batches f; events := events f; iterator := iterator f;
     env_fault_tolerant := env_fault_tolerant f; env_left := env_left f;
     env_events_created := env_events_created f; env_log := env_log f |}.

Definition set_batch_to_device (v : Batch -> Batch) (f : Fetcher) :=
  {| cls := cls f; prefetch_batches := prefetch_batches f; _dataloader := _dataloader f;
     dataloader_iter := dataloader_iter f; fetched := fetched f; done := done f;
     store_on_device := store_on_device f; batch_to_device := v;
     batches := batches f; events := events f; iterator := iterator f;
     env_fault_tolerant := env_fault_tolerant f; env_left := env_left f;
     env_events_created := env_events_created f; env_log := env_log f |}.

Definition set_batches (v : list Batch) (f : Fetcher) :=
  {| cls := cls f; prefetch_batches := prefetch_batches f; _dataloader := _dataloader f;
     dataloader_iter := dataloader_iter f; fetched := fetched f; done := done f;
     store_on_device := store_on_device f; batch_to_device := batch_to_device f;
     batches := v; events := events f; iterator := iterator f;
     env_fault_tolerant := env_fault_tolerant f; env_left := env_left f;
     env_events_created := env_events_created f; env_log := env_log f |}.

Definition set_events (v : list Event) (f : Fetcher) :=
  {| cls := cls f; prefetch_batches := prefetch_batches f; _dataloader := _dataloader f;
     dataloader_iter := dataloader_iter f; fetched := fetched f; done := done f;
     store_on_device := store_on_device f; batch_to_device := batch_to_device f;
     batches := batches f; events := v; iterator := iterator f;
     env_fault_tolerant := env_fault_tolerant f; env_left := env_left f;
     env_events_created := env_events_created f; env_log := env_log f |}.

Definition set_iterator (v : option StepFuncDataLoaderIter) (f : Fetcher) :=
  {| cls := cls f; prefetch_batches := prefetch_batches f; _dataloader := _dataloader f;
     dataloader_iter := dataloader_iter f; fetched := fetched f; done := done f;
     store_on_device := store_on_device f; batch_to_device := batch_to_device f;
     batches := batches f; events := events f; iterator := v;
     env_fault_tolerant := env_fault_tolerant f; env_left := env_left f;
     env_events_created := env_events_created f; env_log := env_log f |}.

Definition set_env_events_created (v : nat) (f : Fetcher) :=
  {| cls := cls f; prefetch_batches := prefetch_batches f; _dataloader := _dataloader f;
     dataloader_iter := dataloader_iter f; fetched := fetched f; done := done f;
     store_on_device := store_on_device f; batch_to_device := batch_to_device f;
     batches := batches f; events := events f; iterator := iterator f;
     env_fault_tolerant := env_fault_tolerant f; env_left := env_left f;
     env_events_created := v; env_log := env_log f |}.

Definition set_env_left (v : gmap nat (list (Batch * list IteratorState))) (f : Fetcher) :=
  {| cls := cls f; prefetch_batches := prefetch_batches f; _dataloader := _dataloader f;
     dataloader_iter := dataloader_iter f; fetched := fetched f; done := done f;
     store_on_device := store_on_device f; batch_to_device := batch_to_device f;
     batches := batches f; events := events f; iterator := iterator f;
     env_fault_tolerant := env_fault_tolerant f; env_left := v;
     env_events_created := env_events_created f; env_log := env_log f |}.

(** An external call is made: it is appended to the log. *)
Definition call (c : ExtCall) (f : Fetcher) :=
  {| cls := cls f; prefetch_batches := prefetch_batches f; _dataloader := _dataloader f;
     dataloader_iter := dataloader_iter f; fetched := fetched f; done := done f;
     store_on_device := store_on_device f; batch_to_device := batch_to_device f;
     batches := batches f; events := events f; iterator := iterator f;
     env_fault_tolerant := env_fault_tolerant f; env_left := env_left f;
     env_events_created := env_events_created f; env_log := env_log f ++ [c] |}.

(** ** Methods: a small state-and-exception monad *)

Definition Py (A : Type) : Type := Fetcher -> outcome A * Fetcher.

Definition ret {A} (a : A) : Py A := fun f => (Return a, f).
Definition raise {A} (e : exn) : Py A := fun f => (Raise e, f).
Definition bind {A B} (m : Py A) (k : A -> Py B) : Py B :=
  fun f => match m f with
           | (Return a, f') => k a f'
           | (Raise e, f') => (Raise e, f')
           end.
Definition modify (g : Fetcher -> Fetcher) : Py unit := fun f => (Return tt, g f).

(** [try: m  except StopIteration: h] *)
Definition try_except_StopIteration {A} (m : Py A) (h : Py A) : Py A :=
  fun f => match m f with
           | (Raise StopIteration, f') => h f'
           | r => r
           end.


Notation "'do' x <- m ; k" := (bind m (fun x => k))
  (at level 10, x name, m at level 100, k at level 200, only parsing).
Notation "'run' m ; k" := (bind m (fun _ => k))
  (at level 10, m at level 100, k at level 200, only parsing).

(** ** AbstractDataFetcher *)

(** The object [__init__] receives: an instance of class [c] none of whose
    attributes is assigned yet, in a world that has made no call. *)
Definition blank (c : FetcherClass) (fault_tolerant : bool) : Fetcher :=
  {| cls := c; prefetch_batches := 0; _dataloader := None;
     dataloader_iter := None; fetched := 0; done := false;
     store_on_device := false; batch_to_device := fun b => b;
     batches := []; events := []; iterator := None;
     env_fault_tolerant := fault_tolerant; env_left := ∅;
     env_events_created := 0; env_log := [] |}.

Definition AbstractDataFetcher__init__ (prefetch_batches : Z) : Py unit :=
  if prefetch_batches <? 0 then raise MisconfigurationException
  else
    run modify (set_prefetch_batches prefetch_batches);
    run modify (set__dataloader None);
    run modify (set_dataloader_iter None);
    run modify (set_fetched 0);
    modify (set_done false).

(** For a [CombinedLoader] the one call logged stands for the traversal
    of its children, [apply_to_collection(dataloader.loaders, DataLoader,
    _add_capture_metadata_collate)]. *)
Definition _add_capture_metadata_collate (dataloader : Dataloader) : Py unit :=
  match loader_kind dataloader with
  | IsIterable => ret tt
  | IsDataLoader | IsCombinedLoader => modify (call AddCaptureMetadataCollate)
  end.

Definition AbstractDataFetcher_setup (dataloader : Dataloader) : Py unit :=
  run _add_capture_metadata_collate dataloader;
  modify (set__dataloader (Some dataloader)).

(** The property [dataloader]. *)
Definition dataloader : Py Dataloader :=
  fun self => match _dataloader self with
              | None => (Raise MisconfigurationException, self)
              | Some d => (Return d, self)
              end.

(** [cache_states[iter_name]] is created empty when missing, then appended
    to. *)
Definition buffer_state (cache : gmap string (list IteratorState))
    (iter_state : IteratorState) : gmap string (list IteratorState) :=
  let iter_name := name iter_state in
  <[iter_name := default [] (cache !! iter_name) ++ [iter_state]]> cache.

(** The second loop of [_store_dataloader_iter_state], over the attributes
    [cache_states], [state] and [previous_state] of the iterator. *)
Fixpoint merge_states (dataloader_iter_states : list IteratorState)
    (cache : gmap string (list IteratorState)) (st : MergedIteratorState)
    (prev : option MergedIteratorState)
  : outcome unit * (gmap string (list IteratorState) * MergedIteratorState
                    * option MergedIteratorState) :=
  match dataloader_iter_states with
  | [] => (Return tt, (cache, st, prev))
  | iter_state :: rest =>
      let prev := if (0 <? MergedIteratorState_len st)%nat then Some st else prev in
      let iter_name := name iter_state in
      match cache !! iter_name with
      | None => (Raise KeyError, (cache, st, prev))
      | Some [] => (Raise IndexError, (cache, st, prev))
      | Some (s :: queue) =>
          merge_states rest (<[iter_name := queue]> cache)
            (MergedIteratorState_update iter_name s st) prev
      end
  end.

Definition _store_dataloader_iter_state (self : Fetcher)
    (dataloader_iter : DataloaderIter) (dataloader_iter_states : list IteratorState)
  : outcome unit * DataloaderIter :=
  let cache := default ∅ (cache_states dataloader_iter) in
  let st := default ∅ (state dataloader_iter) in
  let cache := foldl buffer_state cache dataloader_iter_states in
  if prefetch_batches self <=? fetched self then
    match merge_states dataloader_iter_states cache st (previous_state dataloader_iter) with
    | (r, (cache, st, prev)) => (r, set_merge cache st prev dataloader_iter)
    end
  else (Return tt, set_merge cache st (previous_state dataloader_iter) dataloader_iter).

(** Modelled from the spec: the iterator of a patched source
    ([patch_dataloader_iterator], auto_restart.py) "after being pulled from,
    may attach zero-or-more ProgressTokens retrievable by the core": the
    pull takes the next item and, before it hands the batch back, calls the
    fetcher's [_store_dataloader_iter_state] with the item's tokens.  An
    exhausted iterator raises [StopIteration] and stores nothing. *)
Definition next_ (self : Fetcher) (it : DataloaderIter) : outcome Batch * DataloaderIter :=
  match remaining it with
  | [] => (Raise StopIteration, it)
  | (batch, tokens) :: rest =>
      let it := set_remaining rest it in
      if patched it then
        match _store_dataloader_iter_state self it tokens with
        | (Return _, it) => (Return batch, it)
        | (Raise e, it) => (Raise e, it)
        end
      else (Return batch, it)
  end.

(** A pull through a cursor that draws from a source that cannot be
    replayed consumes the source: what it has left from now on is what the
    cursor has left. *)
Definition pulled_from (it : DataloaderIter) (self : Fetcher) : Fetcher :=
  match iterator_id it with
  | Some id => set_env_left (<[id := remaining it]> (env_left self)) self
  | None => self
  end.

(** [next(iterator)] on the object [self.dataloader_iter] refers to. *)
Definition next_dataloader_iter : Py Batch :=
  fun self => match dataloader_iter self with
              | None => (Raise TypeError, self)
              | Some it =>
                  match next_ self it with
                  | (r, it) => (r, set_dataloader_iter (Some it) (pulled_from it self))
                  end
              end.

(** [_attach_data_fetcher], [_apply_patch] and [state] reach the source
    through the properties [loaders] and [loader_iters].  A single source is
    its own one loader and [dataloader_iter] its one iterator.  The
    children of a [CombinedLoader] and their iterators live in the
    [CombinedLoader], outside the file: they are not followed here, so for
    a [CombinedLoader] these three are as the code has them only when no
    child is a [DataLoader] under fault-tolerant training. *)
Definition _attach_data_fetcher : Py unit :=
  do d <- dataloader;
  fun self =>
    match loader_kind d with
    | IsDataLoader =>
        if env_fault_tolerant self then modify (call AttachLightningFetcher) self
        else ret tt self
    | _ => ret tt self
    end.

Definition loader_iters : Py DataloaderIter :=
  fun self => match dataloader_iter self with
              | None => (Raise MisconfigurationException, self)
              | Some it => (run dataloader; ret it) self
              end.

Definition _apply_patch : Py unit :=
  do d <- dataloader;
  do it <- loader_iters;
  fun self =>
    match loader_kind d with
    | IsDataLoader =>
        if env_fault_tolerant self then
          (run modify (call PatchDataloaderIterator);
           modify (set_dataloader_iter (Some (set_patched true it)))) self
        else ret tt self
    | _ => ret tt self
    end.

(** The property [state], for a single source: the list of the [state]
    attribute of its one iterator. *)
Definition AbstractDataFetcher_state : Py (list MergedIteratorState) :=
  do it <- loader_iters;
  match state it with
  | None => raise AttributeError
  | Some st => ret [st]
  end.

Definition AbstractDataFetcher_reset : Py unit :=
  run modify (set_fetched 0);
  modify (set_done false).

(** ** DataFetcher *)

Definition _no_op_batch_to_device (batch : Batch) : Batch := batch.

Definition DataFetcher__init__ (prefetch_batches : Z) (store_on_device : bool) : Py unit :=
  if prefetch_batches <? 1 then raise MisconfigurationException
  else
    run AbstractDataFetcher__init__ prefetch_batches;
    run modify (set_store_on_device store_on_device);
    run modify (set_batch_to_device _no_op_batch_to_device);
    modify (set_batches []).

Definition DataFetcher_setup (dataloader : Dataloader)
    (batch_to_device : option (Batch -> Batch)) : Py unit :=
  run AbstractDataFetcher_setup dataloader;
  match batch_to_device with
  | Some g => modify (set_batch_to_device g)
  | None => ret tt
  end.

Definition DataFetcher_on_fetch_end (batch : Batch) (start_output : option Event) : Py unit :=
  modify (fun self => set_batches (batches self ++ [batch]) self).

Definition DataFetcher_move_to_device (batch : Batch) : Py Batch :=
  fun self =>
    if store_on_device self then (Return (batch_to_device self batch), self)
    else (Return batch, self).

Definition DataFetcher_reset : Py unit :=
  run AbstractDataFetcher_reset;
  modify (set_batches []).

(** ** InterBatchParallelDataFetcher *)

Definition InterBatchParallelDataFetcher__init__ (prefetch_batches : Z)
    (store_on_device : bool) : Py unit :=
  run DataFetcher__init__ prefetch_batches store_on_device;
  (* self.cuda_stream = torch.cuda.Stream() *)
  modify (set_events []).

Definition InterBatchParallelDataFetcher_on_fetch_start : Py (option Event) :=
  fun self =>
    (Return (Some (env_events_created self)),
     set_env_events_created (S (env_events_created self)) self).

Definition InterBatchParallelDataFetcher_on_fetch_end (batch : Batch)
    (event : option Event) : Py unit :=
  run modify (fun self => set_batches (batches self ++ [batch]) self);
  match event with
  | None => raise AttributeError
  | Some e =>
      run modify (call (EventRecord e));
      modify (fun self => set_events (events self ++ [e]) self)
  end.

Definition InterBatchParallelDataFetcher_wait : Py unit :=
  fun self =>
    match events self with
    | [] => (Raise IndexError, self)
    | event :: rest => (Return tt, call (EventWait event) (set_events rest self))
    end.

(** ** Method resolution *)

Definition on_fetch_start : Py (option Event) :=
  fun self => match cls self with
              | InterBatchParallelDataFetcher =>
                  InterBatchParallelDataFetcher_on_fetch_start self
              | _ => ret None self
              end.

Definition on_fetch_end (batch : Batch) (start_output : option Event) : Py unit :=
  fun self => match cls self with
              | DataFetcher => DataFetcher_on_fetch_end batch start_output self
              | InterBatchParallelDataFetcher =>
                  InterBatchParallelDataFetcher_on_fetch_end batch start_output self
              | DataLoaderIterDataFetcher => ret tt self
              end.

Definition wait : Py unit :=
  fun self => match cls self with
              | InterBatchParallelDataFetcher => InterBatchParallelDataFetcher_wait self
              | _ => ret tt self
              end.

(** [InterBatchParallelDataFetcher.move_to_device] runs the inherited one
    inside [torch.cuda.stream(self.cuda_stream)]. *)
Definition move_to_device (batch : Batch) : Py Batch := DataFetcher_move_to_device batch.

Definition reset : Py unit :=
  fun self => match cls self with
              | DataFetcher | InterBatchParallelDataFetcher => DataFetcher_reset self
              | DataLoaderIterDataFetcher => AbstractDataFetcher_reset self
              end.

Definition setup (dataloader : Dataloader) (batch_to_device : option (Batch -> Batch))
  : Py unit :=
  fun self => match cls self with
              | DataFetcher | InterBatchParallelDataFetcher =>
                  DataFetcher_setup dataloader batch_to_device self
              | DataLoaderIterDataFetcher => AbstractDataFetcher_setup dataloader self
              end.

(** ** Fetching *)

Definition _fetch_next_batch : Py unit :=
  do start_output <- on_fetch_start;
  do batch <- next_dataloader_iter;
  run modify (fun self => set_fetched (fetched self + 1) self);
  on_fetch_end batch start_output.

(** [for _ in range(n): try: self._fetch_next_batch(iterator)
    except StopIteration: break] *)
Fixpoint prefetching_loop (n : nat) : Py unit :=
  match n with
  | O => ret tt
  | S n' =>
      fun self =>
        match _fetch_next_batch self with
        | (Return _, self') => prefetching_loop n' self'
        | (Raise StopIteration, self') => (Return tt, self')
        | (Raise e, self') => (Raise e, self')
        end
  end.

Definition DataFetcher_prefetching : Py unit :=
  fun self =>
    match dataloader_iter self with
    | None => (Raise AssertionError, self)
    | Some _ => prefetching_loop (Z.to_nat (prefetch_batches self)) self
    end.

(** What [fetching_function] hands to the consumer. *)
Inductive Fetched : Type :=
| BatchIsLast (batch : Batch) (is_last : bool)
| IterAndDone (fetched : Z) (it : StepFuncDataLoaderIter) (done : bool).

Definition DataFetcher_fetching_function : Py Fetched :=
  fun self =>
    match batches self with
    | [] => (Raise StopIteration, self)
    | batch :: rest =>
        (run modify (set_batches rest);
         run (fun self =>
                if done self then ret tt self
                else
                  match dataloader_iter self with
                  | None => (Raise AssertionError, self)
                  | Some _ =>
                      try_except_StopIteration _fetch_next_batch (modify (set_done true)) self
                  end);
         run wait;
         do moved <- move_to_device batch;
         fun self => (Return (BatchIsLast moved (length (batches self) =? 0)%nat), self)) self
    end.

(** ** StepFuncDataLoaderIter and DataLoaderIterDataFetcher *)

(** [next(w)] for the wrapper [w] of the pass in progress, the one
    [prefetching] has put in [self.iterator]: from then until [teardown] or
    the next [__iter__], [w.iterator] is the object [self.dataloader_iter]
    refers to. *)
Definition StepFuncDataLoaderIter__next__ : Py Batch :=
  fun self =>
    match next_dataloader_iter self with
    | (Return data, self') =>
        (Return data, set_fetched (fetched self' + 1) self')
    | (Raise StopIteration, self') => (Raise StopIteration, set_done true self')
    | (Raise e, self') => (Raise e, self')
    end.

Definition DataLoaderIterDataFetcher__init__ : Py unit :=
  run AbstractDataFetcher__init__ 0;
  modify (set_store_on_device false).

Definition DataLoaderIterDataFetcher_prefetching : Py unit :=
  fun self =>
    match dataloader_iter self with
    | None => (Raise AssertionError, self)
    | Some _ => (Return tt, set_iterator (Some StepFuncWrapper) self)
    end.

Definition DataLoaderIterDataFetcher_fetching_function : Py Fetched :=
  fun self =>
    if negb (done self) then
      match iterator self with
      | None => (Raise AttributeError, self)
      | Some it => (Return (IterAndDone (fetched self) it (done self)), self)
      end
    else (Raise StopIteration, self).

Definition prefetching : Py unit :=
  fun self => match cls self with
              | DataFetcher | InterBatchParallelDataFetcher => DataFetcher_prefetching self
              | DataLoaderIterDataFetcher => DataLoaderIterDataFetcher_prefetching self
              end.

Definition fetching_function : Py Fetched :=
  fun self => match cls self with
              | DataFetcher | InterBatchParallelDataFetcher =>
                  DataFetcher_fetching_function self
              | DataLoaderIterDataFetcher =>
                  DataLoaderIterDataFetcher_fetching_function self
              end.

(** ** The iteration protocol and the end of a pass *)

(** What [iter(d)] has to yield: every item of a source that can be
    replayed; of one that cannot, what the earlier pulls have left. *)
Definition items_left (self : Fetcher) (d : Dataloader) : list (Batch * list IteratorState) :=
  match loader_once d with
  | Some id => default (loader_items d) (env_left self !! id)
  | None => loader_items d
  end.

(** [iter(self.dataloader)]: a cursor at the start of the source, or where
    the earlier pulls stopped if the source cannot be replayed. *)
Definition iter (d : Dataloader) (self : Fetcher) : DataloaderIter :=
  {| remaining := items_left self d; patched := false; cache_states := None;
     state := None; previous_state := None; iterator_id := loader_once d |}.

Definition __iter__ : Py unit :=
  run reset;
  run _attach_data_fetcher;
  run modify (call PatchDataloaderGetIterators);
  do d <- dataloader;
  run modify (fun self => set_dataloader_iter (Some (iter d self)) self);
  run _apply_patch;
  prefetching.

Definition __next__ : Py Fetched := fetching_function.

Definition teardown : Py unit :=
  run reset;
  do d <- dataloader;
  run (match loader_kind d with
       | IsCombinedLoader => modify (call CombinedLoaderReset)
       | _ => ret tt
       end);
  do d <- dataloader;
  run (match loader_kind d with
       | IsDataLoader => modify (call ShutdownWorkersAndResetIterator)
       | _ => ret tt
       end);
  run modify (set_dataloader_iter None);
  modify (call TeardownDataloaderGetIterators).

(** ** Constructors *)

Definition construct (init : Py unit) (c : FetcherClass) (fault_tolerant : bool)
  : outcome Fetcher :=
  match init (blank c fault_tolerant) with
  | (Return _, self) => Return self
  | (Raise e, _) => Raise e
  end.

Definition new_DataFetcher (fault_tolerant : bool) (prefetch_batches : Z)
    (store_on_device : bool) : outcome Fetcher :=
  construct (DataFetcher__init__ prefetch_batches store_on_device)
    DataFetcher fault_tolerant.

Definition new_InterBatchParallelDataFetcher (fault_tolerant : bool)
    (prefetch_batches : Z) (store_on_device : bool) : outcome Fetcher :=
  construct (InterBatchParallelDataFetcher__init__ prefetch_batches store_on_device)
    InterBatchParallelDataFetcher fault_tolerant.

Definition new_DataLoaderIterDataFetcher (fault_tolerant : bool) : outcome Fetcher :=
  construct DataLoaderIterDataFetcher__init__ DataLoaderIterDataFetcher fault_tolerant.


(** ** The consumer *)

(** At most [fuel] calls of [next(fetcher)], up to the first that raises:
    what was handed over, how the loop ended ([None]: it was still running
    when the fuel ran out) and the fetcher it left. *)
Fixpoint drive (fuel : nat) (self : Fetcher) : list Fetched * option exn * Fetcher :=
  match fuel with
  | O => ([], None, self)
  | S fuel' =>
      match __next__ self with
      | (Return x, self') =>
          match drive fuel' self' with
          | (xs, e, self'') => (x :: xs, e, self'')
          end
      | (Raise e, self') => ([], Some e, self')
      end
  end.

(** [for x in fetcher: ...] *)
Definition for_loop (fuel : nat) (self : Fetcher) : list Fetched * option exn * Fetcher :=
  match __iter__ self with
  | (Return _, self') => drive fuel self'
  | (Raise e, self') => ([], Some e, self')
  end.


(** [fetcher.setup(dataloader, batch_to_device)] followed by
    [for x in fetcher: ...]. *)
Definition consume (fuel : nat) (d : Dataloader) (batch_to_device : option (Batch -> Batch))
    (self : Fetcher) : list Fetched * option exn * Fetcher :=
  match setup d batch_to_device self with
  | (Return _, self') => for_loop fuel self'
  | (Raise e, self') => ([], Some e, self')
  end.

(** [k] pulls of the consumer through the wrapper of the pass in progress,
    [next(dataloader_iter)] in a training step, with what each returned or
    raised. *)
Fixpoint pulls (k : nat) (self : Fetcher) : list (outcome Batch) * Fetcher :=
  match k with
  | O => ([], self)
  | S k' =>
      match StepFuncDataLoaderIter__next__ self with
      | (r, self') =>
          match pulls k' self' with
          | (rs, self'') => (r :: rs, self'')
          end
      end
  end.

(** * Auxiliary definitions of the verification *)

(** How many of the tokens carry the name [n]. *)
Definition occurrences (n : string) (ts : list IteratorState) : nat :=
  length (filter (fun t => name t = n) ts).

(** The tokens buffered under [n] ([[]] when the name is missing). *)
Definition buffered (cache : gmap string (list IteratorState)) (n : string)
  : list IteratorState :=
  default [] (cache !! n).

(** The iterator a successful pull leaves. *)
Definition pulled (self : Fetcher) (it : DataloaderIter)
    (tokens : list IteratorState) (rest : list (Batch * list IteratorState)) : DataloaderIter :=
  if patched it then snd (_store_dataloader_iter_state self (set_remaining rest it) tokens)
  else set_remaining rest it.

(** The attributes no pull and no [next] assigns. *)
Definition same_settings (self self' : Fetcher) : Prop :=
  cls self' = cls self
  /\ prefetch_batches self' = prefetch_batches self
  /\ _dataloader self' = _dataloader self
  /\ store_on_device self' = store_on_device self
  /\ batch_to_device self' = batch_to_device self
  /\ iterator self' = iterator self
  /\ env_fault_tolerant self' = env_fault_tolerant self.

Definition overlaps (c : FetcherClass) : bool :=
  match c with InterBatchParallelDataFetcher => true | _ => false end.

Definition prefetches (c : FetcherClass) : bool :=
  match c with DataLoaderIterDataFetcher => false | _ => true end.

(** The event a pull of [self] creates, if its class creates one. *)
Definition new_event (self : Fetcher) : list Event :=
  if overlaps (cls self) then [env_events_created self] else [].

(** What [move_to_device] makes of a batch. *)
Definition moved (self : Fetcher) (batch : Batch) : Batch :=
  if store_on_device self then batch_to_device self batch else batch.

(** [len(l) == 0] *)
Definition is_nil {A} (l : list A) : bool := (length l =? 0)%nat.

(** The events the log says were recorded, and those it says were waited
    for, oldest first. *)
Definition recorded (log : list ExtCall) : list Event :=
  omap (fun c => match c with EventRecord e => Some e | _ => None end) log.

Definition waited (log : list ExtCall) : list Event :=
  omap (fun c => match c with EventWait e => Some e | _ => None end) log.

(** The invariant of a pass of a prefetching fetcher: [pending] are the
    batches still to be handed over, the buffered ones first; the buffer
    runs empty only when the source has; an overlapping fetcher holds one
    event per buffered batch. *)
Definition buffering (self : Fetcher) (pending : list Batch) : Prop :=
  prefetches (cls self) = true
  /\ exists it,
       dataloader_iter self = Some it
       /\ batches self ++ map fst (remaining it) = pending
       /\ (done self = true -> remaining it = [])
       /\ (batches self = [] -> remaining it = [])
       /\ (overlaps (cls self) = true -> length (events self) = length (batches self)).

(** The invariant of a pass of an overlapping fetcher over a source of [L]
    batches: the events are numbered in the order of the pulls; those waited
    for followed by those held are those recorded. *)
Definition overlapping (L : nat) (self : Fetcher) : Prop :=
  overlaps (cls self) = true
  /\ exists it,
       dataloader_iter self = Some it
       /\ waited (env_log self) ++ events self = recorded (env_log self)
       /\ recorded (env_log self) = seq 0 (length (recorded (env_log self)))
       /\ (remaining it <> [] ->
           env_events_created self = length (recorded (env_log self)))
       /\ (length (recorded (env_log self)) + length (remaining it))%nat = L.

(** The pairs a pass hands over for the pending batches. *)
Fixpoint pairs (mv : Batch -> Batch) (pending : list Batch) : list Fetched :=
  match pending with
  | [] => []
  | b :: rest => BatchIsLast (mv b) (is_nil rest) :: pairs mv rest
  end.

(** No event is held or logged: as after construction. *)
Definition no_events (self : Fetcher) : Prop :=
  events self = [] /\ recorded (env_log self) = [] /\ waited (env_log self) = []
  /\ env_events_created self = 0%nat.

(** The fetcher a successful construction returns. *)
Definition constructed (c : FetcherClass) (fault_tolerant : bool) (D : Z) (sod : bool)
  : Fetcher :=
  {| cls := c; prefetch_batches := D; _dataloader := None;
     dataloader_iter := None; fetched := 0; done := false;
     store_on_device := sod; batch_to_device := _no_op_batch_to_device;
     batches := []; events := []; iterator := None;
     env_fault_tolerant := fault_tolerant; env_left := ∅;
     env_events_created := 0; env_log := [] |}.

(** The device placement in force after [setup]. *)
Definition placement (sod : bool) (batch_to_device : option (Batch -> Batch)) (b : Batch)
  : Batch :=
  if sod then default _no_op_batch_to_device batch_to_device b else b.

(** The invariant of a pass in caller-driven mode after [P] pulls. *)
Definition caller_driven (items : list (Batch * list IteratorState)) (P : nat)
    (self : Fetcher) : Prop :=
  cls self = DataLoaderIterDataFetcher
  /\ iterator self = Some StepFuncWrapper
  /\ done self = false
  /\ fetched self = Z.of_nat P
  /\ exists it, dataloader_iter self = Some it /\ remaining it = drop P items.

(** What [teardown] asks of a source of the given kind. *)
Definition teardown_calls (kind : LoaderKind) : list ExtCall :=
  match kind with
  | IsCombinedLoader => [CombinedLoaderReset]
  | IsDataLoader => [ShutdownWorkersAndResetIterator]
  | IsIterable => []
  end.

(** The progress token of the source named [n] at position [pos]. *)
Definition token (n : string) (pos : Z) : IteratorState :=
  {| name := n; num_batches_fetched := pos |}.

(** The items of a source named [n] that attaches to each batch one token,
    its position; and the tokens alone, in the order of the batches. *)
Definition one_token_each (n : string) (l : list (Batch * Z))
  : list (Batch * list IteratorState) :=
  (fun p => (fst p, [token n (snd p)])) <$> l.

Definition tokens_of (n : string) (l : list (Batch * Z)) : list IteratorState :=
  (fun p => token n (snd p)) <$> l.

(** The merged state that reflects the progress of the source named [n] as
    of its [m]-th batch: empty for [m = 0]. *)
Definition reflects (n : string) (toks : list IteratorState) (m : nat)
  : MergedIteratorState :=
  match m with
  | O => ∅
  | S j => match toks !! j with Some t => {[n := t]} | None => ∅ end
  end.

(** The attributes the fetcher of depth [D] has put on an iterator it has
    pulled [P] batches from: the last [min P D] tokens are buffered, the
    state reflects batch [P - D], the archive the batch before. *)
Definition merge_attrs (D : nat) (n : string) (toks : list IteratorState) (P : nat)
    (it : DataloaderIter) : Prop :=
  cache_states it
  = match P with O => None | S _ => Some {[n := drop (P - D) (take P toks)]} end
  /\ state it = match P with O => None | S _ => Some (reflects n toks (P - D)) end
  /\ previous_state it
     = if (2 <=? P - D)%nat then Some (reflects n toks (P - D - 1)) else None.

(** The invariant of a pass over a patched source with one token per batch,
    after [P] pulls. *)
Definition tracking (D : nat) (n : string) (l : list (Batch * Z)) (P : nat)
    (self : Fetcher) : Prop :=
  prefetch_batches self = Z.of_nat D
  /\ fetched self = Z.of_nat P
  /\ (P <= length l)%nat
  /\ exists it,
       dataloader_iter self = Some it
       /\ patched it = true
       /\ remaining it = drop P (one_token_each n l)
       /\ merge_attrs D n (tokens_of n l) P it.

(** The statements of [__iter__] before [self.prefetching()], and the
    fetcher they leave when a source is set up. *)
Definition entering : Py unit :=
  run reset;
  run _attach_data_fetcher;
  run modify (call PatchDataloaderGetIterators);
  do d <- dataloader;
  run modify (fun self => set_dataloader_iter (Some (iter d self)) self);
  _apply_patch.

Definition patches (self : Fetcher) (d : Dataloader) : bool :=
  match loader_kind d with
  | IsDataLoader => env_fault_tolerant self
  | _ => false
  end.

Definition entered (self : Fetcher) (d : Dataloader) : Fetcher :=
  {| cls := cls self; prefetch_batches := prefetch_batches self;
     _dataloader := _dataloader self;
     dataloader_iter :=
       Some (if patches self d then set_patched true (iter d self) else iter d self);
     fetched := 0; done := false;
     store_on_device := store_on_device self; batch_to_device := batch_to_device self;
     batches := if prefetches (cls self) then [] else batches self;
     events := events self; iterator := iterator self;
     env_fault_tolerant := env_fault_tolerant self; env_left := env_left self;
     env_events_created := env_events_created self;
     env_log :=
       let log1 := if patches self d then env_log self ++ [AttachLightningFetcher]
                   else env_log self in
       let log2 := log1 ++ [PatchDataloaderGetIterators] in
       if patches self d then log2 ++ [PatchDataloaderIterator] else log2 |}.

(** The invariant of a pass of a prefetching fetcher of depth [D] after [k]
    batches are handed over: the buffer holds the next [D] batches of the
    source (fewer when it runs out), [fetched] counts the batches pulled,
    and [done] is set once a refill pull has found the source exhausted. *)
Definition lookahead (D : nat) (items : list (Batch * list IteratorState)) (k : nat)
    (self : Fetcher) : Prop :=
  fetched self = Z.of_nat (Nat.min (D + k) (length items))
  /\ batches self = take D (drop k (fst <$> items))
  /\ (done self = true <-> (1 <= k /\ length items < D + k)%nat)
  /\ exists it, dataloader_iter self = Some it /\ remaining it = drop (D + k) items.

(** An iterator that was not patched and carries no merged state. *)
Definition bare (self : Fetcher) : Prop :=
  exists it, dataloader_iter self = Some it /\ patched it = false /\ state it = None.

(** The invariants of a pass of an overlapping fetcher that entered it
    holding the events [es0] (logged so far: the waits [W0], the records
    [R0]): [m] events more than batches are held; the waits of the pass
    followed by the events held are [es0] followed by the records of the
    pass. *)
Definition carrying (m : nat) (self : Fetcher) (pending : list Batch) : Prop :=
  cls self = InterBatchParallelDataFetcher
  /\ exists it,
       dataloader_iter self = Some it
       /\ batches self ++ map fst (remaining it) = pending
       /\ (done self = true -> remaining it = [])
       /\ (batches self = [] -> remaining it = [])
       /\ length (events self) = (m + length (batches self))%nat.

Definition events_from (es0 W0 R0 : list Event) (L : nat) (self : Fetcher) : Prop :=
  exists it ws rs,
    dataloader_iter self = Some it
    /\ waited (env_log self) = W0 ++ ws
    /\ recorded (env_log self) = R0 ++ rs
    /\ ws ++ events self = es0 ++ rs
    /\ (length rs + length (remaining it))%nat = L.

(** The invariant of a pass over a source that cannot be replayed: the
    cursor draws from the source [id], and what the source has left is what
    the cursor has left. *)
Definition consuming (id : nat) (d : Dataloader) (self : Fetcher) : Prop :=
  _dataloader self = Some d
  /\ loader_once d = Some id
  /\ exists it,
       dataloader_iter self = Some it
       /\ iterator_id it = Some id
       /\ items_left self d = remaining it.

(** ** Sample sources *)

(** The source [[a; b; c]] of the spec's scenario, as a [DataLoader] named
    [w] that attaches to each batch the number of batches it has produced. *)
Definition abc_positions (a b c : Batch) : list (Batch * Z) := [(a, 1); (b, 2); (c, 3)].

Definition abc (a b c : Batch) : Dataloader :=
  {| loader_kind := IsDataLoader;
     loader_items := one_token_each "w" (abc_positions a b c);
     loader_once := None |}.

(** The same three batches held by a generator, which cannot be replayed
    and attaches no tokens. *)
Definition abc_generator (a b c : Batch) : Dataloader :=
  {| loader_kind := IsIterable; loader_items := [(a, []); (b, []); (c, [])];
     loader_once := Some 0%nat |}.

(** Spec wording: "after consuming exactly K batches with LookAheadDepth
    D, the externally visible MergedState reflects source progress as of
    batch max(0, K-D)". *)
Definition MergedState_as_specified (n : string) (toks : list IteratorState)
    (D K : nat) : MergedIteratorState :=
  reflects n toks (Nat.max 0 (K - D)).

(** * Verification *)


(** ** Buffering and folding progress tokens *)

Lemma occurrences_cons_eq t ts : occurrences (name t) (t :: ts) = S (occurrences (name t) ts).
Proof. unfold occurrences. rewrite filter_cons_True by done. reflexivity. Qed.

Lemma occurrences_cons_ne n t ts : name t ≠ n -> occurrences n (t :: ts) = occurrences n ts.
Proof. intros H. unfold occurrences. rewrite filter_cons_False by done. reflexivity. Qed.

Lemma buffered_buffer_state_eq cache t :
  buffered (buffer_state cache t) (name t) = buffered cache (name t) ++ [t].
Proof. unfold buffered, buffer_state. by rewrite lookup_insert_eq. Qed.

Lemma buffered_buffer_state_ne cache t n :
  name t ≠ n -> buffered (buffer_state cache t) n = buffered cache n.
Proof. intros H. unfold buffered, buffer_state. by rewrite lookup_insert_ne. Qed.

Lemma buffered_foldl_length ts : forall cache n,
  length (buffered (foldl buffer_state cache ts) n)
  = (length (buffered cache n) + occurrences n ts)%nat.
Proof.
  induction ts as [|t ts IH]; intros cache n; simpl.
  - unfold occurrences. simpl. lia.
  - rewrite IH. destruct (decide (name t = n)) as [<-|Hne].
    + rewrite buffered_buffer_state_eq, occurrences_cons_eq, length_app. simpl. lia.
    + rewrite buffered_buffer_state_ne, occurrences_cons_ne by done. lia.
Qed.

(** The folding loop pops no more tokens of a name than are buffered under
    it, so neither [KeyError] nor [IndexError] can occur. *)
Lemma merge_states_total ts : forall cache st prev,
  (forall n, (occurrences n ts <= length (buffered cache n))%nat) ->
  fst (merge_states ts cache st prev) = Return tt.
Proof.
  induction ts as [|t ts IH]; intros cache st prev Hocc; simpl; [done|].
  pose proof (Hocc (name t)) as Ht. rewrite occurrences_cons_eq in Ht.
  unfold buffered in Ht.
  destruct (cache !! name t) as [[|s queue]|] eqn:Hc; simpl in Ht; try lia.
  apply IH. intros n. destruct (decide (name t = n)) as [<-|Hne].
  - unfold buffered. rewrite lookup_insert_eq. simpl. lia.
  - unfold buffered. rewrite lookup_insert_ne by done.
    specialize (Hocc n). rewrite occurrences_cons_ne in Hocc by done. exact Hocc.
Qed.

Lemma _store_dataloader_iter_state_total self it ts :
  fst (_store_dataloader_iter_state self it ts) = Return tt.
Proof.
  unfold _store_dataloader_iter_state.
  destruct (prefetch_batches self <=? fetched self); [|done].
  pose proof (merge_states_total ts (foldl buffer_state (default ∅ (cache_states it)) ts)
                (default ∅ (state it)) (previous_state it)) as H.
  destruct (merge_states _ _ _ _) as [r [[c s] p]]. simpl in *. apply H.
  intros n. rewrite buffered_foldl_length. lia.
Qed.

Lemma _store_dataloader_iter_state_frame self it ts :
  remaining (snd (_store_dataloader_iter_state self it ts)) = remaining it
  /\ patched (snd (_store_dataloader_iter_state self it ts)) = patched it.
Proof.
  unfold _store_dataloader_iter_state.
  destruct (prefetch_batches self <=? fetched self); [|done].
  destruct (merge_states _ _ _ _) as [r [[c s] p]]. done.
Qed.

Lemma _store_dataloader_iter_state_iterator_id self it ts :
  iterator_id (snd (_store_dataloader_iter_state self it ts)) = iterator_id it.
Proof.
  unfold _store_dataloader_iter_state.
  destruct (prefetch_batches self <=? fetched self); [|done].
  destruct (merge_states _ _ _ _) as [r [[c s] p]]. done.
Qed.

(** The store reads two attributes of the fetcher only. *)
Lemma _store_dataloader_iter_state_ext self1 self2 it ts :
  prefetch_batches self1 = prefetch_batches self2 ->
  fetched self1 = fetched self2 ->
  _store_dataloader_iter_state self1 it ts = _store_dataloader_iter_state self2 it ts.
Proof. intros H1 H2. unfold _store_dataloader_iter_state. by rewrite H1, H2. Qed.

(** ** One pull *)

Lemma pulled_frame self it tokens rest :
  remaining (pulled self it tokens rest) = rest
  /\ patched (pulled self it tokens rest) = patched it.
Proof.
  unfold pulled. destruct (patched it) eqn:Hp; [|by rewrite <- Hp].
  destruct (_store_dataloader_iter_state_frame self (set_remaining rest it) tokens) as [-> ->].
  done.
Qed.

Lemma pulled_iterator_id self it tokens rest :
  iterator_id (pulled self it tokens rest) = iterator_id it.
Proof.
  unfold pulled. destruct (patched it); [|done].
  by rewrite _store_dataloader_iter_state_iterator_id.
Qed.

Lemma next__some self it batch tokens rest :
  remaining it = (batch, tokens) :: rest ->
  next_ self it = (Return batch, pulled self it tokens rest).
Proof.
  intros Hr. unfold next_, pulled. rewrite Hr. simpl.
  destruct (patched it); [|done].
  pose proof (_store_dataloader_iter_state_total self (set_remaining rest it) tokens) as H.
  destruct (_store_dataloader_iter_state _ _ _) as [[[]|e] it']; simpl in *; congruence.
Qed.

Lemma next__none self it :
  remaining it = [] -> next_ self it = (Raise StopIteration, it).
Proof. intros Hr. unfold next_. by rewrite Hr. Qed.


Lemma pulled_ext self1 self2 it tokens rest :
  prefetch_batches self1 = prefetch_batches self2 ->
  fetched self1 = fetched self2 ->
  pulled self1 it tokens rest = pulled self2 it tokens rest.
Proof.
  intros H1 H2. unfold pulled.
  by rewrite (_store_dataloader_iter_state_ext self1 self2).
Qed.

Lemma same_settings_refl self : same_settings self self.
Proof. by repeat split. Qed.

Lemma same_settings_trans self1 self2 self3 :
  same_settings self1 self2 -> same_settings self2 self3 -> same_settings self1 self3.
Proof. unfold same_settings. intros H1 H2. intuition congruence. Qed.

(** A pull of a prefetching fetcher from a source that has a batch left. *)
Lemma _fetch_next_batch_some self it batch tokens rest :
  prefetches (cls self) = true ->
  dataloader_iter self = Some it ->
  remaining it = (batch, tokens) :: rest ->
  exists self',
    _fetch_next_batch self = (Return tt, self')
    /\ same_settings self self'
    /\ dataloader_iter self' = Some (pulled self it tokens rest)
    /\ fetched self' = fetched self + 1
    /\ done self' = done self
    /\ batches self' = batches self ++ [batch]
    /\ events self' = events self ++ new_event self
    /\ env_events_created self' = (env_events_created self + length (new_event self))%nat
    /\ env_log self' = env_log self ++ map EventRecord (new_event self).
Proof.
  intros Hc Hit Hr. destruct self as [c D dl oit n dn sod b2d bs es w ft lf ec lg].
  simpl in *. subst oit.
  destruct c; try discriminate;
    unfold _fetch_next_batch, bind, on_fetch_start, next_dataloader_iter, modify,
      on_fetch_end, DataFetcher_on_fetch_end, InterBatchParallelDataFetcher_on_fetch_end,
      InterBatchParallelDataFetcher_on_fetch_start, new_event, ret, bind, modify;
    simpl; rewrite (next__some _ _ _ _ _ Hr); simpl;
    unfold pulled_from; rewrite pulled_iterator_id; destruct (iterator_id it); simpl;
    eexists; (split; [reflexivity|]); simpl; unfold same_settings; simpl;
    rewrite ?app_nil_r, ?Nat.add_0_r, ?Nat.add_1_r; repeat split;
    f_equal; by apply pulled_ext.
Qed.

(** A pull of a prefetching fetcher from an exhausted source: the event
    made for it is dropped, nothing else changes. *)
Lemma _fetch_next_batch_none self it :
  prefetches (cls self) = true ->
  dataloader_iter self = Some it ->
  remaining it = [] ->
  exists self',
    _fetch_next_batch self = (Raise StopIteration, self')
    /\ same_settings self self'
    /\ dataloader_iter self' = Some it
    /\ fetched self' = fetched self
    /\ done self' = done self
    /\ batches self' = batches self
    /\ events self' = events self
    /\ env_events_created self' = (env_events_created self + length (new_event self))%nat
    /\ env_log self' = env_log self.
Proof.
  intros Hc Hit Hr. destruct self as [c D dl oit n dn sod b2d bs es w ft lf ec lg].
  simpl in *. subst oit.
  destruct c; try discriminate;
    unfold _fetch_next_batch, bind, on_fetch_start, next_dataloader_iter,
      InterBatchParallelDataFetcher_on_fetch_start, new_event, ret;
    simpl; rewrite (next__none _ _ Hr); simpl;
    unfold pulled_from; destruct (iterator_id it); simpl;
    eexists; (split; [reflexivity|]); simpl; unfold same_settings; simpl;
    rewrite ?Nat.add_0_r, ?Nat.add_1_r; by repeat split.
Qed.


(** ** One call of [fetching_function] of a prefetching fetcher *)

Ltac expose self :=
  destruct self as [?c ?D ?dl ?oit ?n ?dn ?sod ?b2d ?bs ?es ?w ?ft ?lf ?ec ?lg];
  unfold same_settings in *; simpl in *.

(** The buffer is empty: the call raises and changes nothing. *)
Lemma fetching_function_empty self :
  prefetches (cls self) = true ->
  batches self = [] ->
  fetching_function self = (Raise StopIteration, self).
Proof.
  intros Hc Hb. unfold fetching_function, DataFetcher_fetching_function.
  rewrite Hb. by destruct (cls self).
Qed.

(** The refill pull succeeds. *)
Lemma fetching_function_refill self b bs it x tokens rest :
  prefetches (cls self) = true ->
  batches self = b :: bs ->
  done self = false ->
  dataloader_iter self = Some it ->
  remaining it = (x, tokens) :: rest ->
  exists self',
    fetching_function self = (Return (BatchIsLast (moved self b) false), self')
    /\ same_settings self self'
    /\ dataloader_iter self' = Some (pulled self it tokens rest)
    /\ fetched self' = fetched self + 1
    /\ done self' = false
    /\ batches self' = bs ++ [x]
    /\ events self' = drop (length (new_event self)) (events self ++ new_event self)
    /\ env_events_created self' = (env_events_created self + length (new_event self))%nat
    /\ env_log self' = env_log self ++ map EventRecord (new_event self)
         ++ map EventWait (take (length (new_event self)) (events self ++ new_event self)).
Proof.
  intros Hc Hb Hd Hit Hr.
  destruct (_fetch_next_batch_some (set_batches bs self) it x tokens rest)
    as (self1 & Hf & Hs & Hi & Hn & Hdn & Hbs & Hes & Hec & Hlg); [done..|].
  expose self. subst. expose self1. destruct Hs as (-> & -> & -> & -> & -> & -> & ->).
  subst.
  destruct c; try discriminate;
    unfold fetching_function, DataFetcher_fetching_function, bind, modify, wait,
      InterBatchParallelDataFetcher_wait, move_to_device, DataFetcher_move_to_device,
      try_except_StopIteration, moved, new_event, is_nil, ret in *;
    simpl in *; rewrite Hf; simpl.
  - rewrite !app_nil_r, Nat.add_0_r. destruct sod; simpl;
      (eexists; split; [by rewrite length_app, Nat.add_1_r|]); simpl; by repeat split.
  - destruct es as [|e es]; simpl; destruct sod; simpl;
      (eexists; split; [by rewrite length_app, Nat.add_1_r|]); simpl;
      rewrite <- ?app_assoc; by repeat split.
Qed.

(** The refill pull finds the source exhausted: [done] is set, the
    [StopIteration] of the pull is not passed on. *)
Lemma fetching_function_exhaust self b bs it :
  prefetches (cls self) = true ->
  batches self = b :: bs ->
  done self = false ->
  dataloader_iter self = Some it ->
  remaining it = [] ->
  (overlaps (cls self) = true -> events self <> []) ->
  exists self',
    fetching_function self = (Return (BatchIsLast (moved self b) (is_nil bs)), self')
    /\ same_settings self self'
    /\ dataloader_iter self' = Some it
    /\ fetched self' = fetched self
    /\ done self' = true
    /\ batches self' = bs
    /\ events self' = drop (length (new_event self)) (events self)
    /\ env_events_created self' = (env_events_created self + length (new_event self))%nat
    /\ env_log self' = env_log self
         ++ map EventWait (take (length (new_event self)) (events self)).
Proof.
  intros Hc Hb Hd Hit Hr Hev.
  destruct (_fetch_next_batch_none (set_batches bs self) it)
    as (self1 & Hf & Hs & Hi & Hn & Hdn & Hbs & Hes & Hec & Hlg); [done..|].
  expose self. subst. expose self1. destruct Hs as (-> & -> & -> & -> & -> & -> & ->).
  subst.
  destruct c; try discriminate;
    unfold fetching_function, DataFetcher_fetching_function, bind, modify, wait,
      InterBatchParallelDataFetcher_wait, move_to_device, DataFetcher_move_to_device,
      try_except_StopIteration, moved, new_event, is_nil, ret in *;
    simpl in *; rewrite Hf; simpl.
  - rewrite !app_nil_r, Nat.add_0_r. destruct sod; simpl;
      (eexists; split; [reflexivity|]); simpl; by repeat split.
  - destruct es as [|e es]; [by destruct Hev|]; simpl; destruct sod; simpl;
      (eexists; split; [reflexivity|]); simpl; by repeat split.
Qed.

(** [done] is already set: no pull is made. *)
Lemma fetching_function_drain self b bs :
  prefetches (cls self) = true ->
  batches self = b :: bs ->
  done self = true ->
  (overlaps (cls self) = true -> events self <> []) ->
  exists self',
    fetching_function self = (Return (BatchIsLast (moved self b) (is_nil bs)), self')
    /\ same_settings self self'
    /\ dataloader_iter self' = dataloader_iter self
    /\ fetched self' = fetched self
    /\ done self' = true
    /\ batches self' = bs
    /\ events self' = drop (length (new_event self)) (events self)
    /\ env_events_created self' = env_events_created self
    /\ env_log self' = env_log self
         ++ map EventWait (take (length (new_event self)) (events self)).
Proof.
  intros Hc Hb Hd Hev. expose self. subst.
  destruct c; try discriminate;
    unfold fetching_function, DataFetcher_fetching_function, bind, modify, wait,
      InterBatchParallelDataFetcher_wait, move_to_device, DataFetcher_move_to_device,
      moved, new_event, is_nil, ret in *;
    simpl in *.
  - rewrite !app_nil_r. destruct sod; simpl;
      (eexists; split; [reflexivity|]); simpl; by repeat split.
  - destruct es as [|e es]; [by destruct Hev|]; simpl; destruct sod; simpl;
      (eexists; split; [reflexivity|]); simpl; by repeat split.
Qed.


Lemma moved_same_settings self self' :
  same_settings self self' -> moved self' = moved self.
Proof.
  intros (_ & _ & _ & Hs & Hb & _). unfold moved. by rewrite Hs, Hb.
Qed.

Lemma recorded_app l1 l2 : recorded (l1 ++ l2) = recorded l1 ++ recorded l2.
Proof. apply omap_app. Qed.

Lemma waited_app l1 l2 : waited (l1 ++ l2) = waited l1 ++ waited l2.
Proof. apply omap_app. Qed.

Lemma recorded_EventRecord es : recorded (map EventRecord es) = es.
Proof. induction es; simpl; congruence. Qed.

Lemma recorded_EventWait es : recorded (map EventWait es) = [].
Proof. induction es; simpl; congruence. Qed.

Lemma waited_EventRecord es : waited (map EventRecord es) = [].
Proof. induction es; simpl; congruence. Qed.

Lemma waited_EventWait es : waited (map EventWait es) = es.
Proof. induction es; simpl; congruence. Qed.

Lemma new_event_overlaps self :
  overlaps (cls self) = true -> new_event self = [env_events_created self].
Proof. intros H. unfold new_event. by rewrite H. Qed.

Lemma new_event_same_settings self self' :
  same_settings self self' -> env_events_created self' = env_events_created self ->
  new_event self' = new_event self.
Proof. intros (Hc & _) He. unfold new_event. by rewrite Hc, He. Qed.

Lemma is_nil_nil {A} (l : list A) : is_nil l = true <-> l = [].
Proof. unfold is_nil. destruct l; simpl; split; intros; congruence. Qed.

(** One call of [next] with a batch pending hands that batch over, flagged
    as last exactly when nothing else is pending, and keeps the invariants. *)
Lemma buffering_next self b rest :
  buffering self (b :: rest) ->
  exists self',
    __next__ self = (Return (BatchIsLast (moved self b) (is_nil rest)), self')
    /\ buffering self' rest
    /\ same_settings self self'
    /\ (forall L, overlapping L self -> overlapping L self')
    /\ (rest = [] -> done self' = true).
Proof.
  intros (Hc & it & Hit & Hp & Hd & Hb & He).
  destruct (batches self) as [|b0 bs] eqn:Hbs.
  { rewrite (Hb eq_refl) in Hp. discriminate. }
  simpl in Hp. injection Hp as -> Hp.
  assert (Hev : overlaps (cls self) = true -> events self <> []).
  { intros Ho. specialize (He Ho). destruct (events self); [discriminate|done]. }
  unfold __next__. destruct (done self) eqn:Hdn.
  - (* drain *)
    destruct (fetching_function_drain self b bs)
      as (self' & Hf & Hs & Hi & Hn & Hdn' & Hbs' & Hes & Hec & Hlg); [done..|].
    rewrite (Hd eq_refl) in Hp. simpl in Hp. rewrite app_nil_r in Hp. subst rest.
    exists self'. split; [done|]. split; [|split; [done|split; [|intros _; exact Hdn']]].
    + split; [by rewrite (proj1 Hs)|]. exists it. rewrite Hi, Hbs', (Hd eq_refl).
      repeat split; try done. { simpl. by rewrite app_nil_r. }
      rewrite (proj1 Hs). intros Ho. rewrite Hes, length_drop, (He Ho).
      rewrite (new_event_overlaps _ Ho). simpl. lia.
    + intros L (Ho & it' & Hit' & Hw & Hrec & Hcr & HL).
      split; [by rewrite (proj1 Hs)|]. exists it'. rewrite Hi, Hlg, Hes, Hec.
      rewrite waited_app, recorded_app, waited_EventWait, recorded_EventWait, app_nil_r.
      repeat split; try done.
      by rewrite <- app_assoc, take_drop.
  - destruct (remaining it) as [|[x tokens] r] eqn:Hr.
    + (* exhaust *)
      destruct (fetching_function_exhaust self b bs it)
        as (self' & Hf & Hs & Hi & Hn & Hdn' & Hbs' & Hes & Hec & Hlg); [done..|].
      simpl in Hp. rewrite app_nil_r in Hp. subst rest.
      exists self'. split; [done|]. split; [|split; [done|split; [|intros _; exact Hdn']]].
      * split; [by rewrite (proj1 Hs)|]. exists it. rewrite Hi, Hbs', Hr.
        repeat split; try done. { simpl. by rewrite app_nil_r. }
        rewrite (proj1 Hs). intros Ho. rewrite Hes, length_drop, (He Ho).
        rewrite (new_event_overlaps _ Ho). simpl. lia.
      * intros L (Ho & it' & Hit' & Hw & Hrec & Hcr & HL).
        rewrite Hit in Hit'. injection Hit' as <-.
        split; [by rewrite (proj1 Hs)|]. exists it. rewrite Hi, Hlg, Hes.
        rewrite waited_app, recorded_app, waited_EventWait, recorded_EventWait, app_nil_r.
        repeat split; try done.
        by rewrite <- app_assoc, take_drop.
    + (* refill *)
      destruct (fetching_function_refill self b bs it x tokens r)
        as (self' & Hf & Hs & Hi & Hn & Hdn' & Hbs' & Hes & Hec & Hlg); [done..|].
      destruct (pulled_frame self it tokens r) as [Hpr Hpp].
      assert (is_nil rest = false) as ->.
      { subst rest. unfold is_nil. rewrite length_app. simpl. apply Nat.eqb_neq. lia. }
      exists self'. split; [done|]. split; [|split; [done|split; [|intros Hnil; rewrite Hnil in Hp; by destruct bs]]].
      * split; [by rewrite (proj1 Hs)|]. eexists. split; [exact Hi|].
        rewrite Hpr, Hbs', Hdn'. repeat split; try done.
        -- subst rest. simpl. by rewrite <- app_assoc.
        -- intros Hnil. by destruct bs.
        -- rewrite (proj1 Hs). intros Ho. rewrite Hes, length_drop, !length_app, (He Ho).
           rewrite (new_event_overlaps _ Ho). simpl. lia.
      * intros L (Ho & it' & Hit' & Hw & Hrec & Hcr & HL).
        rewrite Hit in Hit'. injection Hit' as <-.
        rewrite Hr in Hcr, HL. specialize (Hcr ltac:(done)).
        split; [by rewrite (proj1 Hs)|]. eexists. split; [exact Hi|].
        rewrite Hpr, Hlg, Hes, Hec, (new_event_overlaps _ Ho).
        rewrite !waited_app, !recorded_app, waited_EventWait, recorded_EventWait,
          waited_EventRecord, recorded_EventRecord, app_nil_r. simpl.
        repeat split.
        -- by rewrite <- app_assoc, take_drop, app_assoc, Hw.
        -- rewrite length_app. simpl. rewrite Nat.add_1_r, seq_S. simpl.
           by rewrite <- Hrec, Hcr.
        -- intros _. rewrite length_app. simpl. lia.
        -- rewrite length_app. simpl in *. lia.
Qed.

(** With nothing pending, [next] raises [StopIteration]. *)
Lemma buffering_end self :
  buffering self [] -> __next__ self = (Raise StopIteration, self).
Proof.
  intros (Hc & it & Hit & Hp & _). apply fetching_function_empty; [done|].
  by destruct (batches self).
Qed.


(** ** Prefetching *)

(** A pull made while prefetching keeps the numbering of the events. *)
Lemma overlapping_pull L self self' it x tokens rest :
  overlapping L self ->
  dataloader_iter self = Some it ->
  remaining it = (x, tokens) :: rest ->
  same_settings self self' ->
  dataloader_iter self' = Some (pulled self it tokens rest) ->
  events self' = events self ++ new_event self ->
  env_events_created self' = (env_events_created self + length (new_event self))%nat ->
  env_log self' = env_log self ++ map EventRecord (new_event self) ->
  overlapping L self'.
Proof.
  intros (Ho & it' & Hit' & Hw & Hrec & Hcr & HL) Hit Hr Hs Hi Hes Hec Hlg.
  rewrite Hit in Hit'. injection Hit' as <-.
  rewrite Hr in Hcr, HL. specialize (Hcr ltac:(done)).
  destruct (pulled_frame self it tokens rest) as [Hpr Hpp].
  split; [by rewrite (proj1 Hs)|]. eexists. split; [exact Hi|].
  rewrite Hpr, Hlg, Hes, Hec, (new_event_overlaps _ Ho).
  rewrite waited_app, recorded_app, waited_EventRecord, recorded_EventRecord, app_nil_r.
  simpl. repeat split.
  - by rewrite app_assoc, Hw.
  - rewrite length_app. simpl. rewrite Nat.add_1_r, seq_S. simpl.
    by rewrite <- Hrec, Hcr.
  - intros _. rewrite length_app. simpl. lia.
  - rewrite length_app. simpl in *. lia.
Qed.

(** The loop of [prefetching] pulls [n] batches, or as many as the source
    has, and ends silently. *)
Lemma prefetching_loop_spec n : forall self it,
  prefetches (cls self) = true ->
  dataloader_iter self = Some it ->
  exists self' it',
    prefetching_loop n self = (Return tt, self')
    /\ same_settings self self'
    /\ dataloader_iter self' = Some it'
    /\ remaining it' = drop n (remaining it)
    /\ patched it' = patched it
    /\ batches self' = batches self ++ map fst (take n (remaining it))
    /\ done self' = done self
    /\ (overlaps (cls self) = true ->
        length (events self') = (length (events self) + length (take n (remaining it)))%nat)
    /\ (forall L, overlapping L self -> overlapping L self').
Proof.
  induction n as [|n IH]; intros self it Hc Hit.
  - exists self, it. simpl. rewrite drop_0, app_nil_r.
    split_and!; done.
  - simpl. destruct (remaining it) as [|[x tokens] r] eqn:Hr.
    + destruct (_fetch_next_batch_none self it)
        as (self1 & Hf & Hs & Hi & Hn & Hdn & Hbs & Hes & Hec & Hlg); [done..|].
      rewrite Hf. exists self1, it. rewrite Hr, Hbs, Hes. simpl. rewrite app_nil_r.
      split_and!; try done.
      intros L (Ho & it' & Hit' & Hw & Hrec & Hcr & HL).
      rewrite Hit in Hit'. injection Hit' as <-.
      split; [by rewrite (proj1 Hs)|]. exists it. rewrite Hlg, Hes, Hr in *.
      by repeat split.
    + destruct (_fetch_next_batch_some self it x tokens r)
        as (self1 & Hf & Hs & Hi & Hn & Hdn & Hbs & Hes & Hec & Hlg); [done..|].
      rewrite Hf. destruct (pulled_frame self it tokens r) as [Hpr Hpp].
      destruct (IH self1 (pulled self it tokens r)) as
        (self' & it' & Hl & Hs' & Hi' & Hr' & Hp' & Hbs' & Hdn' & Hes' & Hov);
        [by rewrite (proj1 Hs)|done|].
      exists self', it'. rewrite Hl, Hr', Hp', Hbs', Hdn', Hpr, Hbs, Hpp. simpl.
      rewrite <- app_assoc. simpl. split_and!; try done.
      * by apply (same_settings_trans _ self1).
      * rewrite (proj1 Hs) in Hes'. intros Ho. rewrite (Hes' Ho), Hes, Hpr, length_app.
        rewrite (new_event_overlaps _ Ho). simpl. lia.
      * intros L HL. apply Hov. by eapply overlapping_pull.
Qed.


(** ** Entering a pass *)

Lemma __iter___entering self :
  __iter__ self = bind entering (fun _ => prefetching) self.
Proof.
  unfold __iter__, entering, bind.
  destruct (reset self) as [[[]|e1] s1]; [|done].
  destruct (_attach_data_fetcher s1) as [[[]|e2] s2]; [|done].
  destruct (modify (call PatchDataloaderGetIterators) s2) as [[[]|e3] s3]; [|done].
  destruct (dataloader s3) as [[d|e4] s4]; [|done].
  destruct (modify (fun self => set_dataloader_iter (Some (iter d self)) self) s4)
    as [[[]|e5] s5]; [|done].
  by destruct (_apply_patch s5) as [[[]|e6] s6].
Qed.

Lemma entering_entered self d :
  _dataloader self = Some d -> entering self = (Return tt, entered self d).
Proof.
  intros Hd. expose self. subst dl. destruct d as [kind items once].
  destruct c, kind, ft; vm_compute; reflexivity.
Qed.

Lemma entered_iter self d :
  exists it,
    dataloader_iter (entered self d) = Some it
    /\ remaining it = items_left self d
    /\ patched it = patches self d
    /\ cache_states it = None /\ state it = None /\ previous_state it = None.
Proof. eexists. split; [reflexivity|]. by destruct (patches self d). Qed.

(** A source that can be replayed, and one that was never pulled from,
    yield all their items. *)
Lemma items_left_replayed self d :
  loader_once d = None -> items_left self d = loader_items d.
Proof. intros Hk. unfold items_left. by rewrite Hk. Qed.

Lemma items_left_untouched self d :
  env_left self = ∅ -> items_left self d = loader_items d.
Proof.
  intros He. unfold items_left. destruct (loader_once d); [|done].
  by rewrite He, lookup_empty.
Qed.

Lemma entered_log self d :
  recorded (env_log (entered self d)) = recorded (env_log self)
  /\ waited (env_log (entered self d)) = waited (env_log self).
Proof.
  simpl. destruct (patches self d);
    rewrite ?recorded_app, ?waited_app; simpl; by rewrite ?app_nil_r.
Qed.

(** [__iter__] of a prefetching fetcher is the prologue followed by the
    loop of [prefetching]. *)
Lemma __iter___prefetching_loop self d :
  prefetches (cls self) = true ->
  _dataloader self = Some d ->
  __iter__ self
  = prefetching_loop (Z.to_nat (prefetch_batches self)) (entered self d).
Proof.
  intros Hc Hd. rewrite __iter___entering. unfold bind.
  rewrite (entering_entered _ _ Hd).
  unfold prefetching, DataFetcher_prefetching.
  change (cls (entered self d)) with (cls self).
  by destruct (cls self).
Qed.

Lemma __iter___prefetching self d :
  prefetches (cls self) = true ->
  _dataloader self = Some d ->
  1 <= prefetch_batches self ->
  (overlaps (cls self) = true -> events self = []) ->
  exists self',
    __iter__ self = (Return tt, self')
    /\ same_settings self self'
    /\ buffering self' (map fst (items_left self d))
    /\ (no_events self -> overlaps (cls self) = true ->
        overlapping (length (items_left self d)) self').
Proof.
  intros Hc Hd HD Hev.
  assert (Hn : exists k, Z.to_nat (prefetch_batches self) = S k)
    by (exists (Z.to_nat (prefetch_batches self - 1)); lia).
  destruct Hn as [k Hk].
  rewrite (__iter___prefetching_loop _ _ Hc Hd).
  destruct (entered_iter self d) as (it & Hit & Hr0 & _).
  destruct (entered_log self d) as [Hlr Hlw].
  destruct (prefetching_loop_spec (Z.to_nat (prefetch_batches self)) (entered self d) it
              Hc Hit)
    as (self' & it' & Hl & Hs & Hi & Hr & Hp & Hbs & Hdn & Hes & Hov).
  assert (Hs0 : same_settings self (entered self d)) by (by repeat split).
  change (cls (entered self d)) with (cls self) in Hes.
  change (events (entered self d)) with (events self) in Hes.
  change (done (entered self d)) with false in Hdn.
  change (batches (entered self d))
    with (if prefetches (cls self) then [] else batches self) in Hbs.
  rewrite Hc, Hr0 in Hbs. simpl in Hbs. rewrite Hr0 in *.
  exists self'. split; [done|]. split; [by apply (same_settings_trans _ (entered self d))|].
  split.
  - split; [by rewrite (proj1 Hs)|]. exists it'. rewrite Hr, Hbs, Hdn.
    split_and!; try done.
    + by rewrite <- map_app, take_drop.
    + rewrite Hk. destruct (items_left self d); [done|discriminate].
    + rewrite (proj1 Hs). intros Ho. rewrite (Hes Ho), (Hev Ho), length_map. simpl. lia.
  - intros (He' & Hrec & Hw & Hec) Ho. apply Hov. split; [done|].
    exists it. rewrite Hlr, Hlw, Hrec, Hw, Hr0.
    change (events (entered self d)) with (events self).
    change (env_events_created (entered self d)) with (env_events_created self).
    rewrite He', Hec. by split_and!.
Qed.

(** ** Driving a pass *)

(** With enough fuel the loop hands over all pending batches and ends on
    the first [StopIteration]. *)
Lemma drive_buffering pending : forall self fuel,
  buffering self pending ->
  (length pending < fuel)%nat ->
  exists self',
    drive fuel self = (pairs (moved self) pending, Some StopIteration, self')
    /\ buffering self' []
    /\ same_settings self self'
    /\ (forall L, overlapping L self -> overlapping L self')
    /\ (pending <> [] -> done self' = true).
Proof.
  induction pending as [|b rest IH]; intros self fuel Hb Hfuel.
  - destruct fuel as [|fuel]; [simpl in Hfuel; lia|]. simpl.
    rewrite (buffering_end _ Hb). exists self. split_and!; done.
  - destruct fuel as [|fuel]; [simpl in Hfuel; lia|]. simpl.
    destruct (buffering_next _ _ _ Hb) as (self1 & Hn & Hb1 & Hs1 & Ho1 & Hd1).
    rewrite Hn.
    destruct (IH self1 fuel Hb1) as (self' & Hd & Hb' & Hs' & Ho' & Hd');
      [simpl in Hfuel; lia|].
    rewrite Hd, (moved_same_settings _ _ Hs1). exists self'. split_and!; try done.
    + by apply (same_settings_trans _ self1).
    + intros L HL. by apply Ho', Ho1.
    + intros _. destruct rest as [|b' rest]; [|by apply Hd'].
      destruct fuel as [|fuel]; [simpl in Hfuel; lia|]. simpl in Hd.
      rewrite (buffering_end _ Hb1) in Hd. injection Hd as <-. by apply Hd1.
Qed.

(** With fuel for [k] calls only, the loop hands over the first [k] pending
    batches and is still running. *)
Lemma drive_buffering_partial pending : forall self k,
  buffering self pending ->
  (k <= length pending)%nat ->
  exists self',
    drive k self = (take k (pairs (moved self) pending), None, self')
    /\ buffering self' (drop k pending)
    /\ same_settings self self'
    /\ (forall L, overlapping L self -> overlapping L self')
    /\ (pending <> [] -> k = length pending -> done self' = true).
Proof.
  induction pending as [|b rest IH]; intros self k Hb Hk.
  - destruct k as [|k]; [|simpl in Hk; lia]. simpl.
    exists self. split_and!; done.
  - destruct k as [|k]; simpl.
    { exists self. split_and!; done. }
    destruct (buffering_next _ _ _ Hb) as (self1 & Hn & Hb1 & Hs1 & Ho1 & Hd1).
    rewrite Hn.
    destruct (IH self1 k Hb1) as (self' & Hd & Hb' & Hs' & Ho' & Hd');
      [simpl in Hk; lia|].
    rewrite Hd, (moved_same_settings _ _ Hs1). exists self'. split_and!; try done.
    + by apply (same_settings_trans _ self1).
    + intros L HL. by apply Ho', Ho1.
    + intros _ Hlen. injection Hlen as ->.
      destruct rest as [|b' rest]; [|by apply Hd'].
      simpl in Hd. injection Hd as <-. by apply Hd1.
Qed.


(** ** Construction and setup *)

Lemma new_DataFetcher_constructed ft D sod :
  1 <= D -> new_DataFetcher ft D sod = Return (constructed DataFetcher ft D sod).
Proof.
  intros HD. unfold new_DataFetcher, construct, DataFetcher__init__,
    AbstractDataFetcher__init__.
  destruct (D <? 1) eqn:H1; [lia|]. destruct (D <? 0) eqn:H0; [lia|]. reflexivity.
Qed.

Lemma new_InterBatchParallelDataFetcher_constructed ft D sod :
  1 <= D ->
  new_InterBatchParallelDataFetcher ft D sod
  = Return (constructed InterBatchParallelDataFetcher ft D sod).
Proof.
  intros HD. unfold new_InterBatchParallelDataFetcher, construct,
    InterBatchParallelDataFetcher__init__, DataFetcher__init__,
    AbstractDataFetcher__init__, bind.
  destruct (D <? 1) eqn:H1; [lia|]. destruct (D <? 0) eqn:H0; [lia|]. reflexivity.
Qed.

(** [setup] followed by [__iter__] on a new prefetching fetcher. *)
Lemma setup_constructed c ft D sod d b2d :
  prefetches c = true ->
  exists self1,
    setup d b2d (constructed c ft D sod) = (Return tt, self1)
    /\ cls self1 = c /\ prefetch_batches self1 = D /\ _dataloader self1 = Some d
    /\ env_fault_tolerant self1 = ft
    /\ moved self1 = placement sod b2d /\ no_events self1.
Proof.
  intros Hc. destruct d as [kind items once].
  destruct c; try discriminate; destruct kind; destruct b2d;
    (eexists; split; [reflexivity|]); by split_and!.
Qed.

(** A new fetcher has pulled from no source yet. *)
Lemma setup_constructed_untouched c ft D sod d b2d :
  env_left (snd (setup d b2d (constructed c ft D sod))) = ∅.
Proof. destruct d as [kind items once]. by destruct c, kind, b2d. Qed.

Lemma constructed_enter c ft D sod d b2d :
  prefetches c = true ->
  1 <= D ->
  exists self1 self2,
    setup d b2d (constructed c ft D sod) = (Return tt, self1)
    /\ __iter__ self1 = (Return tt, self2)
    /\ cls self2 = c
    /\ prefetch_batches self2 = D
    /\ _dataloader self2 = Some d
    /\ moved self2 = placement sod b2d
    /\ buffering self2 (map fst (loader_items d))
    /\ (overlaps c = true -> overlapping (length (loader_items d)) self2).
Proof.
  intros Hc HD.
  destruct (setup_constructed c ft D sod d b2d Hc)
    as (self1 & Hs & Hc1 & HD1 & Hd1 & Hft & Hm & Hne).
  pose proof (setup_constructed_untouched c ft D sod d b2d) as Hleft.
  rewrite Hs in Hleft. cbn [snd] in Hleft.
  destruct (__iter___prefetching self1 d) as (self2 & Hi & Hs2 & Hb & Ho);
    [by rewrite Hc1|done|lia| |].
  { intros _. apply Hne. }
  rewrite (items_left_untouched _ _ Hleft) in Hb, Ho.
  exists self1, self2. split_and!; try done.
  - by rewrite (proj1 Hs2).
  - destruct Hs2 as (_ & -> & _). done.
  - destruct Hs2 as (_ & _ & -> & _). done.
  - by rewrite (moved_same_settings _ _ Hs2).
  - intros Hov. apply Ho; [done|by rewrite Hc1].
Qed.


(** ** A whole pass of a new prefetching fetcher *)

Lemma pairs_length mv pending : length (pairs mv pending) = length pending.
Proof. induction pending; simpl; congruence. Qed.

Lemma pairs_lookup mv pending : forall i b,
  pending !! i = Some b ->
  pairs mv pending !! i = Some (BatchIsLast (mv b) (S i =? length pending)%nat).
Proof.
  induction pending as [|x rest IH]; intros i b Hi; [done|].
  destruct i as [|i]; simpl in *.
  - injection Hi as ->. unfold is_nil. by destruct rest.
  - by apply IH.
Qed.

Lemma consume_constructed c ft D sod d b2d fuel :
  prefetches c = true ->
  1 <= D ->
  (length (loader_items d) < fuel)%nat ->
  exists self',
    consume fuel d b2d (constructed c ft D sod)
    = (pairs (placement sod b2d) (map fst (loader_items d)), Some StopIteration, self')
    /\ buffering self' []
    /\ cls self' = c
    /\ (loader_items d <> [] -> done self' = true)
    /\ (overlaps c = true -> overlapping (length (loader_items d)) self').
Proof.
  intros Hc HD Hfuel.
  destruct (constructed_enter c ft D sod d b2d Hc HD)
    as (self1 & self2 & Hs & Hi & Hc2 & HD2 & Hdl & Hm & Hb & Ho).
  destruct (drive_buffering _ self2 fuel Hb) as (self' & Hd & Hb' & Hs' & Ho' & Hdn).
  { by rewrite length_map. }
  exists self'. unfold consume, for_loop. rewrite Hs, Hi, Hd, Hm.
  split_and!; try done.
  - by rewrite (proj1 Hs').
  - intros Hne. apply Hdn. by destruct (loader_items d).
  - intros Hov. by apply Ho', Ho.
Qed.

Lemma consume_constructed_partial c ft D sod d b2d k :
  prefetches c = true ->
  1 <= D ->
  (k <= length (loader_items d))%nat ->
  exists self',
    consume k d b2d (constructed c ft D sod)
    = (take k (pairs (placement sod b2d) (map fst (loader_items d))), None, self')
    /\ buffering self' (drop k (map fst (loader_items d)))
    /\ cls self' = c
    /\ prefetch_batches self' = D
    /\ (loader_items d <> [] -> k = length (loader_items d) -> done self' = true)
    /\ (overlaps c = true -> overlapping (length (loader_items d)) self').
Proof.
  intros Hc HD Hk.
  destruct (constructed_enter c ft D sod d b2d Hc HD)
    as (self1 & self2 & Hs & Hi & Hc2 & HD2 & Hdl & Hm & Hb & Ho).
  destruct (drive_buffering_partial _ self2 k Hb) as (self' & Hd & Hb' & Hs' & Ho' & Hdn).
  { by rewrite length_map. }
  exists self'. unfold consume, for_loop. rewrite Hs, Hi, Hd, Hm.
  split_and!; try done.
  - by rewrite (proj1 Hs').
  - destruct Hs' as (_ & -> & _). done.
  - intros Hne ->. apply Hdn; [by destruct (loader_items d)|by rewrite length_map].
  - intros Hov. by apply Ho', Ho.
Qed.

(** ** The claims about the prefetching fetchers *)

(** C1: for every look-ahead depth [D >= 1] and every source of [L]
    batches, a new [DataFetcher] driven to completion hands over exactly [L]
    [(batch, is_last)] pairs before [StopIteration], the [i]-th carrying the
    [i]-th batch of the source, and [is_last] is true on the final pair and
    false on every earlier one. *)
Theorem DataFetcher_hands_over_each_batch_and_flags_the_last
    (ft : bool) (D : Z) (sod : bool) (d : Dataloader)
    (b2d : option (Batch -> Batch)) (fuel : nat) :
  1 <= D ->
  (length (loader_items d) < fuel)%nat ->
  exists self0 outs self',
    new_DataFetcher ft D sod = Return self0
    /\ consume fuel d b2d self0 = (outs, Some StopIteration, self')
    /\ length outs = length (loader_items d)
    /\ forall i b,
         (fst <$> loader_items d) !! i = Some b ->
         outs !! i
         = Some (BatchIsLast (placement sod b2d b) (S i =? length (loader_items d))%nat).
Proof.
  intros HD Hfuel.
  destruct (consume_constructed DataFetcher ft D sod d b2d fuel eq_refl HD Hfuel)
    as (self' & Hc & _).
  exists (constructed DataFetcher ft D sod), (pairs (placement sod b2d) (fst <$> loader_items d)), self'.
  split_and!.
  - by apply new_DataFetcher_constructed.
  - exact Hc.
  - by rewrite pairs_length, length_fmap.
  - intros i b Hi. rewrite (pairs_lookup _ _ _ _ Hi). by rewrite length_fmap.
Qed.


(** C4: for every source and any two look-ahead depths [D1 >= 1] and
    [D2 >= 1], a [DataFetcher] of depth [D1] and one of depth [D2] hand over
    the same sequence of [(batch, is_last)] pairs and then raise
    [StopIteration]; for the source [[a; b; c]], depth 1 and depth 2 both
    give [(a, false)], [(b, false)], [(c, true)], then [StopIteration]. *)
Theorem DataFetcher_pairs_do_not_depend_on_the_depth
    (ft : bool) (D1 D2 : Z) (sod : bool) (d : Dataloader)
    (b2d : option (Batch -> Batch)) (fuel : nat) :
  1 <= D1 ->
  1 <= D2 ->
  (length (loader_items d) < fuel)%nat ->
  (exists self1 self2 outs end1 end2,
      new_DataFetcher ft D1 sod = Return self1
      /\ new_DataFetcher ft D2 sod = Return self2
      /\ consume fuel d b2d self1 = (outs, Some StopIteration, end1)
      /\ consume fuel d b2d self2 = (outs, Some StopIteration, end2))
  /\ (forall (a b c : Batch) ta tb tc kind once,
        let abc := {| loader_kind := kind; loader_items := [(a, ta); (b, tb); (c, tc)];
                      loader_once := once |} in
        exists self1 self2 end1 end2,
          new_DataFetcher ft 1 true = Return self1
          /\ new_DataFetcher ft 2 true = Return self2
          /\ consume 4 abc None self1
             = ([BatchIsLast a false; BatchIsLast b false; BatchIsLast c true],
                Some StopIteration, end1)
          /\ consume 4 abc None self2
             = ([BatchIsLast a false; BatchIsLast b false; BatchIsLast c true],
                Some StopIteration, end2)).
Proof.
  intros HD1 HD2 Hfuel. split.
  - destruct (consume_constructed DataFetcher ft D1 sod d b2d fuel eq_refl HD1 Hfuel)
      as (end1 & Hc1 & _).
    destruct (consume_constructed DataFetcher ft D2 sod d b2d fuel eq_refl HD2 Hfuel)
      as (end2 & Hc2 & _).
    eexists _, _, _, end1, end2. split_and!.
    + by apply new_DataFetcher_constructed.
    + by apply new_DataFetcher_constructed.
    + exact Hc1.
    + exact Hc2.
  - intros a b c ta tb tc kind once abc.
    destruct (consume_constructed DataFetcher ft 1 true abc None 4 eq_refl)
      as (end1 & Hc1 & _); [lia|simpl; lia|].
    destruct (consume_constructed DataFetcher ft 2 true abc None 4 eq_refl)
      as (end2 & Hc2 & _); [lia|simpl; lia|].
    eexists _, _, end1, end2. split_and!.
    + by apply new_DataFetcher_constructed.
    + by apply new_DataFetcher_constructed.
    + exact Hc1.
    + exact Hc2.
Qed.

(** C10: in overlap mode, starting from a new fetcher, after [prefetching]
    and after every call of [next] of the pass the list of events is as long
    as the buffer of batches; no call ends in the [IndexError] of a [wait]
    on an empty list. *)
Theorem InterBatchParallelDataFetcher_events_match_batches
    (ft : bool) (D : Z) (sod : bool) (d : Dataloader)
    (b2d : option (Batch -> Batch)) (fuel : nat) :
  1 <= D ->
  exists self0 outs e self',
    new_InterBatchParallelDataFetcher ft D sod = Return self0
    /\ consume fuel d b2d self0 = (outs, e, self')
    /\ length (events self') = length (batches self')
    /\ e <> Some IndexError
    /\ length outs = Nat.min fuel (length (loader_items d)).
Proof.
  intros HD. exists (constructed InterBatchParallelDataFetcher ft D sod).
  destruct (decide (fuel <= length (loader_items d))%nat) as [Hk|Hk].
  - destruct (consume_constructed_partial InterBatchParallelDataFetcher ft D sod d b2d fuel
                eq_refl HD Hk) as (self' & Hc & Hb & Hcl & _ & _ & Ho).
    destruct Hb as (_ & it & _ & _ & _ & _ & He).
    eexists _, None, self'. split_and!; try done.
    + by apply new_InterBatchParallelDataFetcher_constructed.
    + apply He. by rewrite Hcl.
    + rewrite length_take, pairs_length, length_fmap. lia.
  - destruct (consume_constructed InterBatchParallelDataFetcher ft D sod d b2d fuel
                eq_refl HD) as (self' & Hc & Hb & Hcl & _ & Ho); [lia|].
    destruct Hb as (_ & it & _ & _ & _ & _ & He).
    eexists _, (Some StopIteration), self'. split_and!; try done.
    + by apply new_InterBatchParallelDataFetcher_constructed.
    + apply He. by rewrite Hcl.
    + rewrite pairs_length, length_fmap. lia.
Qed.


(** ** Caller-driven mode *)

Lemma StepFuncDataLoaderIter__next___some items P self x tokens :
  caller_driven items P self ->
  items !! P = Some (x, tokens) ->
  exists self',
    StepFuncDataLoaderIter__next__ self = (Return x, self')
    /\ caller_driven items (S P) self'.
Proof.
  intros (Hc & Hw & Hdn & Hn & it & Hit & Hr) Hx.
  assert (Hr' : remaining it = (x, tokens) :: drop (S P) items).
  { rewrite Hr. by apply drop_S. }
  unfold StepFuncDataLoaderIter__next__, next_dataloader_iter.
  rewrite Hit, (next__some _ _ _ _ _ Hr'). eexists. split; [reflexivity|].
  destruct (pulled_frame self it tokens (drop (S P) items)) as [Hpr _].
  unfold caller_driven, pulled_from. destruct (iterator_id _); simpl;
    (split_and!; try done; [lia|]); by eexists.
Qed.

Lemma StepFuncDataLoaderIter__next___none items P self :
  caller_driven items P self ->
  (length items <= P)%nat ->
  exists self',
    StepFuncDataLoaderIter__next__ self = (Raise StopIteration, self')
    /\ done self' = true
    /\ fetched self' = fetched self
    /\ cls self' = DataLoaderIterDataFetcher.
Proof.
  intros (Hc & Hw & Hdn & Hn & it & Hit & Hr) HP.
  rewrite drop_ge in Hr by done.
  unfold StepFuncDataLoaderIter__next__, next_dataloader_iter.
  rewrite Hit, (next__none _ _ Hr). eexists. split; [reflexivity|].
  unfold pulled_from. by destruct (iterator_id _).
Qed.

Lemma pulls_caller_driven items k : forall P self,
  caller_driven items P self ->
  (P + k <= length items)%nat ->
  exists self',
    pulls k self = (Return <$> take k (drop P (fst <$> items)), self')
    /\ caller_driven items (P + k) self'.
Proof.
  induction k as [|k IH]; intros P self Hcd Hk.
  - exists self. simpl. by rewrite Nat.add_0_r.
  - destruct (lookup_lt_is_Some_2 items P) as [[x tokens] Hx]; [lia|].
    destruct (StepFuncDataLoaderIter__next___some _ _ _ _ _ Hcd Hx) as (self1 & Hn & Hcd1).
    destruct (IH (S P) self1 Hcd1) as (self' & Hp & Hcd'); [lia|].
    exists self'. simpl. rewrite Hn, Hp. split.
    + f_equal. rewrite (drop_S (fst <$> items) x P); [|by rewrite list_lookup_fmap, Hx].
      done.
    + by rewrite <- Nat.add_succ_comm.
Qed.

Lemma new_DataLoaderIterDataFetcher_constructed ft :
  new_DataLoaderIterDataFetcher ft
  = Return (constructed DataLoaderIterDataFetcher ft 0 false).
Proof. reflexivity. Qed.

Lemma constructed_enter_caller_driven ft d b2d :
  exists self1 self2,
    setup d b2d (constructed DataLoaderIterDataFetcher ft 0 false) = (Return tt, self1)
    /\ __iter__ self1 = (Return tt, self2)
    /\ caller_driven (loader_items d) 0 self2.
Proof.
  destruct d as [kind items once].
  destruct kind, once, ft;
    (eexists _, _; split; [vm_compute; reflexivity|]);
    (split; [vm_compute; reflexivity|]); unfold caller_driven; simpl;
    split_and!; try done; by eexists.
Qed.

Lemma pulls_app a : forall b self,
  pulls (a + b) self
  = (fst (pulls a self) ++ fst (pulls b (snd (pulls a self))),
     snd (pulls b (snd (pulls a self)))).
Proof.
  induction a as [|a IH]; intros b self; simpl.
  - by destruct (pulls b self).
  - destruct (StepFuncDataLoaderIter__next__ self) as [r self1].
    rewrite IH. by destruct (pulls a self1).
Qed.

Lemma pulls_exhausted L j : forall self it,
  dataloader_iter self = Some it ->
  remaining it = [] ->
  fetched self = L ->
  exists self',
    pulls j self = (replicate j (Raise StopIteration), self')
    /\ fetched self' = L
    /\ cls self' = cls self
    /\ (j <> 0%nat -> done self' = true)
    /\ (j = 0%nat -> self' = self).
Proof.
  induction j as [|j IH]; intros self it Hit Hr Hf.
  - by exists self.
  - simpl. unfold StepFuncDataLoaderIter__next__, next_dataloader_iter.
    rewrite Hit, (next__none _ _ Hr).
    destruct (IH (set_done true (set_dataloader_iter (Some it) (pulled_from it self))) it)
      as (self' & Hp & Hf' & Hc' & Hd' & Hz);
      [done|done|unfold pulled_from; by destruct (iterator_id it)|].
    rewrite Hp. exists self'. split_and!; try done.
    + rewrite Hc'. unfold pulled_from. by destruct (iterator_id it).
    + intros _. destruct j; [by rewrite (Hz eq_refl)|by apply Hd'].
Qed.

(** ** The end-of-data signal *)

(** In caller-driven mode [fetching_function] pulls nothing and changes
    nothing: as long as the consumer does not pull, every call of [next]
    returns the same triple. *)
Lemma fetching_function_caller_driven items P self :
  caller_driven items P self ->
  fetching_function self
  = (Return (IterAndDone (Z.of_nat P) StepFuncWrapper false), self).
Proof.
  intros (Hc & Hw & Hdn & Hn & _).
  unfold fetching_function, DataLoaderIterDataFetcher_fetching_function.
  by rewrite Hc, Hdn, Hw, Hn.
Qed.

Lemma drive_caller_driven items P self fuel :
  caller_driven items P self ->
  drive fuel self
  = (replicate fuel (IterAndDone (Z.of_nat P) StepFuncWrapper false), None, self).
Proof.
  intros Hcd. pose proof (fetching_function_caller_driven _ _ _ Hcd) as Hf.
  induction fuel as [|fuel IH]; [done|]. simpl. unfold __next__. by rewrite Hf, IH.
Qed.

(** Once [done] is set, [fetching_function] of the caller-driven fetcher
    raises and changes nothing. *)
Lemma drive_done self fuel :
  cls self = DataLoaderIterDataFetcher ->
  done self = true ->
  fetching_function self = (Raise StopIteration, self)
  /\ drive (S fuel) self = ([], Some StopIteration, self).
Proof.
  intros Hc Hd.
  assert (Hf : fetching_function self = (Raise StopIteration, self)).
  { unfold fetching_function, DataLoaderIterDataFetcher_fetching_function.
    by rewrite Hc, Hd. }
  split; [done|]. simpl. unfold __next__. by rewrite Hf.
Qed.

(** C5, as the code has it: a [DataFetcher] never raises [StopIteration]
    before the end: each of the first [L] calls of a pass returns, also the
    one whose refill pull found the source exhausted (it sets [done] and
    keeps the exception to itself); call [L + 1] raises, which ends a [for]
    loop after exactly [L] batches, and every call after it raises again.
    In caller-driven mode [fetching_function] pulls nothing: after [k <= L]
    pulls of the consumer through the wrapper it returns
    [(k, (wrapper, false))], however often it is called, and it raises
    [StopIteration] once the consumer has made more than [L] pulls, the
    pull that found the source exhausted having set [done]; in any state it
    raises [StopIteration] exactly when [done] is set and changes
    nothing. *)
Theorem fetching_function_raises_StopIteration_at_the_end_only
    (ft : bool) (D : Z) (sod : bool) (d : Dataloader) (b2d : option (Batch -> Batch)) :
  1 <= D ->
  (exists self0,
      new_DataFetcher ft D sod = Return self0
      /\ (forall k, (k <= length (loader_items d))%nat ->
          exists outs self',
            consume k d b2d self0 = (outs, None, self')
            /\ length outs = k
            /\ (k = length (loader_items d) -> loader_items d <> [] -> done self' = true))
      /\ (forall fuel more, (length (loader_items d) < fuel)%nat ->
          exists outs self',
            consume fuel d b2d self0 = (outs, Some StopIteration, self')
            /\ length outs = length (loader_items d)
            /\ drive (S more) self' = ([], Some StopIteration, self')))
  /\ (exists self0 self1 self2,
        new_DataLoaderIterDataFetcher ft = Return self0
        /\ setup d b2d self0 = (Return tt, self1)
        /\ __iter__ self1 = (Return tt, self2)
        /\ forall k, exists rs self3,
             pulls k self2 = (rs, self3)
             /\ ((k <= length (loader_items d))%nat ->
                 rs = Return <$> take k (fst <$> loader_items d)
                 /\ fetching_function self3
                    = (Return (IterAndDone (Z.of_nat k) StepFuncWrapper false), self3)
                 /\ forall fuel,
                      drive fuel self3
                      = (replicate fuel (IterAndDone (Z.of_nat k) StepFuncWrapper false),
                         None, self3))
             /\ ((length (loader_items d) < k)%nat ->
                 rs = (Return <$> (fst <$> loader_items d))
                      ++ replicate (k - length (loader_items d)) (Raise StopIteration)
                 /\ done self3 = true
                 /\ fetching_function self3 = (Raise StopIteration, self3)
                 /\ forall fuel, drive (S fuel) self3 = ([], Some StopIteration, self3)))
  /\ (forall self,
        cls self = DataLoaderIterDataFetcher ->
        (fst (fetching_function self) = Raise StopIteration <-> done self = true)
        /\ snd (fetching_function self) = self).
Proof.
  intros HD. split_and!.
  - exists (constructed DataFetcher ft D sod). split_and!.
    + by apply new_DataFetcher_constructed.
    + intros k Hk.
      destruct (consume_constructed_partial DataFetcher ft D sod d b2d k eq_refl HD Hk)
        as (self' & Hc & _ & _ & _ & Hdn & _).
      eexists _, self'. split_and!; [exact Hc| |by auto].
      rewrite length_take, pairs_length, length_fmap. lia.
    + intros fuel more Hfuel.
      destruct (consume_constructed DataFetcher ft D sod d b2d fuel eq_refl HD Hfuel)
        as (self' & Hc & Hb & _).
      eexists _, self'. split_and!; [exact Hc|by rewrite pairs_length, length_fmap|].
      simpl. by rewrite (buffering_end _ Hb).
  - destruct (constructed_enter_caller_driven ft d b2d) as (self1 & self2 & Hs & Hi & Hcd).
    exists (constructed DataLoaderIterDataFetcher ft 0 false), self1, self2.
    split_and!; try done. intros k.
    destruct (decide (k <= length (loader_items d))%nat) as [Hk|Hk].
    + destruct (pulls_caller_driven _ k 0 self2 Hcd) as (self3 & Hp & Hcd3); [lia|].
      simpl in Hcd3. rewrite drop_0 in Hp. eexists _, self3. split; [exact Hp|].
      split; [|lia]. intros _. split; [done|].
      split; [|intros fuel; by apply (drive_caller_driven (loader_items d))].
      by apply (fetching_function_caller_driven (loader_items d)).
    + destruct (pulls_caller_driven _ (length (loader_items d)) 0 self2 Hcd)
        as (selfL & Hp & HcdL); [lia|].
      simpl in HcdL. rewrite drop_0, take_ge in Hp by (by rewrite length_fmap).
      destruct HcdL as (Hc & Hw & Hdn & Hn & it & Hit & Hr).
      rewrite drop_ge in Hr by done.
      destruct (pulls_exhausted (Z.of_nat (length (loader_items d)))
                  (k - length (loader_items d)) selfL it)
        as (self3 & Hp3 & Hf3 & Hc3 & Hd3 & _); [done..|].
      pose proof (pulls_app (length (loader_items d)) (k - length (loader_items d)) self2)
        as Hpa.
      replace (length (loader_items d) + (k - length (loader_items d)))%nat with k in Hpa
        by lia.
      rewrite Hp in Hpa. simpl in Hpa. rewrite Hp3 in Hpa. simpl in Hpa.
      eexists _, self3. split; [exact Hpa|].
      split; [lia|]. intros _. split; [done|].
      assert (Hd : done self3 = true) by (apply Hd3; lia).
      split; [done|]. split.
      * by apply (drive_done self3 0); [rewrite Hc3|].
      * intros fuel. by apply drive_done; [rewrite Hc3|].
  - intros self Hc. unfold fetching_function, DataLoaderIterDataFetcher_fetching_function.
    rewrite Hc. destruct (done self); simpl; [done|].
    destruct (iterator self); simpl; split; try done; split; discriminate.
Qed.

(** ** The wrapper counts the pulls *)

(** C6: in caller-driven mode over a source of [L] batches, as long as
    [done] is false [fetching_function] returns
    [(fetched, (wrapper, done))]; each of the first [L] pulls through the
    wrapper returns the next batch and adds one to [fetched]; the pull
    after them raises [StopIteration] and sets [done], and from then on
    [fetching_function] raises [StopIteration]. *)
Theorem DataLoaderIterDataFetcher_counts_pulls_and_stops
    (ft : bool) (d : Dataloader) (b2d : option (Batch -> Batch)) (k : nat) :
  (k <= length (loader_items d))%nat ->
  exists self0 self1 self2 self3,
    new_DataLoaderIterDataFetcher ft = Return self0
    /\ setup d b2d self0 = (Return tt, self1)
    /\ __iter__ self1 = (Return tt, self2)
    /\ pulls k self2 = (Return <$> take k (fst <$> loader_items d), self3)
    /\ fetched self3 = Z.of_nat k
    /\ done self3 = false
    /\ fetching_function self3
       = (Return (IterAndDone (Z.of_nat k) StepFuncWrapper false), self3)
    /\ (k = length (loader_items d) ->
        exists self4,
          StepFuncDataLoaderIter__next__ self3 = (Raise StopIteration, self4)
          /\ done self4 = true
          /\ fetched self4 = Z.of_nat (length (loader_items d))
          /\ fetching_function self4 = (Raise StopIteration, self4)).
Proof.
  intros Hk.
  destruct (constructed_enter_caller_driven ft d b2d) as (self1 & self2 & Hs & Hi & Hcd).
  destruct (pulls_caller_driven _ k 0 self2 Hcd) as (self3 & Hp & Hcd3); [lia|].
  simpl in Hcd3. rewrite drop_0 in Hp.
  exists (constructed DataLoaderIterDataFetcher ft 0 false), self1, self2, self3.
  pose proof Hcd3 as (Hc & Hw & Hdn & Hn & it & Hit & Hr).
  split_and!; try done.
  - unfold fetching_function, DataLoaderIterDataFetcher_fetching_function.
    by rewrite Hc, Hdn, Hw, Hn.
  - intros ->.
    destruct (StepFuncDataLoaderIter__next___none _ _ _ Hcd3) as (self4 & Hn4 & Hd4 & Hf4 & Hc4);
      [done|].
    exists self4. split_and!; try done; [congruence|].
    unfold fetching_function, DataLoaderIterDataFetcher_fetching_function.
    by rewrite Hc4, Hd4.
Qed.

(** ** Construction *)

(** C7: [AbstractDataFetcher.__init__] raises [MisconfigurationException]
    for a depth below 0 and succeeds for every depth from 0 on; constructing
    a [DataFetcher] or an [InterBatchParallelDataFetcher] raises it for a
    depth below 1 and succeeds for every depth from 1 on. *)
Theorem construction_checks_the_depth (c : FetcherClass) (ft : bool) (D : Z) (sod : bool) :
  (D < 0 ->
   fst (AbstractDataFetcher__init__ D (blank c ft)) = Raise MisconfigurationException)
  /\ (0 <= D ->
      fst (AbstractDataFetcher__init__ D (blank c ft)) = Return tt
      /\ prefetch_batches (snd (AbstractDataFetcher__init__ D (blank c ft))) = D)
  /\ (D < 1 ->
      new_DataFetcher ft D sod = Raise MisconfigurationException
      /\ new_InterBatchParallelDataFetcher ft D sod = Raise MisconfigurationException)
  /\ (1 <= D ->
      exists self1 self2,
        new_DataFetcher ft D sod = Return self1
        /\ prefetch_batches self1 = D
        /\ new_InterBatchParallelDataFetcher ft D sod = Return self2
        /\ prefetch_batches self2 = D).
Proof.
  split_and!.
  - intros HD. unfold AbstractDataFetcher__init__. by destruct (D <? 0) eqn:H0; [|lia].
  - intros HD. unfold AbstractDataFetcher__init__. by destruct (D <? 0) eqn:H0; [lia|].
  - intros HD. unfold new_DataFetcher, new_InterBatchParallelDataFetcher, construct,
      InterBatchParallelDataFetcher__init__, DataFetcher__init__, bind.
    by destruct (D <? 1) eqn:H1; [|lia].
  - intros HD. eexists _, _.
    rewrite new_DataFetcher_constructed, new_InterBatchParallelDataFetcher_constructed by done.
    done.
Qed.

(** ** The end of a pass *)

Lemma teardown_not_set_up self :
  _dataloader self = None ->
  exists self',
    teardown self = (Raise MisconfigurationException, self')
    /\ fetched self' = 0 /\ done self' = false.
Proof.
  intros Hd. expose self. subst dl.
  destruct c; unfold teardown, reset, DataFetcher_reset, AbstractDataFetcher_reset,
    dataloader, modify, ret, bind; simpl; by eexists.
Qed.

(** C8, as the code has it: [teardown] is safe at any point once a source
    is set up (between passes or with batches still buffered in the middle
    of one): it resets the counters (and the buffer of a prefetching
    fetcher), sets [dataloader_iter] to [None], asks a [CombinedLoader] to
    reset and a [DataLoader] to shut its workers down and reset its
    iterator, and (a source that is neither is asked nothing) ends with
    [_teardown_dataloader_get_iterators]; before [setup] it resets the
    counters and raises [MisconfigurationException]. *)
Theorem teardown_is_safe_once_set_up (self : Fetcher) (d : Dataloader) :
  _dataloader self = Some d ->
  (exists self',
      teardown self = (Return tt, self')
      /\ fetched self' = 0
      /\ done self' = false
      /\ dataloader_iter self' = None
      /\ (prefetches (cls self) = true -> batches self' = [])
      /\ env_log self'
         = env_log self ++ teardown_calls (loader_kind d) ++ [TeardownDataloaderGetIterators])
  /\ (forall self0 : Fetcher,
        _dataloader self0 = None ->
        exists self',
          teardown self0 = (Raise MisconfigurationException, self')
          /\ fetched self' = 0 /\ done self' = false).
Proof.
  intros Hd. split; [|by apply teardown_not_set_up].
  expose self. subst dl.
  destruct c; destruct (loader_kind d) eqn:Hk;
    unfold teardown, reset, DataFetcher_reset, AbstractDataFetcher_reset,
      dataloader, modify, ret, bind; simpl; repeat (rewrite Hk; simpl);
    (eexists; split; [reflexivity|]); simpl; rewrite <- ?app_assoc; by split_and!.
Qed.

(** ** Reset *)

Lemma prefetching_loop_events n : forall self it,
  prefetches (cls self) = true ->
  dataloader_iter self = Some it ->
  exists new, events (snd (prefetching_loop n self)) = events self ++ new.
Proof.
  induction n as [|n IH]; intros self it Hc Hit; simpl.
  - exists []. by rewrite app_nil_r.
  - destruct (remaining it) as [|[x tokens] r] eqn:Hr.
    + destruct (_fetch_next_batch_none self it)
        as (self1 & Hf & Hs & Hi & Hn & Hdn & Hbs & Hes & Hec & Hlg); [done..|].
      rewrite Hf. simpl. exists []. by rewrite app_nil_r.
    + destruct (_fetch_next_batch_some self it x tokens r)
        as (self1 & Hf & Hs & Hi & Hn & Hdn & Hbs & Hes & Hec & Hlg); [done..|].
      rewrite Hf. destruct (IH self1 _ ltac:(by rewrite (proj1 Hs)) Hi) as [new Hnew].
      rewrite Hnew, Hes, <- app_assoc. by eexists.
Qed.

(** C9: [reset] of a [DataFetcher] sets [fetched] to 0, [done] to false and
    empties the buffer of batches; [reset] of an
    [InterBatchParallelDataFetcher] does the same and leaves the list of
    events as it is, so that the events not waited for at that time are
    still at the front of the list when the next pass has prefetched. *)
Theorem reset_leaves_the_events (self : Fetcher) (d : Dataloader) :
  _dataloader self = Some d ->
  (cls self = DataFetcher ->
   exists self',
     reset self = (Return tt, self')
     /\ fetched self' = 0 /\ done self' = false /\ batches self' = [])
  /\ (cls self = InterBatchParallelDataFetcher ->
      (exists self',
          reset self = (Return tt, self')
          /\ fetched self' = 0 /\ done self' = false /\ batches self' = []
          /\ events self' = events self)
      /\ exists new, events (snd (__iter__ self)) = events self ++ new).
Proof.
  intros Hd. split; [|intros Hc; split].
  - intros Hc. expose self. subst. by eexists.
  - expose self. subst. by eexists.
  - rewrite (__iter___prefetching_loop _ d) by (by rewrite ?Hc).
    destruct (entered_iter self d) as (it & Hit & _).
    apply (prefetching_loop_events _ (entered self d) it); [|done].
    change (cls (entered self d)) with (cls self). by rewrite Hc.
Qed.

(** ** Progress tokens along a pass *)

(** What one store of a single token does. *)
Lemma _store_dataloader_iter_state_single self it t :
  _store_dataloader_iter_state self it [t]
  = (Return tt,
     let cache := default ∅ (cache_states it) in
     let st := default ∅ (state it) in
     let queue := buffered cache (name t) ++ [t] in
     if prefetch_batches self <=? fetched self then
       set_merge (<[name t := tail queue]> cache)
         (MergedIteratorState_update (name t) (hd t queue) st)
         (if (0 <? MergedIteratorState_len st)%nat then Some st else previous_state it) it
     else set_merge (<[name t := queue]> cache) st (previous_state it) it).
Proof.
  unfold _store_dataloader_iter_state, buffered. simpl. unfold buffer_state.
  destruct (prefetch_batches self <=? fetched self); [|done]. simpl.
  rewrite lookup_insert_eq.
  destruct (default [] (default ∅ (cache_states it) !! name t)) as [|s q]; simpl;
    by rewrite insert_insert_eq.
Qed.

Lemma reflects_S n toks j t : toks !! j = Some t -> reflects n toks (S j) = {[n := t]}.
Proof. intros H. simpl. by rewrite H. Qed.

Lemma pulled_merge_attrs D n toks P self it t rest :
  prefetch_batches self = Z.of_nat D ->
  fetched self = Z.of_nat P ->
  patched it = true ->
  toks !! P = Some t ->
  name t = n ->
  merge_attrs D n toks P it ->
  merge_attrs D n toks (S P) (pulled self it [t] rest).
Proof.
  intros HD HP Hp Ht Hn (Hc & Hs & Hv).
  assert (HPl : (P < length toks)%nat) by (by eapply lookup_lt_Some).
  unfold pulled. rewrite Hp, _store_dataloader_iter_state_single. simpl.
  rewrite HD, HP, Hn.
  assert (Hq : buffered (default ∅ (cache_states it)) n ++ [t]
               = drop (P - D) (take (S P) toks)).
  { rewrite (take_S_r _ _ _ Ht), drop_app_le by (rewrite length_take; lia).
    f_equal. rewrite Hc. unfold buffered. destruct P; simpl.
    - by rewrite lookup_empty.
    - by rewrite lookup_singleton_eq. }
  assert (Hi : forall q : list IteratorState,
             <[n := q]> (default ∅ (cache_states it)) = {[n := q]}).
  { intros q. rewrite Hc. destruct P; simpl.
    - apply insert_empty.
    - apply insert_singleton_eq. }
  rewrite Hq. destruct (Z.of_nat D <=? Z.of_nat P) eqn:Hle.
  - apply Z.leb_le in Hle.
    destruct (lookup_lt_is_Some_2 toks (P - D)) as [t0 Ht0]; [lia|].
    assert (Hd : drop (P - D) (take (S P) toks)
                 = t0 :: drop (S P - D) (take (S P) toks)).
    { replace (S P - D)%nat with (S (P - D)) by lia. apply drop_S.
      rewrite lookup_take_lt by lia. done. }
    rewrite Hd. unfold merge_attrs. simpl cache_states. simpl state.
    simpl previous_state. simpl hd. simpl tail. rewrite Hi.
    replace (S P - D)%nat with (S (P - D)) by lia.
    rewrite (reflects_S _ _ _ _ Ht0). split_and!; [done| |].
    + f_equal. unfold MergedIteratorState_update. rewrite Hs.
      destruct P as [|P']; simpl; [apply insert_empty|].
      destruct (S P' - D)%nat as [|j] eqn:Hj; simpl; [apply insert_empty|].
      destruct (toks !! j); [apply insert_singleton_eq|apply insert_empty].
    + rewrite Hs, Hv. unfold MergedIteratorState_len.
      destruct (P - D)%nat as [|j] eqn:Hj.
      * destruct P; simpl; by rewrite map_size_empty.
      * destruct P as [|P']; [lia|]. simpl default.
        destruct (lookup_lt_is_Some_2 toks j) as [tj Htj]; [lia|].
        rewrite Htj, map_size_singleton. simpl. by rewrite Htj.
  - apply Z.leb_gt in Hle. unfold merge_attrs. simpl cache_states. simpl state.
    simpl previous_state. rewrite Hi, Hv.
    replace (S P - D)%nat with 0%nat by lia. replace (P - D)%nat with 0%nat by lia.
    split_and!; try done. rewrite Hs.
    destruct P as [|P']; simpl; [done|]. by replace (S P' - D)%nat with 0%nat by lia.
Qed.

Lemma one_token_each_lookup n l P x tokens :
  one_token_each n l !! P = Some (x, tokens) ->
  exists t, tokens = [t] /\ name t = n /\ tokens_of n l !! P = Some t.
Proof.
  unfold one_token_each, tokens_of. rewrite !list_lookup_fmap.
  destruct (l !! P) as [[b pos]|]; simpl; [|done].
  intros [= <- <-]. by eexists.
Qed.

Lemma tracking_pulled D n l P self self' it x tokens rest :
  tracking D n l P self ->
  dataloader_iter self = Some it ->
  remaining it = (x, tokens) :: rest ->
  same_settings self self' ->
  dataloader_iter self' = Some (pulled self it tokens rest) ->
  fetched self' = fetched self + 1 ->
  tracking D n l (S P) self'.
Proof.
  intros (HD & HP & HPl & it' & Hit' & Hp & Hr & Hm) Hit Hr' Hs Hi Hf.
  rewrite Hit in Hit'. injection Hit' as <-.
  assert (Hx : one_token_each n l !! P = Some (x, tokens)).
  { rewrite <- (Nat.add_0_r P), <- lookup_drop, <- Hr, Hr'. done. }
  assert (HPlt : (P < length l)%nat).
  { apply lookup_lt_Some in Hx. unfold one_token_each in Hx.
    by rewrite length_fmap in Hx. }
  assert (Hrest : rest = drop (S P) (one_token_each n l)).
  { rewrite (drop_S _ _ _ Hx) in Hr. congruence. }
  destruct (one_token_each_lookup _ _ _ _ _ Hx) as (t & -> & Hn & Ht).
  destruct (pulled_frame self it [t] rest) as [Hpr Hpp].
  split_and!.
  - destruct Hs as (_ & -> & _). done.
  - rewrite Hf, HP. lia.
  - lia.
  - eexists. split; [exact Hi|]. split_and!.
    + by rewrite Hpp.
    + by rewrite Hpr.
    + by apply pulled_merge_attrs.
Qed.

Lemma tracking_kept D n l P self self' :
  tracking D n l P self ->
  same_settings self self' ->
  dataloader_iter self' = dataloader_iter self ->
  fetched self' = fetched self ->
  tracking D n l P self'.
Proof.
  intros (HD & HP & HPl & Hit) Hs Hi Hf. unfold tracking.
  rewrite Hi, Hf. destruct Hs as (_ & -> & _). done.
Qed.

Lemma tracking_exhausted D n l P self it :
  tracking D n l P self ->
  dataloader_iter self = Some it ->
  remaining it = [] ->
  P = length l.
Proof.
  intros (HD & HP & HPl & it' & Hit' & Hp & Hr & Hm) Hit Hr'.
  rewrite Hit in Hit'. injection Hit' as <-.
  rewrite Hr' in Hr. apply (f_equal length) in Hr.
  rewrite length_drop in Hr. unfold one_token_each in Hr.
  rewrite length_fmap in Hr. simpl in Hr. lia.
Qed.

Lemma prefetching_loop_tracking D n l k : forall self P,
  prefetches (cls self) = true ->
  tracking D n l P self ->
  tracking D n l (Nat.min (P + k) (length l)) (snd (prefetching_loop k self)).
Proof.
  induction k as [|k IH]; intros self P Hc Ht; simpl.
  - rewrite Nat.add_0_r, Nat.min_l; [done|]. by destruct Ht as (_ & _ & ? & _).
  - pose proof Ht as (_ & _ & HPl & it & Hit & _ & _ & _).
    destruct (remaining it) as [|[x tokens] r] eqn:Hr.
    + destruct (_fetch_next_batch_none self it)
        as (self1 & Hf & Hs & Hi & Hn & _); [done..|].
      rewrite Hf. cbn [snd].
      pose proof (tracking_exhausted _ _ _ _ _ _ Ht Hit Hr) as ->.
      rewrite Nat.min_r by lia. apply (tracking_kept _ _ _ _ self); try done.
      by rewrite Hit.
    + destruct (_fetch_next_batch_some self it x tokens r)
        as (self1 & Hf & Hs & Hi & Hn & _); [done..|].
      rewrite Hf. replace (P + S k)%nat with (S P + k)%nat by lia.
      apply IH; [by rewrite (proj1 Hs)|]. by eapply tracking_pulled.
Qed.

Lemma __next___tracking D n l P self b rest :
  buffering self (b :: rest) ->
  tracking D n l P self ->
  tracking D n l (Nat.min (S P) (length l)) (snd (__next__ self)).
Proof.
  intros (Hc & it & Hit & Hp & Hd & Hb & He) Ht.
  pose proof Ht as (_ & _ & HPl & _).
  destruct (batches self) as [|b0 bs] eqn:Hbs.
  { rewrite (Hb eq_refl) in Hp. discriminate. }
  assert (Hev : overlaps (cls self) = true -> events self <> []).
  { intros Ho. specialize (He Ho). destruct (events self); [discriminate|done]. }
  unfold __next__. destruct (done self) eqn:Hdn.
  - destruct (fetching_function_drain self b0 bs)
      as (self' & Hf & Hs & Hi & Hn & _); [done..|].
    rewrite Hf. cbn [snd].
    pose proof (tracking_exhausted _ _ _ _ _ _ Ht Hit (Hd eq_refl)) as ->.
    rewrite Nat.min_r by lia. by apply (tracking_kept _ _ _ _ self).
  - destruct (remaining it) as [|[x tokens] r] eqn:Hr.
    + destruct (fetching_function_exhaust self b0 bs it)
        as (self' & Hf & Hs & Hi & Hn & _); [done..|].
      rewrite Hf. cbn [snd].
      pose proof (tracking_exhausted _ _ _ _ _ _ Ht Hit Hr) as ->.
      rewrite Nat.min_r by lia. apply (tracking_kept _ _ _ _ self); try done.
      by rewrite Hit.
    + destruct (fetching_function_refill self b0 bs it x tokens r)
        as (self' & Hf & Hs & Hi & Hn & _); [done..|].
      rewrite Hf. cbn [snd].
      assert (tracking D n l (S P) self') as Ht' by (by eapply tracking_pulled).
      rewrite Nat.min_l; [done|]. by destruct Ht' as (_ & _ & ? & _).
Qed.

Lemma drive_tracking D n l pending : forall self k P,
  buffering self pending ->
  (k <= length pending)%nat ->
  tracking D n l P self ->
  tracking D n l (Nat.min (P + k) (length l)) (snd (drive k self)).
Proof.
  induction pending as [|b rest IH]; intros self k P Hb Hk Ht.
  - destruct k; [|simpl in Hk; lia]. simpl.
    rewrite Nat.add_0_r, Nat.min_l; [done|]. by destruct Ht as (_ & _ & ? & _).
  - destruct k as [|k]; simpl.
    { rewrite Nat.add_0_r, Nat.min_l; [done|]. by destruct Ht as (_ & _ & ? & _). }
    pose proof (__next___tracking _ _ _ _ _ _ _ Hb Ht) as Ht1.
    destruct (buffering_next _ _ _ Hb) as (self1 & Hn & Hb1 & _).
    unfold __next__ in *. rewrite Hn in *. simpl in Ht1.
    specialize (IH self1 k _ Hb1 ltac:(simpl in Hk; lia) Ht1).
    destruct (drive k self1) as [[xs e] self'']. simpl in *.
    replace (Nat.min (P + S k) (length l))
      with (Nat.min (Nat.min (S P) (length l) + k) (length l)) by lia.
    done.
Qed.


Lemma buffered_foldl ts : forall cache n,
  buffered (foldl buffer_state cache ts) n
  = buffered cache n ++ filter (fun t => name t = n) ts.
Proof.
  induction ts as [|t ts IH]; intros cache n; simpl.
  - by rewrite app_nil_r.
  - rewrite IH. destruct (decide (name t = n)) as [<-|Hne].
    + rewrite buffered_buffer_state_eq, filter_cons_True, <- app_assoc by done. done.
    + rewrite buffered_buffer_state_ne, filter_cons_False by done. done.
Qed.

(** The folding loop, name by name: as many tokens are popped from the
    front of the buffer of a name as the call brought under that name, and
    the merged state holds the last one popped. *)
Lemma merge_states_spec ts : forall cache st prev r cache' st' prev',
  (forall m, (occurrences m ts <= length (buffered cache m))%nat) ->
  merge_states ts cache st prev = (r, (cache', st', prev')) ->
  forall m,
    buffered cache' m = drop (occurrences m ts) (buffered cache m)
    /\ st' !! m = match occurrences m ts with
                  | O => st !! m
                  | S j => buffered cache m !! j
                  end.
Proof.
  induction ts as [|t ts IH]; intros cache st prev r cache' st' prev' Hocc Hm m.
  - simpl in Hm. injection Hm as <- <- <- <-. done.
  - simpl in Hm. pose proof (Hocc (name t)) as Ht. rewrite occurrences_cons_eq in Ht.
    unfold buffered in Ht.
    destruct (cache !! name t) as [[|s queue]|] eqn:Hc; simpl in Ht; try lia.
    assert (Hocc' : forall m0, (occurrences m0 ts
                                <= length (buffered (<[name t := queue]> cache) m0))%nat).
    { intros m0. destruct (decide (name t = m0)) as [<-|Hne].
      - unfold buffered. rewrite lookup_insert_eq. simpl. lia.
      - unfold buffered. rewrite lookup_insert_ne by done.
        specialize (Hocc m0). by rewrite occurrences_cons_ne in Hocc. }
    destruct (IH _ _ _ _ _ _ _ Hocc' Hm m) as [Hb Hs]. rewrite Hb, Hs.
    unfold MergedIteratorState_update.
    destruct (decide (name t = m)) as [<-|Hne].
    + rewrite occurrences_cons_eq. unfold buffered.
      rewrite !lookup_insert_eq, Hc. simpl.
      split; [done|]. by destruct (occurrences (name t) ts).
    + rewrite occurrences_cons_ne by done. unfold buffered.
      by rewrite !lookup_insert_ne.
Qed.

Lemma __iter___tracking self D n l once :
  prefetches (cls self) = true ->
  _dataloader self
  = Some {| loader_kind := IsDataLoader; loader_items := one_token_each n l;
            loader_once := once |} ->
  env_left self = ∅ ->
  env_fault_tolerant self = true ->
  prefetch_batches self = Z.of_nat D ->
  tracking D n l (Nat.min D (length l)) (snd (__iter__ self)).
Proof.
  intros Hc Hd Hleft Hft HD.
  rewrite (__iter___prefetching_loop _ _ Hc Hd), HD, Nat2Z.id.
  apply (prefetching_loop_tracking D n l D _ 0); [done|].
  destruct (entered_iter self
              {| loader_kind := IsDataLoader; loader_items := one_token_each n l;
                 loader_once := once |})
    as (it & Hit & Hr & Hp & Hcs & Hst & Hpv).
  rewrite (items_left_untouched _ _ Hleft) in Hr.
  unfold patches in Hp. simpl in Hp. rewrite Hft in Hp.
  split_and!; [done|done|lia|]. exists it. split_and!; try done.
Qed.

Lemma __iter___caller_driven self d :
  cls self = DataLoaderIterDataFetcher ->
  _dataloader self = Some d ->
  __iter__ self = (Return tt, set_iterator (Some StepFuncWrapper) (entered self d)).
Proof.
  intros Hc Hd. rewrite __iter___entering. unfold bind.
  rewrite (entering_entered _ _ Hd).
  unfold prefetching, DataLoaderIterDataFetcher_prefetching.
  change (cls (entered self d)) with (cls self). by rewrite Hc.
Qed.

Lemma StepFuncDataLoaderIter__next___tracking D n l P self :
  tracking D n l P self ->
  (P < length l)%nat ->
  exists x self',
    StepFuncDataLoaderIter__next__ self = (Return x, self')
    /\ tracking D n l (S P) self'
    /\ same_settings self self'.
Proof.
  intros Ht HP. pose proof Ht as (_ & _ & _ & it & Hit & _ & Hr & _).
  destruct (lookup_lt_is_Some_2 (one_token_each n l) P) as [[x tokens] Hx].
  { unfold one_token_each. by rewrite length_fmap. }
  rewrite (drop_S _ _ _ Hx) in Hr.
  unfold StepFuncDataLoaderIter__next__, next_dataloader_iter.
  rewrite Hit, (next__some _ _ _ _ _ Hr).
  unfold pulled_from. rewrite pulled_iterator_id.
  destruct (iterator_id it);
    (eexists _, _; split; [reflexivity|]; split; [|by repeat split];
     eapply (tracking_pulled _ _ _ _ self); done).
Qed.

Lemma pulls_tracking D n l k : forall P self,
  tracking D n l P self ->
  (P + k <= length l)%nat ->
  exists rs self',
    pulls k self = (rs, self')
    /\ tracking D n l (P + k) self'
    /\ same_settings self self'.
Proof.
  induction k as [|k IH]; intros P self Ht Hk.
  - exists [], self. rewrite Nat.add_0_r. by split_and!.
  - destruct (StepFuncDataLoaderIter__next___tracking _ _ _ _ _ Ht)
      as (x & self1 & Hn & Ht1 & Hs1); [lia|].
    destruct (IH (S P) self1 Ht1) as (rs & self' & Hp & Ht' & Hs'); [lia|].
    exists (Return x :: rs), self'. simpl. rewrite Hn, Hp.
    split_and!; try done.
    + by replace (P + S k)%nat with (S P + k)%nat by lia.
    + by apply (same_settings_trans _ self1).
Qed.

(** C2, as the code has it: for every look-ahead depth [D >= 1] and every
    patched source of [L >= 1] batches that attaches one progress token to
    each, after the consumer has been handed exactly [K <= L] batches the
    fetcher has pulled [P = min (D + K) L] batches and the visible merged
    state reflects the progress as of batch [P - D] (the empty state for 0):
    that is batch [K] itself whenever [D + K <= L]; with depth 0, the
    caller-driven fetcher, the state reflects batch [K] after [K >= 1]
    pulls.  A store never raises; it buffers each token under its name; it
    folds nothing while [fetched < prefetch_batches] ([fetched] not yet
    counting the batch being pulled); otherwise it pops from the front of
    the buffer of each name as many tokens as the call brought under that
    name and the state holds the last of them, the merged state being
    archived before a fold if it is not empty. *)
Theorem MergedState_lags_the_pulls_by_the_depth
    (D : nat) (sod : bool) (n : string) (l : list (Batch * Z)) (once : option nat)
    (b2d : option (Batch -> Batch)) (K : nat) :
  (1 <= D)%nat ->
  (1 <= length l)%nat ->
  (K <= length l)%nat ->
  (exists self0 outs self',
      new_DataFetcher true (Z.of_nat D) sod = Return self0
      /\ consume K {| loader_kind := IsDataLoader; loader_items := one_token_each n l;
                      loader_once := once |}
           b2d self0 = (outs, None, self')
      /\ length outs = K
      /\ fetched self' = Z.of_nat (Nat.min (D + K) (length l))
      /\ AbstractDataFetcher_state self'
         = (Return [reflects n (tokens_of n l) (Nat.min (D + K) (length l) - D)], self')
      /\ ((D + K <= length l)%nat ->
          AbstractDataFetcher_state self'
          = (Return [reflects n (tokens_of n l) K], self')))
  /\ ((1 <= K)%nat ->
      exists self0 self1 self2 rs self3,
        new_DataLoaderIterDataFetcher true = Return self0
        /\ setup {| loader_kind := IsDataLoader; loader_items := one_token_each n l;
                    loader_once := once |}
             b2d self0 = (Return tt, self1)
        /\ __iter__ self1 = (Return tt, self2)
        /\ pulls K self2 = (rs, self3)
        /\ prefetch_batches self3 = 0
        /\ fetched self3 = Z.of_nat K
        /\ AbstractDataFetcher_state self3
           = (Return [reflects n (tokens_of n l) K], self3))
  /\ (forall self it ts m,
        prefetch_batches self <= fetched self ->
        let queue := buffered (default ∅ (cache_states it)) m
                     ++ filter (fun t => name t = m) ts in
        let it' := snd (_store_dataloader_iter_state self it ts) in
        buffered (default ∅ (cache_states it')) m = drop (occurrences m ts) queue
        /\ default ∅ (state it') !! m
           = match occurrences m ts with
             | O => default ∅ (state it) !! m
             | S j => queue !! j
             end)
  /\ (forall self it ts,
        fst (_store_dataloader_iter_state self it ts) = Return tt
        /\ (forall m,
              fetched self < prefetch_batches self ->
              buffered (default ∅ (cache_states (snd (_store_dataloader_iter_state self it ts)))) m
              = buffered (default ∅ (cache_states it)) m ++ filter (fun t => name t = m) ts)
        /\ (fetched self < prefetch_batches self ->
            state (snd (_store_dataloader_iter_state self it ts))
            = Some (default ∅ (state it))
            /\ previous_state (snd (_store_dataloader_iter_state self it ts))
               = previous_state it))
  /\ (forall self it t,
        prefetch_batches self <= fetched self ->
        let queue := buffered (default ∅ (cache_states it)) (name t) ++ [t] in
        let st := default ∅ (state it) in
        _store_dataloader_iter_state self it [t]
        = (Return tt,
           set_merge (<[name t := tail queue]> (default ∅ (cache_states it)))
             (MergedIteratorState_update (name t) (hd t queue) st)
             (if (0 <? MergedIteratorState_len st)%nat then Some st else previous_state it)
             it)).
Proof.
  intros HD HL HK. split_and!.
  - set (d := {| loader_kind := IsDataLoader; loader_items := one_token_each n l;
                loader_once := once |}).
    assert (Hlen : length (loader_items d) = length l).
    { unfold d, one_token_each. simpl. by rewrite length_fmap. }
    destruct (constructed_enter DataFetcher true (Z.of_nat D) sod d b2d eq_refl)
      as (self1 & self2 & Hs & Hi & Hc2 & HD2 & Hdl & Hm & Hb & Ho); [lia|].
    destruct (setup_constructed DataFetcher true (Z.of_nat D) sod d b2d eq_refl)
      as (self1' & Hs1 & Hc1 & HD1 & Hd1 & Hft & _).
    rewrite Hs in Hs1. injection Hs1 as <-.
    pose proof (setup_constructed_untouched DataFetcher true (Z.of_nat D) sod d b2d)
      as Hleft.
    rewrite Hs in Hleft. cbn [snd] in Hleft.
    pose proof (__iter___tracking self1 D n l once ltac:(by rewrite Hc1) Hd1 Hleft Hft HD1)
      as Ht.
    rewrite Hi in Ht. simpl in Ht.
    destruct (drive_buffering_partial _ self2 K Hb) as (self' & Hd & Hb' & Hs' & _).
    { by rewrite length_map, Hlen. }
    pose proof (drive_tracking D n l _ self2 K _ Hb ltac:(by rewrite length_map, Hlen) Ht)
      as Ht'.
    rewrite Hd in Ht'. simpl in Ht'.
    replace (Nat.min (Nat.min D (length l) + K) (length l))
      with (Nat.min (D + K) (length l)) in Ht' by lia.
    destruct Ht' as (_ & Hf & _ & it & Hit & _ & _ & _ & Hst & _).
    assert (Hstate : AbstractDataFetcher_state self'
              = (Return [reflects n (tokens_of n l) (Nat.min (D + K) (length l) - D)], self')).
    { unfold AbstractDataFetcher_state, loader_iters, dataloader, bind, ret.
      destruct Hs' as (_ & _ & Hdl' & _). rewrite Hit, Hdl', Hdl, Hst.
      destruct (Nat.min (D + K) (length l)) eqn:Hmin; [lia|]. done. }
    eexists (constructed DataFetcher true (Z.of_nat D) sod), _, self'. split_and!.
    + apply new_DataFetcher_constructed. lia.
    + unfold consume, for_loop. fold d. rewrite Hs, Hi. exact Hd.
    + rewrite length_take, pairs_length, length_map, Hlen. lia.
    + exact Hf.
    + exact Hstate.
    + intros HDK. rewrite Hstate.
      by replace (Nat.min (D + K) (length l) - D)%nat with K by lia.
  - intros HK1.
    set (d := {| loader_kind := IsDataLoader; loader_items := one_token_each n l;
                loader_once := once |}).
    set (self1 := set__dataloader (Some d)
                    (call AddCaptureMetadataCollate
                       (constructed DataLoaderIterDataFetcher true 0 false))).
    assert (Hs : setup d b2d (constructed DataLoaderIterDataFetcher true 0 false)
                 = (Return tt, self1)) by reflexivity.
    pose proof (__iter___caller_driven self1 d eq_refl eq_refl) as Hi.
    set (self2 := set_iterator (Some StepFuncWrapper) (entered self1 d)) in *.
    assert (Ht : tracking 0 n l 0 self2).
    { split_and!; [done|done|lia|]. eexists. split; [reflexivity|].
      split_and!; try done. simpl. unfold items_left. simpl.
      by destruct once. }
    destruct (pulls_tracking 0 n l K 0 self2 Ht) as (rs & self3 & Hp & Ht3 & Hs3); [lia|].
    simpl in Ht3. destruct Ht3 as (HD3 & Hf3 & _ & it & Hit & _ & _ & _ & Hst & _).
    exists (constructed DataLoaderIterDataFetcher true 0 false), self1, self2, rs, self3.
    split_and!; try done.
    unfold AbstractDataFetcher_state, loader_iters, dataloader, bind, ret.
    destruct Hs3 as (_ & _ & Hdl & _). rewrite Hit, Hdl. simpl. rewrite Hst.
    destruct K; [lia|]. done.
  - intros self it ts m Hle queue it'. subst queue it'.
    unfold _store_dataloader_iter_state. apply Z.leb_le in Hle. rewrite Hle.
    assert (Hocc : forall m0,
               (occurrences m0 ts
                <= length (buffered (foldl buffer_state (default ∅ (cache_states it)) ts) m0))%nat)
      by (intros m0; rewrite buffered_foldl_length; lia).
    destruct (merge_states _ _ _ _) as [r [[c' s'] p']] eqn:Hm.
    destruct (merge_states_spec _ _ _ _ _ _ _ _ Hocc Hm m) as [Hb Hs].
    simpl. by rewrite Hb, Hs, buffered_foldl.
  - intros self it ts. split_and!.
    + apply _store_dataloader_iter_state_total.
    + intros m Hlt. unfold _store_dataloader_iter_state.
      destruct (prefetch_batches self <=? fetched self) eqn:Hle; [lia|].
      simpl. apply buffered_foldl.
    + intros Hlt. unfold _store_dataloader_iter_state.
      destruct (prefetch_batches self <=? fetched self) eqn:Hle; [lia|]. done.
  - intros self it t Hle queue st. rewrite _store_dataloader_iter_state_single.
    apply Z.leb_le in Hle. by rewrite Hle.
Qed.


(** * Further properties of the fetchers *)

(** ** Outside a pass *)

Lemma teardown_bound self d :
  _dataloader self = Some d ->
  exists self',
    teardown self = (Return tt, self')
    /\ same_settings self self'
    /\ dataloader_iter self' = None
    /\ fetched self' = 0
    /\ done self' = false
    /\ batches self' = (if prefetches (cls self) then [] else batches self)
    /\ events self' = events self
    /\ env_left self' = env_left self.
Proof.
  intros Hd. expose self. subst dl. destruct d as [kind items once].
  destruct c, kind; (eexists; split; [reflexivity|]); by split_and!.
Qed.

(** X1: [__iter__] on a fetcher of any class that was never set up raises
    [MisconfigurationException]: the counters are reset (and the buffer of a
    prefetching fetcher emptied) before it does, no iterator is made and no
    call leaves the fetcher; a [for] loop over it hands over nothing. *)
Theorem __iter___before_setup_raises (self : Fetcher) (fuel : nat) :
  _dataloader self = None ->
  exists self',
    __iter__ self = (Raise MisconfigurationException, self')
    /\ for_loop fuel self = ([], Some MisconfigurationException, self')
    /\ fetched self' = 0
    /\ done self' = false
    /\ (prefetches (cls self) = true -> batches self' = [])
    /\ dataloader_iter self' = dataloader_iter self
    /\ env_log self' = env_log self.
Proof.
  intros Hd. unfold for_loop. expose self. subst dl.
  destruct c; (eexists; split; [reflexivity|]); by split_and!.
Qed.

(** X2: outside a pass the views of the iterator are not available: on a
    fetcher whose source is set up but that has not entered a pass, and on
    any fetcher after [teardown], the properties [loader_iters] and [state]
    and the method [_apply_patch] raise [MisconfigurationException] and
    change nothing. *)
Theorem iterator_views_raise_outside_a_pass (self : Fetcher) (d : Dataloader) :
  _dataloader self = Some d ->
  (dataloader_iter self = None ->
   loader_iters self = (Raise MisconfigurationException, self)
   /\ AbstractDataFetcher_state self = (Raise MisconfigurationException, self)
   /\ _apply_patch self = (Raise MisconfigurationException, self))
  /\ exists self',
       teardown self = (Return tt, self')
       /\ loader_iters self' = (Raise MisconfigurationException, self')
       /\ AbstractDataFetcher_state self' = (Raise MisconfigurationException, self')
       /\ _apply_patch self' = (Raise MisconfigurationException, self').
Proof.
  intros Hd.
  assert (Hnone : forall s : Fetcher,
            _dataloader s = Some d -> dataloader_iter s = None ->
            loader_iters s = (Raise MisconfigurationException, s)
            /\ AbstractDataFetcher_state s = (Raise MisconfigurationException, s)
            /\ _apply_patch s = (Raise MisconfigurationException, s)).
  { intros s Hs Hi. split_and!.
    - unfold loader_iters. by rewrite Hi.
    - unfold AbstractDataFetcher_state, bind, loader_iters. by rewrite Hi.
    - unfold _apply_patch, bind, dataloader, loader_iters. rewrite Hs. by rewrite Hi. }
  split; [by apply Hnone|].
  destruct (teardown_bound self d Hd) as (self' & Ht & Hs & Hi & _).
  exists self'. split; [done|]. apply Hnone; [|done].
  destruct Hs as (_ & _ & -> & _). done.
Qed.

(** ** After the end of a pass *)

(** X3: once a pass of a new [DataFetcher] has ended, every further call of
    [next] raises [StopIteration] again and leaves the fetcher as it is:
    the signal is repeated, not raised once only. *)
Theorem next_after_the_end_raises_again
    (ft : bool) (D : Z) (sod : bool) (d : Dataloader)
    (b2d : option (Batch -> Batch)) (fuel more : nat) :
  1 <= D ->
  (length (loader_items d) < fuel)%nat ->
  exists outs self',
    consume fuel d b2d (constructed DataFetcher ft D sod)
    = (outs, Some StopIteration, self')
    /\ __next__ self' = (Raise StopIteration, self')
    /\ drive (S more) self' = ([], Some StopIteration, self').
Proof.
  intros HD Hfuel.
  destruct (consume_constructed DataFetcher ft D sod d b2d fuel eq_refl HD Hfuel)
    as (self' & Hc & Hb & _).
  eexists _, self'. split; [exact Hc|].
  pose proof (buffering_end _ Hb) as Hn. split; [done|]. simpl. by rewrite Hn.
Qed.

(** ** Iterating again *)

(** X4: over a deterministic source that can be replayed (one that hands
    out an iterator at its first item each time, not one that is consumed),
    a [for] loop over a [DataFetcher] starts over, whatever state an earlier
    pass left the fetcher in (abandoned with batches buffered, exhausted, or
    torn down): it hands over the pair of every batch of the source, then
    raises [StopIteration]; and so does the loop that follows a
    [teardown]. *)
Theorem DataFetcher_for_loop_starts_over (self : Fetcher) (d : Dataloader) (fuel : nat) :
  cls self = DataFetcher ->
  _dataloader self = Some d ->
  loader_once d = None ->
  1 <= prefetch_batches self ->
  (length (loader_items d) < fuel)%nat ->
  (exists self',
      for_loop fuel self
      = (pairs (moved self) (fst <$> loader_items d), Some StopIteration, self'))
  /\ exists self1 self',
       teardown self = (Return tt, self1)
       /\ for_loop fuel self1
          = (pairs (moved self) (fst <$> loader_items d), Some StopIteration, self').
Proof.
  intros Hc Hd Hrep HD Hfuel.
  assert (Hloop : forall s : Fetcher,
            same_settings self s ->
            exists s', for_loop fuel s
                       = (pairs (moved self) (fst <$> loader_items d),
                          Some StopIteration, s')).
  { intros s Hs. pose proof Hs as (Hcs & HDs & Hds & _).
    destruct (__iter___prefetching s d) as (s1 & Hi & Hs1 & Hb & _).
    - by rewrite Hcs, Hc.
    - by rewrite Hds.
    - by rewrite HDs.
    - rewrite Hcs, Hc. discriminate.
    - rewrite (items_left_replayed _ _ Hrep) in Hb.
      destruct (drive_buffering _ s1 fuel Hb) as (s' & Hdr & _);
        [by rewrite length_map|].
      exists s'. unfold for_loop. rewrite Hi, Hdr.
      by rewrite (moved_same_settings _ _ Hs1), (moved_same_settings _ _ Hs). }
  split; [apply Hloop, same_settings_refl|].
  destruct (teardown_bound self d Hd) as (self1 & Ht & Hs & _).
  destruct (Hloop self1 Hs) as [self' Hl]. by exists self1, self'.
Qed.

(** ** More on caller-driven mode *)

(** X5: in caller-driven mode [fetching_function] never pulls: as long as
    the consumer does not pull through the wrapper, every call of [next]
    returns the same [(0, (wrapper, false))] and the loop does not end,
    whatever the source holds. *)
Theorem DataLoaderIterDataFetcher_next_does_not_advance
    (ft : bool) (d : Dataloader) (b2d : option (Batch -> Batch)) (fuel : nat) :
  exists self0 self',
    new_DataLoaderIterDataFetcher ft = Return self0
    /\ consume fuel d b2d self0
       = (replicate fuel (IterAndDone 0 StepFuncWrapper false), None, self')
    /\ fetched self' = 0
    /\ done self' = false.
Proof.
  destruct (constructed_enter_caller_driven ft d b2d) as (self1 & self2 & Hs & Hi & Hcd).
  pose proof Hcd as (Hc & Hw & Hdn & Hn & _).
  assert (Hf : fetching_function self2
               = (Return (IterAndDone 0 StepFuncWrapper false), self2)).
  { unfold fetching_function, DataLoaderIterDataFetcher_fetching_function.
    by rewrite Hc, Hdn, Hw, Hn. }
  assert (Hd : drive fuel self2
               = (replicate fuel (IterAndDone 0 StepFuncWrapper false), None, self2)).
  { induction fuel as [|fuel IH]; [done|]. simpl. unfold __next__. by rewrite Hf, IH. }
  exists (constructed DataLoaderIterDataFetcher ft 0 false), self2.
  split; [done|]. unfold consume, for_loop. by rewrite Hs, Hi, Hd.
Qed.

(** X6: in caller-driven mode the pulls beyond the end of the source keep
    raising [StopIteration]: after the [L] batches, each of [j >= 1]
    further pulls through the wrapper raises, [fetched] stays at [L],
    [done] stays set and [fetching_function] raises [StopIteration]. *)
Theorem StepFuncDataLoaderIter_keeps_raising_at_the_end
    (ft : bool) (d : Dataloader) (b2d : option (Batch -> Batch)) (j : nat) :
  (1 <= j)%nat ->
  exists self0 self1 self2 self3,
    new_DataLoaderIterDataFetcher ft = Return self0
    /\ setup d b2d self0 = (Return tt, self1)
    /\ __iter__ self1 = (Return tt, self2)
    /\ pulls (length (loader_items d) + j) self2
       = ((Return <$> (fst <$> loader_items d)) ++ replicate j (Raise StopIteration),
          self3)
    /\ fetched self3 = Z.of_nat (length (loader_items d))
    /\ done self3 = true
    /\ fetching_function self3 = (Raise StopIteration, self3).
Proof.
  intros Hj.
  destruct (constructed_enter_caller_driven ft d b2d) as (self1 & self2 & Hs & Hi & Hcd).
  destruct (pulls_caller_driven _ (length (loader_items d)) 0 self2 Hcd)
    as (selfL & Hp & HcdL); [lia|].
  simpl in HcdL. rewrite drop_0, take_ge in Hp by (by rewrite length_fmap).
  destruct HcdL as (Hc & Hw & Hdn & Hn & it & Hit & Hr).
  rewrite drop_ge in Hr by done.
  destruct (pulls_exhausted (Z.of_nat (length (loader_items d))) j selfL it)
    as (self3 & Hp3 & Hf3 & Hc3 & Hd3 & _); [done..|].
  exists (constructed DataLoaderIterDataFetcher ft 0 false), self1, self2, self3.
  split_and!; try done.
  - rewrite pulls_app, Hp. simpl. by rewrite Hp3.
  - apply Hd3. lia.
  - unfold fetching_function, DataLoaderIterDataFetcher_fetching_function.
    rewrite Hc3, Hc, Hd3 by lia. done.
Qed.



(** ** The look-ahead buffer *)

Lemma take_drop_step {A} (l : list A) D k b bs :
  take D (drop k l) = b :: bs ->
  ((length l <= D + k)%nat -> take D (drop (S k) l) = bs)
  /\ (forall x, l !! (D + k)%nat = Some x -> take D (drop (S k) l) = bs ++ [x]).
Proof.
  intros Ht. destruct D as [|D']; [done|].
  destruct (drop k l) as [|b' tl] eqn:Hd; [done|].
  assert (Hk : l !! k = Some b').
  { rewrite <- (Nat.add_0_r k), <- lookup_drop, Hd. done. }
  rewrite (drop_S _ _ _ Hk) in Hd. injection Hd as Hd. rewrite Hd.
  simpl in Ht. injection Ht as -> <-. split.
  - intros Hlen. apply (f_equal length) in Hd. rewrite length_drop in Hd.
    rewrite !take_ge; [done|lia..].
  - intros x Hx. rewrite <- Hd. apply take_S_r. rewrite lookup_drop.
    by replace (S k + D')%nat with (S D' + k)%nat by lia.
Qed.

Lemma prefetching_loop_fetched n : forall self it,
  prefetches (cls self) = true ->
  dataloader_iter self = Some it ->
  fetched (snd (prefetching_loop n self))
  = fetched self + Z.of_nat (Nat.min n (length (remaining it))).
Proof.
  induction n as [|n IH]; intros self it Hc Hit; simpl.
  - lia.
  - destruct (remaining it) as [|[x tokens] r] eqn:Hr.
    + destruct (_fetch_next_batch_none self it)
        as (self1 & Hf & Hs & Hi & Hn & _); [done..|].
      rewrite Hf. simpl. lia.
    + destruct (_fetch_next_batch_some self it x tokens r)
        as (self1 & Hf & Hs & Hi & Hn & _); [done..|].
      rewrite Hf. destruct (pulled_frame self it tokens r) as [Hpr _].
      rewrite (IH self1 _ ltac:(by rewrite (proj1 Hs)) Hi), Hn, Hpr. simpl. lia.
Qed.

Lemma __iter___lookahead self d D :
  prefetches (cls self) = true ->
  _dataloader self = Some d ->
  prefetch_batches self = Z.of_nat D ->
  lookahead D (items_left self d) 0 (snd (__iter__ self)).
Proof.
  intros Hc Hd HD.
  rewrite (__iter___prefetching_loop _ _ Hc Hd), HD, Nat2Z.id.
  destruct (entered_iter self d) as (it & Hit & Hr0 & _).
  pose proof (prefetching_loop_fetched D (entered self d) it Hc Hit) as Hf.
  destruct (prefetching_loop_spec D (entered self d) it Hc Hit)
    as (self' & it' & Hl & Hs & Hi & Hr & Hp & Hbs & Hdn & _).
  rewrite Hl in *. simpl in Hf.
  change (batches (entered self d))
    with (if prefetches (cls self) then [] else batches self) in Hbs.
  rewrite Hc in Hbs. simpl in Hbs. rewrite Hr0 in *.
  split_and!.
  - simpl. rewrite Hf, Nat.add_0_r. done.
  - simpl. rewrite Hbs, drop_0. by rewrite fmap_take.
  - simpl. rewrite Hdn. split; [discriminate|lia].
  - exists it'. simpl. by rewrite Nat.add_0_r.
Qed.

Lemma __next___lookahead D items k self b rest :
  buffering self (b :: rest) ->
  lookahead D items k self ->
  (k < length items)%nat ->
  lookahead D items (S k) (snd (__next__ self)).
Proof.
  intros (Hc & it & Hit & Hp & Hd & Hb & He) (Hf & Hbs & Hdn & it' & Hit' & Hr) Hk.
  rewrite Hit in Hit'. injection Hit' as <-.
  destruct (batches self) as [|b0 bs] eqn:Hbs0.
  { rewrite (Hb eq_refl) in Hp. discriminate. }
  symmetry in Hbs. destruct (take_drop_step _ _ _ _ _ Hbs) as [Hshort Hlong].
  rewrite length_fmap in Hshort.
  assert (Hev : overlaps (cls self) = true -> events self <> []).
  { intros Ho. specialize (He Ho). destruct (events self); [discriminate|done]. }
  unfold __next__. destruct (done self) eqn:Hdone.
  - destruct (proj1 Hdn eq_refl) as [Hk1 HL].
    destruct (fetching_function_drain self b0 bs)
      as (self' & Hff & Hs & Hi & Hn & Hdn' & Hbs' & _); [done..|].
    rewrite Hff. cbn [snd]. split_and!.
    + rewrite Hn, Hf. f_equal. lia.
    + rewrite Hbs'. symmetry. apply Hshort. lia.
    + rewrite Hdn'. split; [lia|done].
    + exists it. rewrite Hi. split; [done|]. rewrite Hr, !drop_ge; [done|lia..].
  - destruct (remaining it) as [|[x tokens] r] eqn:Hrem.
    + assert (HL : (length items <= D + k)%nat).
      { symmetry in Hr. apply (f_equal length) in Hr.
        rewrite length_drop in Hr. simpl in Hr. lia. }
      destruct (fetching_function_exhaust self b0 bs it)
        as (self' & Hff & Hs & Hi & Hn & Hdn' & Hbs' & _); [done..|].
      rewrite Hff. cbn [snd]. split_and!.
      * rewrite Hn, Hf. f_equal. lia.
      * rewrite Hbs'. symmetry. by apply Hshort.
      * rewrite Hdn'. split; [lia|done].
      * exists it. split; [done|]. rewrite Hrem, drop_ge; [done|lia].
    + assert (Hx : items !! (D + k)%nat = Some (x, tokens)).
      { rewrite <- (Nat.add_0_r (D + k)), <- lookup_drop, <- Hr. done. }
      pose proof (lookup_lt_Some _ _ _ Hx) as HL.
      destruct (fetching_function_refill self b0 bs it x tokens r)
        as (self' & Hff & Hs & Hi & Hn & Hdn' & Hbs' & _); [done..|].
      destruct (pulled_frame self it tokens r) as [Hpr _].
      rewrite Hff. cbn [snd]. split_and!.
      * rewrite Hn, Hf. lia.
      * rewrite Hbs'. symmetry. apply Hlong. by rewrite list_lookup_fmap, Hx.
      * rewrite Hdn'. split; [discriminate|lia].
      * eexists. split; [exact Hi|]. rewrite Hpr.
        rewrite (drop_S _ _ _ Hx) in Hr. injection Hr as ->.
        by replace (D + S k)%nat with (S (D + k)) by lia.
Qed.

Lemma drive_lookahead D items pending : forall self k j,
  buffering self pending ->
  (j <= length pending)%nat ->
  (k + length pending <= length items)%nat ->
  lookahead D items k self ->
  lookahead D items (k + j) (snd (drive j self)).
Proof.
  induction pending as [|b rest IH]; intros self k j Hb Hj Hk Hl.
  - destruct j; [|simpl in Hj; lia]. simpl. by rewrite Nat.add_0_r.
  - destruct j as [|j]; simpl.
    { by rewrite Nat.add_0_r. }
    simpl in Hj, Hk.
    pose proof (__next___lookahead _ _ _ _ _ _ Hb Hl ltac:(lia)) as Hl1.
    destruct (buffering_next _ _ _ Hb) as (self1 & Hn & Hb1 & _).
    unfold __next__ in *. rewrite Hn in *. simpl in Hl1.
    specialize (IH self1 (S k) j Hb1 ltac:(lia) ltac:(lia) Hl1).
    destruct (drive j self1) as [[xs e] self'']. simpl in *.
    by replace (k + S j)%nat with (S k + j)%nat by lia.
Qed.

(** X8: the buffer of a [DataFetcher] of depth [D >= 1] looks exactly [D]
    batches ahead: after [__iter__] and [k <= L] calls of [next] it holds
    the batches [k .. k + D - 1] of the source (those that exist), never
    more than [D]; [fetched] is [min (D + k) L]; and [done] is set exactly
    when a call of [next] has found the source exhausted, that is when
    [k >= 1] and [L < D + k]: the exhaustion [prefetching] runs into does
    not set it. *)
Theorem DataFetcher_buffers_the_next_D_batches
    (ft : bool) (D : nat) (sod : bool) (d : Dataloader)
    (b2d : option (Batch -> Batch)) (k : nat) :
  (1 <= D)%nat ->
  (k <= length (loader_items d))%nat ->
  exists self0 outs self',
    new_DataFetcher ft (Z.of_nat D) sod = Return self0
    /\ consume k d b2d self0 = (outs, None, self')
    /\ batches self' = take D (drop k (fst <$> loader_items d))
    /\ (length (batches self') <= D)%nat
    /\ fetched self' = Z.of_nat (Nat.min (D + k) (length (loader_items d)))
    /\ (done self' = true <-> (1 <= k /\ length (loader_items d) < D + k)%nat).
Proof.
  intros HD Hk.
  destruct (setup_constructed DataFetcher ft (Z.of_nat D) sod d b2d eq_refl)
    as (self1 & Hs & Hc1 & HD1 & Hd1 & _).
  destruct (constructed_enter DataFetcher ft (Z.of_nat D) sod d b2d eq_refl)
    as (self1' & self2 & Hs' & Hi & _ & _ & _ & _ & Hb & _); [lia|].
  rewrite Hs in Hs'. injection Hs' as <-.
  pose proof (__iter___lookahead self1 d D ltac:(by rewrite Hc1) Hd1 HD1) as Hl.
  pose proof (setup_constructed_untouched DataFetcher ft (Z.of_nat D) sod d b2d) as Hleft.
  rewrite Hs in Hleft. cbn [snd] in Hleft.
  rewrite (items_left_untouched _ _ Hleft), Hi in Hl. simpl in Hl.
  destruct (drive_buffering_partial _ self2 k Hb) as (self' & Hdr & _);
    [by rewrite length_map|].
  assert (Hlen : length (map fst (loader_items d)) = length (loader_items d))
    by apply length_map.
  pose proof (drive_lookahead D (loader_items d) (map fst (loader_items d)) self2 0 k Hb
                ltac:(lia) ltac:(simpl; lia) Hl) as Hl'.
  rewrite Hdr in Hl'. simpl in Hl'. destruct Hl' as (Hf & Hbs & Hdn & _).
  eexists (constructed DataFetcher ft (Z.of_nat D) sod), _, self'. split_and!; try done.
  - apply new_DataFetcher_constructed. lia.
  - unfold consume, for_loop. rewrite Hs, Hi. exact Hdr.
  - rewrite Hbs, length_take. lia.
Qed.


(** ** A source that is not patched *)

Lemma bare_pulled self self' it x tokens rest :
  dataloader_iter self = Some it ->
  patched it = false ->
  state it = None ->
  remaining it = (x, tokens) :: rest ->
  dataloader_iter self' = Some (pulled self it tokens rest) ->
  bare self'.
Proof.
  intros Hit Hp Hs Hr Hi. eexists. split; [exact Hi|].
  unfold pulled. by rewrite Hp.
Qed.

Lemma prefetching_loop_bare n : forall self,
  prefetches (cls self) = true ->
  bare self ->
  bare (snd (prefetching_loop n self)).
Proof.
  induction n as [|n IH]; intros self Hc (it & Hit & Hp & Hs); simpl.
  - by exists it.
  - destruct (remaining it) as [|[x tokens] r] eqn:Hr.
    + destruct (_fetch_next_batch_none self it)
        as (self1 & Hf & _ & Hi & _); [done..|].
      rewrite Hf. by exists it.
    + destruct (_fetch_next_batch_some self it x tokens r)
        as (self1 & Hf & Hs1 & Hi & _); [done..|].
      rewrite Hf. apply IH; [by rewrite (proj1 Hs1)|].
      by apply (bare_pulled self self1 it x tokens r).
Qed.

Lemma __next___bare self b rest :
  buffering self (b :: rest) ->
  bare self ->
  bare (snd (__next__ self)).
Proof.
  intros (Hc & it & Hit & Hp & Hd & Hb & He) (it' & Hit' & Hpt & Hst).
  rewrite Hit in Hit'. injection Hit' as <-.
  destruct (batches self) as [|b0 bs] eqn:Hbs.
  { rewrite (Hb eq_refl) in Hp. discriminate. }
  assert (Hev : overlaps (cls self) = true -> events self <> []).
  { intros Ho. specialize (He Ho). destruct (events self); [discriminate|done]. }
  unfold __next__. destruct (done self) eqn:Hdn.
  - destruct (fetching_function_drain self b0 bs)
      as (self' & Hf & _ & Hi & _); [done..|].
    rewrite Hf. cbn [snd]. exists it. by rewrite Hi.
  - destruct (remaining it) as [|[x tokens] r] eqn:Hr.
    + destruct (fetching_function_exhaust self b0 bs it)
        as (self' & Hf & _ & Hi & _); [done..|].
      rewrite Hf. cbn [snd]. by exists it.
    + destruct (fetching_function_refill self b0 bs it x tokens r)
        as (self' & Hf & _ & Hi & _); [done..|].
      rewrite Hf. cbn [snd]. by apply (bare_pulled self self' it x tokens r).
Qed.

Lemma drive_bare pending : forall self fuel,
  buffering self pending ->
  bare self ->
  bare (snd (drive fuel self)) /\ same_settings self (snd (drive fuel self)).
Proof.
  induction pending as [|b rest IH]; intros self fuel Hb Hbare.
  - destruct fuel as [|fuel]; simpl; [by split|].
    rewrite (buffering_end _ Hb). by split.
  - destruct fuel as [|fuel]; simpl; [by split|].
    pose proof (__next___bare _ _ _ Hb Hbare) as Hbare1.
    destruct (buffering_next _ _ _ Hb) as (self1 & Hn & Hb1 & Hs1 & _).
    rewrite Hn in *. simpl in Hbare1.
    destruct (IH self1 fuel Hb1 Hbare1) as [Hbare' Hs'].
    destruct (drive fuel self1) as [[xs e] self'']. simpl in *.
    split; [done|]. by apply (same_settings_trans _ self1).
Qed.

(** X9: the iterator of a single source (one that is not a
    [CombinedLoader]) is patched only when the source is a [DataLoader] and
    fault-tolerant training is on; otherwise no progress is ever stored on
    it, and at every point of a pass of a [DataFetcher] (after prefetching,
    between calls of [next], after the end) the property [state] raises
    [AttributeError]. *)
Theorem state_of_an_unpatched_source_raises
    (ft : bool) (D : Z) (sod : bool) (d : Dataloader)
    (b2d : option (Batch -> Batch)) (fuel : nat) :
  1 <= D ->
  loader_kind d <> IsCombinedLoader ->
  ft = false \/ loader_kind d <> IsDataLoader ->
  exists self0 outs e self',
    new_DataFetcher ft D sod = Return self0
    /\ consume fuel d b2d self0 = (outs, e, self')
    /\ AbstractDataFetcher_state self' = (Raise AttributeError, self').
Proof.
  intros HD Hsingle Hoff.
  destruct (setup_constructed DataFetcher ft D sod d b2d eq_refl)
    as (self1 & Hs & Hc1 & HD1 & Hd1 & Hft & _).
  destruct (constructed_enter DataFetcher ft D sod d b2d eq_refl)
    as (self1' & self2 & Hs' & Hi & _ & _ & Hd2 & _ & Hb & _); [lia|].
  rewrite Hs in Hs'. injection Hs' as <-.
  assert (Hbare : bare self2).
  { pose proof (__iter___prefetching_loop self1 d ltac:(by rewrite Hc1) Hd1) as Hl.
    rewrite Hi in Hl.
    assert (Hce : prefetches (cls (entered self1 d)) = true).
    { change (cls (entered self1 d)) with (cls self1). by rewrite Hc1. }
    pose proof (prefetching_loop_bare (Z.to_nat (prefetch_batches self1)) (entered self1 d)
                  Hce) as Hbr.
    rewrite <- Hl in Hbr. apply Hbr.
    destruct (entered_iter self1 d) as (it & Hit & _ & Hp & _ & Hst & _).
    exists it. split_and!; try done. rewrite Hp. unfold patches. rewrite Hft.
    destruct Hoff as [->|Hk]; destruct (loader_kind d); done. }
  destruct (drive_bare _ self2 fuel Hb Hbare) as [(it & Hit & _ & Hst) Hss].
  destruct (drive fuel self2) as [[outs e] self'] eqn:Hdr. simpl in *.
  exists (constructed DataFetcher ft D sod), outs, e, self'. split_and!.
  - by apply new_DataFetcher_constructed.
  - unfold consume, for_loop. by rewrite Hs, Hi.
  - unfold AbstractDataFetcher_state, loader_iters, dataloader, bind.
    destruct Hss as (_ & _ & Hdl & _). rewrite Hit, Hdl, Hd2. simpl. by rewrite Hst.
Qed.

(** ** The buffer of tokens and the archive *)

(** X10: over a patched source that attaches one token per batch, after the
    consumer of a [DataFetcher] of depth [D >= 1] has been handed [K <= L]
    batches ([P = min (D + K) L] pulled), the tokens not yet folded are
    buffered under the name of the source, oldest first: those of the
    batches [P - D + 1 .. P], never more than [D]; and [previous_state]
    is the merged state one batch behind the visible one, unset as long as
    fewer than two tokens have been folded. *)
Theorem buffered_tokens_and_archive_lag
    (D : nat) (sod : bool) (n : string) (l : list (Batch * Z)) (once : option nat)
    (b2d : option (Batch -> Batch)) (K : nat) :
  (1 <= D)%nat ->
  (1 <= length l)%nat ->
  (K <= length l)%nat ->
  exists outs self' it,
    consume K {| loader_kind := IsDataLoader; loader_items := one_token_each n l;
                 loader_once := once |}
      b2d (constructed DataFetcher true (Z.of_nat D) sod) = (outs, None, self')
    /\ dataloader_iter self' = Some it
    /\ cache_states it
       = Some {[n := drop (Nat.min (D + K) (length l) - D)
                       (take (Nat.min (D + K) (length l)) (tokens_of n l))]}
    /\ (length (buffered (default ∅ (cache_states it)) n) <= D)%nat
    /\ previous_state it
       = (if (2 <=? Nat.min (D + K) (length l) - D)%nat
          then Some (reflects n (tokens_of n l) (Nat.min (D + K) (length l) - D - 1))
          else None).
Proof.
  intros HD HL HK.
  set (d := {| loader_kind := IsDataLoader; loader_items := one_token_each n l;
                loader_once := once |}).
  assert (Hlen : length (loader_items d) = length l).
  { unfold d, one_token_each. simpl. by rewrite length_fmap. }
  destruct (setup_constructed DataFetcher true (Z.of_nat D) sod d b2d eq_refl)
    as (self1 & Hs & Hc1 & HD1 & Hd1 & Hft & _).
  destruct (constructed_enter DataFetcher true (Z.of_nat D) sod d b2d eq_refl)
    as (self1' & self2 & Hs' & Hi & _ & _ & _ & _ & Hb & _); [lia|].
  rewrite Hs in Hs'. injection Hs' as <-.
  pose proof (setup_constructed_untouched DataFetcher true (Z.of_nat D) sod d b2d)
    as Hleft.
  rewrite Hs in Hleft. cbn [snd] in Hleft.
  pose proof (__iter___tracking self1 D n l once ltac:(by rewrite Hc1) Hd1 Hleft Hft HD1)
    as Ht.
  rewrite Hi in Ht. simpl in Ht.
  assert (Hpl : length (map fst (loader_items d)) = length l) by (by rewrite length_map).
  destruct (drive_buffering_partial _ self2 K Hb) as (self' & Hd & _); [lia|].
  pose proof (drive_tracking D n l (map fst (loader_items d)) self2 K _ Hb ltac:(lia) Ht)
    as Ht'.
  rewrite Hd in Ht'. simpl in Ht'.
  replace (Nat.min (Nat.min D (length l) + K) (length l))
    with (Nat.min (D + K) (length l)) in Ht' by lia.
  destruct Ht' as (_ & _ & _ & it & Hit & _ & _ & Hcs & _ & Hpv).
  destruct (Nat.min (D + K) (length l)) as [|P'] eqn:HP; [lia|].
  eexists _, self', it. split_and!; try done.
  - unfold consume, for_loop. fold d. rewrite Hs, Hi. exact Hd.
  - rewrite Hcs. unfold buffered. simpl. rewrite lookup_singleton_eq. simpl.
    rewrite length_drop, length_take. lia.
Qed.


(** ** The first pass in overlap mode *)

(** What a pass of an overlapping fetcher has waited for after [k] batches
    are handed over. *)
Lemma overlapping_waited L self pending :
  overlapping L self ->
  buffering self pending ->
  (length pending <= L)%nat ->
  length (events self) = length (batches self)
  /\ waited (env_log self) = seq 0 (L - length pending)
  /\ (pending = [] -> events self = [] /\ recorded (env_log self) = seq 0 L).
Proof.
  intros (Ho & it & Hit & Hw & Hrec & Hcr & HL) (Hc & it' & Hit' & Hp & Hd & Hb & He) Hlen.
  rewrite Hit in Hit'. injection Hit' as <-. specialize (He Ho).
  assert (Hpl : length pending = (length (batches self) + length (remaining it))%nat).
  { by rewrite <- Hp, length_app, length_map. }
  assert (Hwl : (length (waited (env_log self)) + length (events self))%nat
                = length (recorded (env_log self))).
  { by rewrite <- Hw, length_app. }
  split; [done|]. split.
  - apply (f_equal (take (L - length pending))) in Hw.
    rewrite take_app_le, take_ge in Hw by lia. rewrite Hw, Hrec, take_seq.
    f_equal. lia.
  - intros ->. simpl in Hpl. destruct (events self); [|simpl in *; lia].
    split; [done|]. rewrite Hrec. f_equal.
    destruct (remaining it); simpl in *; lia.
Qed.

(** X13: in overlap mode, on the first pass of a new fetcher of any depth
    [D >= 1] over a source of [N] batches, the pass driven to completion
    hands over the [N] batches in source order, records the events of the
    [N] successful pulls in the order of their creation and waits exactly
    [N] times, the [i]-th wait on the event of the [i]-th pull; the [k]-th
    wait is made by the [k]-th call of [next], the one that pops the [k]-th
    batch. *)
Theorem InterBatchParallelDataFetcher_waits_in_fetch_order
    (ft : bool) (D : Z) (sod : bool) (d : Dataloader)
    (b2d : option (Batch -> Batch)) (fuel : nat) :
  1 <= D ->
  (length (loader_items d) < fuel)%nat ->
  exists self0,
    new_InterBatchParallelDataFetcher ft D sod = Return self0
    /\ (exists outs self',
          consume fuel d b2d self0 = (outs, Some StopIteration, self')
          /\ outs = pairs (placement sod b2d) (fst <$> loader_items d)
          /\ recorded (env_log self') = seq 0 (length (loader_items d))
          /\ waited (env_log self') = seq 0 (length (loader_items d))
          /\ events self' = [])
    /\ (forall k, (k <= length (loader_items d))%nat ->
        exists outs self',
          consume k d b2d self0 = (outs, None, self')
          /\ outs = take k (pairs (placement sod b2d) (fst <$> loader_items d))
          /\ waited (env_log self') = seq 0 k).
Proof.
  intros HD Hfuel. exists (constructed InterBatchParallelDataFetcher ft D sod).
  split_and!.
  - by apply new_InterBatchParallelDataFetcher_constructed.
  - destruct (consume_constructed InterBatchParallelDataFetcher ft D sod d b2d fuel
                eq_refl HD Hfuel) as (self' & Hc & Hb & _ & _ & Ho).
    destruct (overlapping_waited _ _ _ (Ho eq_refl) Hb) as (_ & Hw & He); [simpl; lia|].
    destruct (He eq_refl) as [He1 He2].
    eexists _, self'. split_and!; try done. by rewrite Hw, Nat.sub_0_r.
  - intros k Hk.
    destruct (consume_constructed_partial InterBatchParallelDataFetcher ft D sod d b2d k
                eq_refl HD Hk) as (self' & Hc & Hb & _ & _ & _ & Ho).
    destruct (overlapping_waited _ _ _ (Ho eq_refl) Hb) as (_ & Hw & _).
    { rewrite length_drop, length_fmap. lia. }
    eexists _, self'. split_and!; try done.
    rewrite Hw, length_drop, length_fmap. f_equal. lia.
Qed.


(** ** Events left over from an abandoned pass *)

Lemma events_from_pull es0 W0 R0 L self self' it x tokens rest :
  events_from es0 W0 R0 L self ->
  cls self = InterBatchParallelDataFetcher ->
  dataloader_iter self = Some it ->
  remaining it = (x, tokens) :: rest ->
  dataloader_iter self' = Some (pulled self it tokens rest) ->
  events self' = events self ++ new_event self ->
  env_log self' = env_log self ++ map EventRecord (new_event self) ->
  events_from es0 W0 R0 L self'.
Proof.
  intros (it' & ws & rs & Hit' & Hw & Hrec & Hwe & HL) Hc Hit Hr Hi Hes Hlg.
  rewrite Hit in Hit'. injection Hit' as <-. rewrite Hr in HL.
  destruct (pulled_frame self it tokens rest) as [Hpr _].
  assert (Hne : new_event self = [env_events_created self]).
  { apply new_event_overlaps. by rewrite Hc. }
  exists (pulled self it tokens rest), ws, (rs ++ [env_events_created self]).
  rewrite Hlg, Hes, Hne, Hpr, waited_app, recorded_app, waited_EventRecord,
    recorded_EventRecord, app_nil_r, Hw, Hrec.
  split_and!; try done.
  - by rewrite app_assoc.
  - by rewrite !app_assoc, Hwe.
  - rewrite length_app. simpl in *. lia.
Qed.

Lemma prefetching_loop_events_from es0 W0 R0 L n : forall self,
  cls self = InterBatchParallelDataFetcher ->
  events_from es0 W0 R0 L self ->
  events_from es0 W0 R0 L (snd (prefetching_loop n self)).
Proof.
  induction n as [|n IH]; intros self Hc Hev; simpl; [done|].
  pose proof Hev as (it & ws & rs & Hit & Hw & Hrec & Hwe & HL).
  destruct (remaining it) as [|[x tokens] r] eqn:Hr.
  - destruct (_fetch_next_batch_none self it)
      as (self1 & Hf & Hs & Hi & Hn & Hdn & Hbs & Hes & Hec & Hlg);
      [by rewrite Hc|done..|].
    rewrite Hf. cbn [snd]. exists it, ws, rs. rewrite Hlg, Hes, Hr. by split_and!.
  - destruct (_fetch_next_batch_some self it x tokens r)
      as (self1 & Hf & Hs & Hi & Hn & Hdn & Hbs & Hes & Hec & Hlg);
      [by rewrite Hc|done..|].
    rewrite Hf. apply IH; [by rewrite (proj1 Hs)|].
    by apply (events_from_pull _ _ _ _ self self1 it x tokens r).
Qed.

Lemma carrying_next m es0 W0 R0 L self b rest :
  carrying m self (b :: rest) ->
  events_from es0 W0 R0 L self ->
  exists self',
    __next__ self = (Return (BatchIsLast (moved self b) (is_nil rest)), self')
    /\ carrying m self' rest
    /\ events_from es0 W0 R0 L self'
    /\ same_settings self self'.
Proof.
  intros (Hc & it & Hit & Hp & Hd & Hb & He) (it' & ws & rs & Hit' & Hw & Hrec & Hwe & HL).
  rewrite Hit in Hit'. injection Hit' as <-.
  destruct (batches self) as [|b0 bs] eqn:Hbs.
  { rewrite (Hb eq_refl) in Hp. discriminate. }
  simpl in Hp. injection Hp as -> Hp.
  assert (Hpf : prefetches (cls self) = true) by (by rewrite Hc).
  assert (Hov : overlaps (cls self) = true) by (by rewrite Hc).
  assert (Hev : overlaps (cls self) = true -> events self <> []).
  { intros _. destruct (events self); [simpl in He; lia|done]. }
  pose proof (new_event_overlaps _ Hov) as Hne.
  unfold __next__. destruct (done self) eqn:Hdn.
  - destruct (fetching_function_drain self b bs)
      as (self' & Hf & Hs & Hi & Hn & Hdn' & Hbs' & Hes & Hec & Hlg); [done..|].
    rewrite (Hd eq_refl) in Hp, HL. simpl in Hp. rewrite app_nil_r in Hp. subst rest.
    exists self'. rewrite Hne in Hes, Hlg. simpl in Hes, Hlg.
    split_and!; try done.
    + split; [by rewrite (proj1 Hs)|]. exists it. rewrite Hi, Hbs', (Hd eq_refl).
      split_and!; try done. { simpl. by rewrite app_nil_r. }
      rewrite Hes, length_drop, He. simpl. lia.
    + exists it, (ws ++ take 1 (events self)), rs. rewrite Hi, Hlg, Hes.
      rewrite waited_app, recorded_app, waited_EventWait, recorded_EventWait, app_nil_r,
        Hw, Hrec, (Hd eq_refl).
      split_and!; try done.
      * by rewrite app_assoc.
      * by rewrite <- app_assoc, take_drop.
  - destruct (remaining it) as [|[x tokens] r] eqn:Hr.
    + destruct (fetching_function_exhaust self b bs it)
        as (self' & Hf & Hs & Hi & Hn & Hdn' & Hbs' & Hes & Hec & Hlg); [done..|].
      simpl in Hp. rewrite app_nil_r in Hp. subst rest.
      exists self'. rewrite Hne in Hes, Hlg. simpl in Hes, Hlg.
      split_and!; try done.
      * split; [by rewrite (proj1 Hs)|]. exists it. rewrite Hi, Hbs', Hr.
        split_and!; try done. { simpl. by rewrite app_nil_r. }
        rewrite Hes, length_drop, He. simpl. lia.
      * exists it, (ws ++ take 1 (events self)), rs. rewrite Hi, Hlg, Hes.
        rewrite waited_app, recorded_app, waited_EventWait, recorded_EventWait, app_nil_r,
          Hw, Hrec, Hr.
        split_and!; try done.
        -- by rewrite app_assoc.
        -- by rewrite <- app_assoc, take_drop.
    + destruct (fetching_function_refill self b bs it x tokens r)
        as (self' & Hf & Hs & Hi & Hn & Hdn' & Hbs' & Hes & Hec & Hlg); [done..|].
      destruct (pulled_frame self it tokens r) as [Hpr Hpp].
      assert (is_nil rest = false) as ->.
      { subst rest. unfold is_nil. rewrite length_app. simpl. apply Nat.eqb_neq. lia. }
      exists self'. rewrite Hne in Hes, Hlg. simpl in Hes, Hlg, HL.
      split_and!; try done.
      * split; [by rewrite (proj1 Hs)|]. eexists. split; [exact Hi|].
        rewrite Hpr, Hbs', Hdn'. split_and!; try done.
        -- subst rest. simpl. by rewrite <- app_assoc.
        -- intros Hnil. by destruct bs.
        -- rewrite Hes, length_drop, !length_app, He. simpl. lia.
      * exists (pulled self it tokens r),
          (ws ++ take 1 (events self ++ [env_events_created self])),
          (rs ++ [env_events_created self]).
        rewrite Hi, Hlg, Hes, Hpr.
        rewrite !waited_app, !recorded_app. simpl.
        rewrite waited_EventWait, recorded_EventWait, Hw, Hrec.
        split_and!; try done.
        -- by rewrite app_assoc.
        -- by rewrite <- app_assoc.
        -- by rewrite <- app_assoc, take_drop, !app_assoc, Hwe.
        -- rewrite length_app. simpl. lia.
Qed.

Lemma drive_carrying m es0 W0 R0 L pending : forall self fuel,
  carrying m self pending ->
  events_from es0 W0 R0 L self ->
  (length pending < fuel)%nat ->
  exists self',
    drive fuel self = (pairs (moved self) pending, Some StopIteration, self')
    /\ carrying m self' []
    /\ events_from es0 W0 R0 L self'.
Proof.
  induction pending as [|b rest IH]; intros self fuel Hc He Hfuel.
  - destruct fuel as [|fuel]; [simpl in Hfuel; lia|]. simpl.
    destruct Hc as (Hcl & it & Hit & Hp & Hrest).
    rewrite fetching_function_empty; [|by rewrite Hcl|by destruct (batches self)].
    exists self. split_and!; try done. split; [done|]. by exists it.
  - destruct fuel as [|fuel]; [simpl in Hfuel; lia|]. simpl.
    destruct (carrying_next _ _ _ _ _ _ _ _ Hc He) as (self1 & Hn & Hc1 & He1 & Hs1).
    rewrite Hn.
    destruct (IH self1 fuel Hc1 He1) as (self' & Hd & Hc' & He'); [simpl in Hfuel; lia|].
    rewrite Hd, (moved_same_settings _ _ Hs1). by exists self'.
Qed.

(** X11: over a source that can be replayed, an
    [InterBatchParallelDataFetcher] that enters a pass still holding events
    (those a pass abandoned before its end left unwaited, which [reset] does
    not drop) hands over the right pairs, but waits on the events in the
    order they lie in the list, the old ones first: the [L] waits of the
    pass are the first [L] of the old events followed by the [L] events
    recorded in the pass, and as many events as were held on entry are
    still held when the pass has ended. *)
Theorem InterBatchParallelDataFetcher_waits_on_leftover_events_first
    (self : Fetcher) (d : Dataloader) (fuel : nat) :
  cls self = InterBatchParallelDataFetcher ->
  _dataloader self = Some d ->
  loader_once d = None ->
  1 <= prefetch_batches self ->
  (length (loader_items d) < fuel)%nat ->
  exists self' rs,
    for_loop fuel self
    = (pairs (moved self) (fst <$> loader_items d), Some StopIteration, self')
    /\ recorded (env_log self') = recorded (env_log self) ++ rs
    /\ length rs = length (loader_items d)
    /\ waited (env_log self')
       = waited (env_log self) ++ take (length (loader_items d)) (events self ++ rs)
    /\ events self' = drop (length (loader_items d)) (events self ++ rs)
    /\ length (events self') = length (events self).
Proof.
  intros Hc Hd Hrep HD Hfuel.
  assert (Hpf : prefetches (cls self) = true) by (by rewrite Hc).
  pose proof (__iter___prefetching_loop _ _ Hpf Hd) as Hi.
  destruct (entered_iter self d) as (it & Hit & Hr0 & _).
  rewrite (items_left_replayed _ _ Hrep) in Hr0.
  destruct (entered_log self d) as [Hlr Hlw].
  set (n := Z.to_nat (prefetch_batches self)) in *.
  assert (Hn : exists j, n = S j) by (exists (Z.to_nat (prefetch_batches self - 1)); lia).
  destruct Hn as [j Hj].
  assert (Hev0 : events_from (events self) (waited (env_log self)) (recorded (env_log self))
                   (length (loader_items d)) (entered self d)).
  { exists it, [], []. rewrite Hlr, Hlw, Hr0, !app_nil_r. by split_and!. }
  pose proof (prefetching_loop_events_from _ _ _ _ n (entered self d) Hc Hev0) as Hev1.
  destruct (prefetching_loop_spec n (entered self d) it Hpf Hit)
    as (self1 & it1 & Hl & Hs & Hi1 & Hr & Hp & Hbs & Hdn & Hes & _).
  rewrite Hl in Hi, Hev1. cbn [snd] in Hev1.
  change (batches (entered self d))
    with (if prefetches (cls self) then [] else batches self) in Hbs.
  rewrite Hpf in Hbs. simpl in Hbs.
  change (cls (entered self d)) with (cls self) in Hes.
  change (events (entered self d)) with (events self) in Hes.
  change (done (entered self d)) with false in Hdn.
  rewrite Hr0 in *.
  assert (Hcar : carrying (length (events self)) self1 (map fst (loader_items d))).
  { split; [by rewrite (proj1 Hs)|]. exists it1. rewrite Hr, Hbs, Hdn.
    split_and!; try done.
    - by rewrite <- map_app, take_drop.
    - rewrite Hj. destruct (loader_items d); [done|discriminate].
    - rewrite Hes, length_map by (by rewrite Hc). done. }
  destruct (drive_carrying _ _ _ _ _ _ self1 fuel Hcar Hev1) as (self' & Hdr & Hcar' & Hev');
    [by rewrite length_map|].
  destruct Hcar' as (_ & it' & Hit' & Hp' & _ & Hb' & He').
  destruct (batches self') as [|? ?] eqn:Hbs'; [|discriminate].
  destruct Hev' as (it'' & ws & rs & Hit'' & Hw & Hrec & Hwe & HL).
  rewrite Hit' in Hit''. injection Hit'' as <-.
  rewrite (Hb' eq_refl) in HL. simpl in HL, He'.
  assert (Hwl : length ws = length (loader_items d)).
  { apply (f_equal length) in Hwe. rewrite !length_app in Hwe. lia. }
  exists self', rs. split_and!.
  - unfold for_loop. rewrite Hi, Hdr.
    assert (same_settings self self1) as Hss
      by (apply (same_settings_trans _ (entered self d)); [by repeat split|done]).
    by rewrite (moved_same_settings _ _ Hss).
  - done.
  - lia.
  - rewrite Hw, <- Hwe, <- Hwl, take_app_length. done.
  - by rewrite <- Hwe, <- Hwl, drop_app_length.
  - lia.
Qed.


(** ** Overlap mode and the synchronous fetcher *)

(** X12: overlap mode changes when a batch is waited for, not what is
    handed over: for every depth [D >= 1] and every source, an
    [InterBatchParallelDataFetcher] hands over exactly the pairs a
    [DataFetcher] of the same depth does, then raises [StopIteration]. *)
Theorem InterBatchParallelDataFetcher_hands_over_the_same_pairs
    (ft : bool) (D : Z) (sod : bool) (d : Dataloader)
    (b2d : option (Batch -> Batch)) (fuel : nat) :
  1 <= D ->
  (length (loader_items d) < fuel)%nat ->
  exists self1 self2 outs end1 end2,
    new_DataFetcher ft D sod = Return self1
    /\ new_InterBatchParallelDataFetcher ft D sod = Return self2
    /\ consume fuel d b2d self1 = (outs, Some StopIteration, end1)
    /\ consume fuel d b2d self2 = (outs, Some StopIteration, end2)
    /\ length outs = length (loader_items d).
Proof.
  intros HD Hfuel.
  destruct (consume_constructed DataFetcher ft D sod d b2d fuel eq_refl HD Hfuel)
    as (end1 & Hc1 & _).
  destruct (consume_constructed InterBatchParallelDataFetcher ft D sod d b2d fuel
              eq_refl HD Hfuel) as (end2 & Hc2 & _).
  eexists _, _, _, end1, end2. split_and!.
  - by apply new_DataFetcher_constructed.
  - by apply new_InterBatchParallelDataFetcher_constructed.
  - exact Hc1.
  - exact Hc2.
  - by rewrite pairs_length, length_fmap.
Qed.

(** ** A source that cannot be replayed *)

Lemma consuming_frame id d self self' :
  _dataloader self' = _dataloader self ->
  dataloader_iter self' = dataloader_iter self ->
  env_left self' = env_left self ->
  consuming id d self -> consuming id d self'.
Proof.
  intros Hd Hi Hl (Hs & Hk & it & Hit & Hid & Hleft).
  split_and!; [by rewrite Hd|done|]. exists it. split_and!; [by rewrite Hi|done|].
  unfold items_left in *. by rewrite Hl.
Qed.

Lemma entered_consuming id d self :
  _dataloader self = Some d ->
  loader_once d = Some id ->
  consuming id d (entered self d).
Proof.
  intros Hd Hk. split_and!; [done..|].
  unfold entered, iter. simpl. destruct (patches self d); eexists; by split_and!.
Qed.

(** A pull, whether it returns or raises, leaves the source where the
    cursor stands. *)
Lemma _fetch_next_batch_consuming id d self :
  consuming id d self -> consuming id d (snd (_fetch_next_batch self)).
Proof.
  intros (Hd & Hk & it & Hit & Hid & Hleft). expose self. subst.
  destruct (remaining it) as [|[x tokens] r] eqn:Hr;
    destruct c;
    unfold _fetch_next_batch, bind, on_fetch_start, next_dataloader_iter, modify,
      on_fetch_end, DataFetcher_on_fetch_end, InterBatchParallelDataFetcher_on_fetch_end,
      InterBatchParallelDataFetcher_on_fetch_start, ret, bind, modify;
    simpl;
    rewrite ?(next__none _ _ Hr), ?(next__some _ _ _ _ _ Hr); simpl;
    unfold pulled_from; rewrite ?pulled_iterator_id, Hid; simpl;
    (split_and!; [done..|]); eexists; (split; [reflexivity|]);
    rewrite ?pulled_iterator_id; (split; [done|]);
    unfold items_left; rewrite Hk; simpl; rewrite lookup_insert_eq; simpl;
    try done; by destruct (pulled_frame
                             {| cls := c; prefetch_batches := D; _dataloader := Some d;
                                dataloader_iter := Some it; fetched := n; done := dn;
                                store_on_device := sod; batch_to_device := b2d;
                                batches := bs; events := es; iterator := w;
                                env_fault_tolerant := ft; env_left := lf;
                                env_events_created := ec; env_log := lg |}
                             it tokens r) as [-> _].
Qed.

Lemma prefetching_loop_consuming id d n : forall self,
  consuming id d self -> consuming id d (snd (prefetching_loop n self)).
Proof.
  induction n as [|n IH]; intros self Hc; simpl; [done|].
  pose proof (_fetch_next_batch_consuming _ _ _ Hc) as H1.
  destruct (_fetch_next_batch self) as [[[]|e] self1]; simpl in *.
  - by apply IH.
  - by destruct e.
Qed.

Lemma __next___consuming id d self :
  consuming id d self -> consuming id d (snd (__next__ self)).
Proof.
  intros Hc. unfold __next__, fetching_function.
  destruct (cls self) eqn:Hcls;
    [| |unfold DataLoaderIterDataFetcher_fetching_function;
        by destruct (negb (done self)), (iterator self)];
    unfold DataFetcher_fetching_function;
    (destruct (batches self) as [|b rest]; [done|]);
    unfold bind, modify, try_except_StopIteration, move_to_device,
      DataFetcher_move_to_device, wait, InterBatchParallelDataFetcher_wait, ret;
    simpl; rewrite ?Hcls;
    (assert (H0 : consuming id d (set_batches rest self))
       by (by apply (consuming_frame id d self)));
    destruct (done self).
  all: try (destruct (dataloader_iter self); [|done]).
  all: try (pose proof (_fetch_next_batch_consuming _ _ _ H0) as H1;
            destruct (_fetch_next_batch (set_batches rest self)) as [[[]|[]] self1];
            simpl in * ).
  all: repeat match goal with
         | |- context [cls ?s] => let E := fresh in destruct (cls s) eqn:E
         | |- context [events ?s] => let E := fresh in destruct (events s) eqn:E
         | |- context [store_on_device ?s] =>
             let E := fresh in destruct (store_on_device s) eqn:E
         end; simpl; try done.
  all: try (eapply consuming_frame; [| | |eassumption]; done).
Qed.

Lemma drive_consuming id d fuel : forall self,
  consuming id d self -> consuming id d (snd (drive fuel self)).
Proof.
  induction fuel as [|fuel IH]; intros self Hc; simpl; [done|].
  pose proof (__next___consuming _ _ _ Hc) as H1.
  destruct (__next__ self) as [[x|e] self1]; simpl in *; [|done].
  specialize (IH self1 H1). by destruct (drive fuel self1) as [[xs e] self2].
Qed.

(** X14: a source that cannot be replayed, a generator say, is consumed by
    the pulls.  When a pass of a new [DataFetcher] of depth [D] over one
    that holds [L] items is abandoned after [k <= L] batches, the fetcher
    has pulled [min (D + k) L] of them; the next [for] loop, with or
    without a [teardown] in between, hands over only the batches from
    position [D + k] on, flagged as a pass of their own: the batches
    handed over before and the up to [D] batches that were buffered are
    not seen again, and nothing at all is handed over once [D + k >= L]. *)
Theorem DataFetcher_second_pass_over_an_iterator
    (ft : bool) (D : nat) (sod : bool) (id : nat)
    (items : list (Batch * list IteratorState))
    (b2d : option (Batch -> Batch)) (k fuel : nat) :
  (1 <= D)%nat ->
  (k <= length items)%nat ->
  (length items < fuel)%nat ->
  let d := {| loader_kind := IsIterable; loader_items := items;
              loader_once := Some id |} in
  exists self0 self1,
    new_DataFetcher ft (Z.of_nat D) sod = Return self0
    /\ consume k d b2d self0
       = (take k (pairs (placement sod b2d) (fst <$> items)), None, self1)
    /\ (exists self2,
          for_loop fuel self1
          = (pairs (placement sod b2d) (fst <$> drop (D + k) items),
             Some StopIteration, self2))
    /\ (exists self1' self2,
          teardown self1 = (Return tt, self1')
          /\ for_loop fuel self1'
             = (pairs (placement sod b2d) (fst <$> drop (D + k) items),
                Some StopIteration, self2)).
Proof.
  intros HD Hk Hfuel d.
  destruct (setup_constructed DataFetcher ft (Z.of_nat D) sod d b2d eq_refl)
    as (s1 & Hs & Hc1 & HD1 & Hd1 & _).
  destruct (constructed_enter DataFetcher ft (Z.of_nat D) sod d b2d eq_refl)
    as (s1' & s2 & Hs' & Hi & Hc2 & HD2 & Hd2 & Hm & Hb & _); [lia|].
  rewrite Hs in Hs'. injection Hs' as <-.
  pose proof (setup_constructed_untouched DataFetcher ft (Z.of_nat D) sod d b2d) as Hleft.
  rewrite Hs in Hleft. cbn [snd] in Hleft.
  (* the buffer and the cursor after [k] batches *)
  pose proof (__iter___lookahead s1 d D ltac:(by rewrite Hc1) Hd1 HD1) as Hl.
  rewrite (items_left_untouched _ _ Hleft), Hi in Hl. cbn [snd] in Hl.
  assert (Hlen : length (map fst (loader_items d)) = length items) by apply length_map.
  assert (Hk1 : (k <= length (map fst (loader_items d)))%nat) by (rewrite Hlen; lia).
  assert (Hk2 : (0 + length (map fst (loader_items d)) <= length items)%nat)
    by (rewrite Hlen; lia).
  pose proof (drive_lookahead D items (map fst (loader_items d)) s2 0 k Hb Hk1 Hk2 Hl)
    as Hl'.
  (* the source follows the cursor *)
  assert (Hcs : consuming id d s2).
  { pose proof (__iter___prefetching_loop s1 d ltac:(by rewrite Hc1) Hd1) as Hp.
    rewrite Hi in Hp.
    pose proof (prefetching_loop_consuming id d (Z.to_nat (prefetch_batches s1))
                  (entered s1 d) (entered_consuming id d s1 Hd1 eq_refl)) as Hcs.
    by rewrite <- Hp in Hcs. }
  pose proof (drive_consuming id d k s2 Hcs) as Hcs'.
  destruct (drive_buffering_partial _ s2 k Hb) as (self1 & Hdr & _ & Hss & _);
    [by rewrite Hlen|].
  rewrite Hdr in Hl', Hcs'. cbn [snd] in Hl', Hcs'.
  destruct Hl' as (_ & _ & _ & it & Hit & Hr).
  destruct Hcs' as (Hd' & _ & it' & Hit' & _ & Hil).
  rewrite Hit in Hit'. injection Hit' as <-. simpl in Hr. rewrite Hr in Hil.
  assert (Hloop : forall s : Fetcher,
            same_settings self1 s -> env_left s = env_left self1 ->
            exists s', for_loop fuel s
                       = (pairs (placement sod b2d) (fst <$> drop (D + k) items),
                          Some StopIteration, s')).
  { intros s Hsame Hle. pose proof Hsame as (Hcs1 & HDs & Hds & _).
    pose proof Hss as (Hcs2 & HDs2 & _).
    assert (Hil' : items_left s d = drop (D + k) items).
    { rewrite <- Hil. unfold items_left. by rewrite Hle. }
    destruct (__iter___prefetching s d) as (s3 & Hi3 & Hs3 & Hb3 & _).
    - by rewrite Hcs1, Hcs2, Hc2.
    - by rewrite Hds.
    - rewrite HDs, HDs2, HD2. lia.
    - rewrite Hcs1, Hcs2, Hc2. discriminate.
    - rewrite Hil' in Hb3.
      destruct (drive_buffering _ s3 fuel Hb3) as (s' & Hdr3 & _).
      { rewrite length_map, length_drop. lia. }
      exists s'. unfold for_loop. rewrite Hi3, Hdr3.
      by rewrite (moved_same_settings _ _ Hs3), (moved_same_settings _ _ Hsame),
           (moved_same_settings _ _ Hss), Hm. }
  exists (constructed DataFetcher ft (Z.of_nat D) sod), self1. split_and!.
  - apply new_DataFetcher_constructed. lia.
  - unfold consume, for_loop. by rewrite Hs, Hi, Hdr, Hm.
  - apply Hloop; [apply same_settings_refl|done].
  - destruct (teardown_bound self1 d Hd') as (self1' & Ht & Hsame & _ & _ & _ & _ & _ & Hle).
    destruct (Hloop self1' Hsame Hle) as [s' Hl1]. by exists self1', s'.
Qed.

End Fetching.

(** * Instances

    Each theorem with a hypothesis is applied to the source [[a; b; c]] of
    the spec's scenario; the claims the code does not satisfy are refuted
    on it. *)

Lemma DataFetcher_hands_over_each_batch_and_flags_the_last_witness :
  1 <= 2
  /\ (3 < 4)%nat
  /\ exists self0 outs self',
       new_DataFetcher true 2 true = Return self0
       /\ consume 4 (abc "a" "b" "c") None self0 = (outs, Some StopIteration, self')
       /\ length outs = 3%nat
       /\ forall i b,
            (fst <$> loader_items (abc "a" "b" "c")) !! i = Some b ->
            outs !! i = Some (BatchIsLast (placement true None b) (S i =? 3)%nat).
Proof.
  split; [lia|]. split; [lia|].
  apply (DataFetcher_hands_over_each_batch_and_flags_the_last
           true 2 true (abc "a" "b" "c") None 4); [lia|simpl; lia].
Defined.

(** C2 fails as stated: with depth 1 and the source [[a; b; c]], once the
    consumer has been handed 1 batch the merged state holds the token of
    batch 1, the batch just handed over, not the empty state of batch
    [max 0 (1 - 1) = 0]. *)
Lemma MergedState_after_one_batch_reflects_that_batch :
  exists self0 outs self',
    new_DataFetcher true 1 true = Return self0
    /\ consume 1 (abc "a" "b" "c") None self0 = (outs, None, self')
    /\ outs = [BatchIsLast "a" false]
    /\ AbstractDataFetcher_state self' = (Return [{["w" := token "w" 1]}], self')
    /\ [{["w" := token "w" 1]}]
       <> [MergedState_as_specified "w" (tokens_of "w" (abc_positions "a" "b" "c")) 1 1].
Proof.
  eexists _, _, _. split; [reflexivity|]. split; [vm_compute; reflexivity|].
  split; [reflexivity|]. split; [vm_compute; reflexivity|].
  intros H.
  apply (f_equal (fun ms => match ms with [m] => m !! "w" | _ => None end)) in H.
  vm_compute in H. discriminate H.
Qed.

Lemma MergedState_lags_the_pulls_by_the_depth_witness :
  (1 <= 1)%nat
  /\ (1 <= 3)%nat
  /\ (1 <= 3)%nat
  /\ exists self0 outs self',
       new_DataFetcher true 1 true = Return self0
       /\ consume 1 (abc "a" "b" "c") None self0 = (outs, None, self')
       /\ fetched self' = 2
       /\ AbstractDataFetcher_state self' = (Return [{["w" := token "w" 1]}], self').
Proof.
  split; [lia|]. split; [lia|]. split; [lia|].
  destruct (MergedState_lags_the_pulls_by_the_depth
              1 true "w" (abc_positions "a" "b" "c") None None 1)
    as [(self0 & outs & self' & Hn & Hc & _ & Hf & Hs & _) _]; [lia|simpl; lia|simpl; lia|].
  exists self0, outs, self'. split; [exact Hn|]. split; [exact Hc|].
  split; [exact Hf|exact Hs].
Defined.

(** C3 fails on the code: [reset] and [teardown] leave the events of an
    abandoned pass in the list.  An [InterBatchParallelDataFetcher] of depth
    2 over [[a; b; c]] that is torn down after one batch still holds the
    events 1 and 2, those of [b] and [c]; its next pass, driven to
    completion, hands the three batches over and records the events 3, 4
    and 5 for its three pulls, but waits on 1, 2 and 3: its first wait is
    not on the event of its first pull, no batch follows a wait on the event
    of its own pull, and the events 4 and 5 are left in the list in turn. *)
Lemma InterBatchParallelDataFetcher_waits_on_stale_events :
  exists self0 self1 self2 self3,
    new_InterBatchParallelDataFetcher true 2 true = Return self0
    /\ consume 1 (abc "a" "b" "c") None self0 = ([BatchIsLast "a" false], None, self1)
    /\ teardown self1 = (Return tt, self2)
    /\ events self2 = [1; 2]%nat
    /\ for_loop 4 self2
       = ([BatchIsLast "a" false; BatchIsLast "b" false; BatchIsLast "c" true],
          Some StopIteration, self3)
    /\ recorded (env_log self3) = recorded (env_log self2) ++ [3; 4; 5]%nat
    /\ waited (env_log self3) = waited (env_log self2) ++ [1; 2; 3]%nat
    /\ events self3 = [4; 5]%nat.
Proof.
  set (self0 := constructed (Batch:=string) InterBatchParallelDataFetcher true 2 true).
  set (self1 := snd (consume 1 (abc "a" "b" "c") None self0)).
  set (self2 := snd (teardown self1)).
  set (self3 := snd (for_loop 4 self2)).
  exists self0, self1, self2, self3. split_and!; vm_compute; reflexivity.
Qed.

Lemma DataFetcher_pairs_do_not_depend_on_the_depth_witness :
  1 <= 1
  /\ 1 <= 2
  /\ (3 < 4)%nat
  /\ exists self1 self2 outs end1 end2,
       new_DataFetcher true 1 true = Return self1
       /\ new_DataFetcher true 2 true = Return self2
       /\ consume 4 (abc "a" "b" "c") None self1 = (outs, Some StopIteration, end1)
       /\ consume 4 (abc "a" "b" "c") None self2 = (outs, Some StopIteration, end2).
Proof.
  split; [lia|]. split; [lia|]. split; [lia|].
  apply (DataFetcher_pairs_do_not_depend_on_the_depth
           true 1 2 true (abc "a" "b" "c") None 4); [lia|lia|simpl; lia].
Defined.

(** C5 fails as stated, in two ways.  In caller-driven mode over
    [[a; b; c]], a consumer that does not pull through the wrapper is handed
    [(0, (wrapper, false))] by every call of [next], however many it makes:
    [StopIteration] is never raised.  And a [DataFetcher] that has raised
    [StopIteration] at the end of its pass raises it again when it is
    called once more: the signal is not raised once only. *)
Lemma fetching_function_may_never_raise_and_raises_again :
  (forall fuel, exists self0 self',
      new_DataLoaderIterDataFetcher true = Return self0
      /\ consume fuel (abc "a" "b" "c") None self0
         = (replicate fuel (IterAndDone 0 StepFuncWrapper false), None, self'))
  /\ exists self0 self',
       new_DataFetcher true 1 true = Return self0
       /\ consume 4 (abc "a" "b" "c") None self0
          = ([BatchIsLast "a" false; BatchIsLast "b" false; BatchIsLast "c" true],
             Some StopIteration, self')
       /\ __next__ self' = (Raise StopIteration, self').
Proof.
  split.
  - intros fuel.
    destruct (constructed_enter_caller_driven true (abc "a" "b" "c") None)
      as (self1 & self2 & Hs & Hi & Hcd).
    exists (constructed DataLoaderIterDataFetcher true 0 false), self2.
    split; [reflexivity|]. unfold consume, for_loop. rewrite Hs, Hi.
    apply (drive_caller_driven _ 0 self2 fuel Hcd).
  - set (self0 := constructed (Batch:=string) DataFetcher true 1 true).
    exists self0, (snd (consume 4 (abc "a" "b" "c") None self0)).
    split_and!; vm_compute; reflexivity.
Qed.

Lemma fetching_function_raises_StopIteration_at_the_end_only_witness :
  1 <= 1
  /\ (exists self0 outs self',
        new_DataFetcher true 1 true = Return self0
        /\ consume 4 (abc "a" "b" "c") None self0 = (outs, Some StopIteration, self')
        /\ length outs = 3%nat
        /\ drive 2 self' = ([], Some StopIteration, self'))
  /\ exists self0 self1 self2 rs self3,
       new_DataLoaderIterDataFetcher true = Return self0
       /\ setup (abc "a" "b" "c") None self0 = (Return tt, self1)
       /\ __iter__ self1 = (Return tt, self2)
       /\ pulls 4 self2 = (rs, self3)
       /\ rs = [Return "a"; Return "b"; Return "c"; Raise StopIteration]
       /\ fetching_function self3 = (Raise StopIteration, self3).
Proof.
  split; [lia|].
  destruct (fetching_function_raises_StopIteration_at_the_end_only
              true 1 true (abc "a" "b" "c") None)
    as ((self0 & Hn & _ & Hf) & (c0 & c1 & c2 & Hn' & Hs & Hi & Hp) & _); [lia|].
  split.
  - destruct (Hf 4%nat 1%nat) as (outs & self' & Hc & Hl & Hd); [simpl; lia|].
    exists self0, outs, self'. split; [exact Hn|]. split; [exact Hc|].
    split; [exact Hl|exact Hd].
  - destruct (Hp 4%nat) as (rs & self3 & Hp4 & _ & Hlast).
    destruct Hlast as (Hrs & _ & Hff & _); [simpl; lia|].
    exists c0, c1, c2, rs, self3.
    split; [exact Hn'|]. split; [exact Hs|]. split; [exact Hi|]. split; [exact Hp4|].
    split; [exact Hrs|exact Hff].
Defined.

Lemma DataLoaderIterDataFetcher_counts_pulls_and_stops_witness :
  (3 <= 3)%nat
  /\ exists self0 self1 self2 self3 self4,
       new_DataLoaderIterDataFetcher true = Return self0
       /\ setup (abc "a" "b" "c") None self0 = (Return tt, self1)
       /\ __iter__ self1 = (Return tt, self2)
       /\ pulls 3 self2 = ([Return "a"; Return "b"; Return "c"], self3)
       /\ fetching_function self3 = (Return (IterAndDone 3 StepFuncWrapper false), self3)
       /\ StepFuncDataLoaderIter__next__ self3 = (Raise StopIteration, self4)
       /\ fetching_function self4 = (Raise StopIteration, self4).
Proof.
  split; [lia|].
  destruct (DataLoaderIterDataFetcher_counts_pulls_and_stops
              true (abc "a" "b" "c") None 3)
    as (self0 & self1 & self2 & self3 & Hn & Hs & Hi & Hp & _ & _ & Hf & Hl);
    [simpl; lia|].
  destruct (Hl eq_refl) as (self4 & Hn4 & _ & _ & Hf4).
  exists self0, self1, self2, self3, self4.
  split; [exact Hn|]. split; [exact Hs|]. split; [exact Hi|]. split; [exact Hp|].
  split; [exact Hf|]. split; [exact Hn4|exact Hf4].
Defined.

Lemma construction_checks_the_depth_witness :
  fst (AbstractDataFetcher__init__ 0 (blank (Batch:=string) DataLoaderIterDataFetcher true))
  = Return tt
  /\ @new_DataFetcher string true 0 true = Raise MisconfigurationException
  /\ @new_InterBatchParallelDataFetcher string true 0 true = Raise MisconfigurationException.
Proof.
  destruct (@construction_checks_the_depth string DataLoaderIterDataFetcher true 0 true)
    as (_ & H0 & H1 & _).
  split; [apply H0; lia|]. apply H1. lia.
Defined.

(** C8 fails as stated: [teardown] on a fetcher that was never set up
    raises [MisconfigurationException]. *)
Lemma teardown_before_setup_raises :
  exists self0 : Fetcher (Batch:=string),
    new_DataFetcher true 1 true = Return self0
    /\ fst (teardown self0) = Raise MisconfigurationException.
Proof. eexists. split; reflexivity. Qed.

(** A [DataFetcher] of depth 2 abandoned after one of three batches: [b]
    and [c] are still buffered. *)
Lemma teardown_is_safe_once_set_up_witness :
  let self := snd (consume 1 (abc "a" "b" "c") None
                     (constructed DataFetcher true 2 true)) in
  _dataloader self = Some (abc "a" "b" "c")
  /\ batches self = ["b"; "c"]
  /\ exists self',
       teardown self = (Return tt, self')
       /\ fetched self' = 0 /\ done self' = false /\ dataloader_iter self' = None
       /\ batches self' = [].
Proof.
  intros self.
  assert (Hd : _dataloader self = Some (abc "a" "b" "c")) by (vm_compute; reflexivity).
  split; [exact Hd|]. split; [vm_compute; reflexivity|].
  destruct (teardown_is_safe_once_set_up self (abc "a" "b" "c") Hd)
    as [(self' & Ht & Hf & Hdn & Hi & Hb & _) _].
  exists self'. split; [exact Ht|]. split; [exact Hf|]. split; [exact Hdn|].
  split; [exact Hi|]. apply Hb. vm_compute. reflexivity.
Defined.

(** An [InterBatchParallelDataFetcher] of depth 2 abandoned after one of
    three batches: the events of [b] and [c] are still held, and still at
    the front of the list when the next pass has prefetched. *)
Lemma reset_leaves_the_events_witness :
  let self := snd (consume 1 (abc "a" "b" "c") None
                     (constructed InterBatchParallelDataFetcher true 2 true)) in
  _dataloader self = Some (abc "a" "b" "c")
  /\ events self = [1; 2]%nat
  /\ (exists self', reset self = (Return tt, self') /\ events self' = [1; 2]%nat)
  /\ exists new, events (snd (__iter__ self)) = [1; 2]%nat ++ new.
Proof.
  intros self.
  assert (Hd : _dataloader self = Some (abc "a" "b" "c")) by (vm_compute; reflexivity).
  assert (He : events self = [1; 2]%nat) by (vm_compute; reflexivity).
  split; [exact Hd|]. split; [exact He|].
  destruct (reset_leaves_the_events self (abc "a" "b" "c") Hd) as [_ H].
  destruct (H ltac:(vm_compute; reflexivity)) as [(self' & Hr & _ & _ & _ & He') Hn].
  split.
  - exists self'. split; [exact Hr|]. rewrite He'. exact He.
  - rewrite <- He. exact Hn.
Defined.

Lemma InterBatchParallelDataFetcher_events_match_batches_witness :
  1 <= 2
  /\ exists self0 outs e self',
       new_InterBatchParallelDataFetcher true 2 true = Return self0
       /\ consume 2 (abc "a" "b" "c") None self0 = (outs, e, self')
       /\ length (events self') = length (batches self')
       /\ e <> Some IndexError.
Proof.
  split; [lia|].
  destruct (InterBatchParallelDataFetcher_events_match_batches
              true 2 true (abc "a" "b" "c") None 2)
    as (self0 & outs & e & self' & Hn & Hc & Hl & He & _); [lia|].
  exists self0, outs, e, self'. split; [exact Hn|]. split; [exact Hc|].
  split; [exact Hl|exact He].
Defined.

(** ** Instances of the further properties *)

Lemma InterBatchParallelDataFetcher_waits_in_fetch_order_witness :
  1 <= 2
  /\ (3 < 4)%nat
  /\ exists self0 outs self',
       new_InterBatchParallelDataFetcher true 2 true = Return self0
       /\ consume 4 (abc "a" "b" "c") None self0 = (outs, Some StopIteration, self')
       /\ recorded (env_log self') = [0; 1; 2]%nat
       /\ waited (env_log self') = [0; 1; 2]%nat.
Proof.
  split; [lia|]. split; [lia|].
  destruct (InterBatchParallelDataFetcher_waits_in_fetch_order
              true 2 true (abc "a" "b" "c") None 4)
    as (self0 & Hn & (outs & self' & Hc & _ & Hr & Hw & _) & _); [lia|simpl; lia|].
  exists self0, outs, self'. split; [exact Hn|]. split; [exact Hc|].
  split; [exact Hr|exact Hw].
Defined.


Lemma __iter___before_setup_raises_witness :
  let self := constructed (Batch:=string) InterBatchParallelDataFetcher true 2 true in
  _dataloader self = None
  /\ exists self',
       __iter__ self = (Raise MisconfigurationException, self')
       /\ for_loop 3 self = ([], Some MisconfigurationException, self')
       /\ env_log self' = [].
Proof.
  intros self. split; [reflexivity|].
  destruct (__iter___before_setup_raises self 3 eq_refl)
    as (self' & Hi & Hl & _ & _ & _ & _ & Hlog).
  exists self'. split; [exact Hi|]. split; [exact Hl|exact Hlog].
Defined.

Lemma iterator_views_raise_outside_a_pass_witness :
  let self := snd (consume 1 (abc "a" "b" "c") None
                     (constructed DataFetcher true 2 true)) in
  _dataloader self = Some (abc "a" "b" "c")
  /\ exists self',
       teardown self = (Return tt, self')
       /\ loader_iters self' = (Raise MisconfigurationException, self')
       /\ AbstractDataFetcher_state self' = (Raise MisconfigurationException, self').
Proof.
  intros self.
  assert (Hd : _dataloader self = Some (abc "a" "b" "c")) by (vm_compute; reflexivity).
  split; [exact Hd|].
  destruct (iterator_views_raise_outside_a_pass self (abc "a" "b" "c") Hd)
    as [_ (self' & Ht & Hl & Hs & _)].
  exists self'. split; [exact Ht|]. split; [exact Hl|exact Hs].
Defined.

Lemma next_after_the_end_raises_again_witness :
  1 <= 2
  /\ (3 < 4)%nat
  /\ exists outs self',
       consume 4 (abc "a" "b" "c") None (constructed DataFetcher true 2 true)
       = (outs, Some StopIteration, self')
       /\ __next__ self' = (Raise StopIteration, self')
       /\ drive 5 self' = ([], Some StopIteration, self').
Proof.
  split; [lia|]. split; [lia|].
  apply (next_after_the_end_raises_again true 2 true (abc "a" "b" "c") None 4 4);
    [lia|simpl; lia].
Defined.

Lemma DataFetcher_for_loop_starts_over_witness :
  let self := snd (consume 1 (abc "a" "b" "c") None
                     (constructed DataFetcher true 2 true)) in
  cls self = DataFetcher
  /\ _dataloader self = Some (abc "a" "b" "c")
  /\ loader_once (abc "a" "b" "c") = None
  /\ 1 <= prefetch_batches self
  /\ batches self = ["b"; "c"]
  /\ exists self',
       for_loop 4 self
       = ([BatchIsLast "a" false; BatchIsLast "b" false; BatchIsLast "c" true],
          Some StopIteration, self').
Proof.
  intros self.
  assert (Hc : cls self = DataFetcher) by (vm_compute; reflexivity).
  assert (Hd : _dataloader self = Some (abc "a" "b" "c")) by (vm_compute; reflexivity).
  assert (Hr : loader_once (abc "a" "b" "c") = None) by reflexivity.
  assert (HD : 1 <= prefetch_batches self) by (vm_compute; discriminate).
  split; [exact Hc|]. split; [exact Hd|]. split; [exact Hr|]. split; [exact HD|].
  split; [vm_compute; reflexivity|].
  destruct (DataFetcher_for_loop_starts_over self (abc "a" "b" "c") 4 Hc Hd Hr HD)
    as [(self' & Hl) _]; [simpl; lia|].
  exists self'. exact Hl.
Defined.

Lemma StepFuncDataLoaderIter_keeps_raising_at_the_end_witness :
  (1 <= 2)%nat
  /\ exists self0 self1 self2 self3,
       new_DataLoaderIterDataFetcher true = Return self0
       /\ setup (abc "a" "b" "c") None self0 = (Return tt, self1)
       /\ __iter__ self1 = (Return tt, self2)
       /\ pulls 5 self2
          = ([Return "a"; Return "b"; Return "c";
              Raise StopIteration; Raise StopIteration], self3)
       /\ fetched self3 = 3
       /\ done self3 = true.
Proof.
  split; [lia|].
  destruct (StepFuncDataLoaderIter_keeps_raising_at_the_end
              true (abc "a" "b" "c") None 2)
    as (self0 & self1 & self2 & self3 & Hn & Hs & Hi & Hp & Hf & Hd & _); [lia|].
  exists self0, self1, self2, self3.
  split; [exact Hn|]. split; [exact Hs|]. split; [exact Hi|]. split; [exact Hp|].
  split; [exact Hf|exact Hd].
Defined.


Lemma DataFetcher_buffers_the_next_D_batches_witness :
  (1 <= 2)%nat
  /\ (2 <= 3)%nat
  /\ exists self0 outs self',
       new_DataFetcher true 2 true = Return self0
       /\ consume 2 (abc "a" "b" "c") None self0 = (outs, None, self')
       /\ batches self' = ["c"]
       /\ fetched self' = 3
       /\ done self' = true.
Proof.
  split; [lia|]. split; [lia|].
  destruct (DataFetcher_buffers_the_next_D_batches true 2 true (abc "a" "b" "c") None 2)
    as (self0 & outs & self' & Hn & Hc & Hb & _ & Hf & Hd); [lia|simpl; lia|].
  exists self0, outs, self'.
  split; [exact Hn|]. split; [exact Hc|]. split; [exact Hb|]. split; [exact Hf|].
  apply Hd. simpl. lia.
Defined.

Lemma state_of_an_unpatched_source_raises_witness :
  1 <= 1
  /\ loader_kind (abc "a" "b" "c") <> IsCombinedLoader
  /\ (false = false \/ loader_kind (abc "a" "b" "c") <> IsDataLoader)
  /\ exists self0 outs e self',
       new_DataFetcher false 1 true = Return self0
       /\ consume 2 (abc "a" "b" "c") None self0 = (outs, e, self')
       /\ AbstractDataFetcher_state self' = (Raise AttributeError, self').
Proof.
  split; [lia|]. split; [simpl; discriminate|]. split; [left; reflexivity|].
  apply (state_of_an_unpatched_source_raises false 1 true (abc "a" "b" "c") None 2);
    [lia|simpl; discriminate|left; reflexivity].
Defined.

Lemma buffered_tokens_and_archive_lag_witness :
  (1 <= 1)%nat
  /\ (1 <= 3)%nat
  /\ (2 <= 3)%nat
  /\ exists outs self' it,
       consume 2 (abc "a" "b" "c") None (constructed DataFetcher true 1 true)
       = (outs, None, self')
       /\ dataloader_iter self' = Some it
       /\ cache_states it = Some {["w" := [token "w" 3]]}
       /\ previous_state it = Some {["w" := token "w" 1]}.
Proof.
  split; [lia|]. split; [lia|]. split; [lia|].
  destruct (buffered_tokens_and_archive_lag
              1 true "w" (abc_positions "a" "b" "c") None None 2)
    as (outs & self' & it & Hc & Hi & Hcs & _ & Hp); [lia|simpl; lia|simpl; lia|].
  exists outs, self', it.
  split; [exact Hc|]. split; [exact Hi|]. split; [exact Hcs|exact Hp].
Defined.

(** After one of three batches of a pass of depth 2 the events 1 and 2 are
    left over; the next pass waits on 1, 2 and then 3, the event of its own
    first batch, and leaves two events again. *)
Lemma InterBatchParallelDataFetcher_waits_on_leftover_events_first_witness :
  let self := snd (consume 1 (abc "a" "b" "c") None
                     (constructed InterBatchParallelDataFetcher true 2 true)) in
  cls self = InterBatchParallelDataFetcher
  /\ _dataloader self = Some (abc "a" "b" "c")
  /\ loader_once (abc "a" "b" "c") = None
  /\ 1 <= prefetch_batches self
  /\ events self = [1; 2]%nat
  /\ exists self' rs,
       for_loop 4 self
       = ([BatchIsLast "a" false; BatchIsLast "b" false; BatchIsLast "c" true],
          Some StopIteration, self')
       /\ length rs = 3%nat
       /\ waited (env_log self') = waited (env_log self) ++ take 3 ([1; 2]%nat ++ rs)
       /\ length (events self') = 2%nat.
Proof.
  intros self.
  assert (Hc : cls self = InterBatchParallelDataFetcher) by (vm_compute; reflexivity).
  assert (Hd : _dataloader self = Some (abc "a" "b" "c")) by (vm_compute; reflexivity).
  assert (HD : 1 <= prefetch_batches self) by (vm_compute; discriminate).
  assert (He : events self = [1; 2]%nat) by (vm_compute; reflexivity).
  assert (Hr : loader_once (abc "a" "b" "c") = None) by reflexivity.
  split; [exact Hc|]. split; [exact Hd|]. split; [exact Hr|]. split; [exact HD|].
  split; [exact He|].
  destruct (InterBatchParallelDataFetcher_waits_on_leftover_events_first
              self (abc "a" "b" "c") 4 Hc Hd Hr HD)
    as (self' & rs & Hl & _ & Hrs & Hw & _ & Hlen); [simpl; lia|].
  exists self', rs. split; [exact Hl|]. split; [exact Hrs|].
  split; [rewrite <- He; exact Hw|]. rewrite Hlen, He. reflexivity.
Defined.

Lemma InterBatchParallelDataFetcher_hands_over_the_same_pairs_witness :
  1 <= 2
  /\ (3 < 4)%nat
  /\ exists self1 self2 outs end1 end2,
       new_DataFetcher true 2 true = Return self1
       /\ new_InterBatchParallelDataFetcher true 2 true = Return self2
       /\ consume 4 (abc "a" "b" "c") None self1 = (outs, Some StopIteration, end1)
       /\ consume 4 (abc "a" "b" "c") None self2 = (outs, Some StopIteration, end2)
       /\ length outs = 3%nat.
Proof.
  split; [lia|]. split; [lia|].
  apply (InterBatchParallelDataFetcher_hands_over_the_same_pairs
           true 2 true (abc "a" "b" "c") None 4); [lia|simpl; lia].
Defined.

(** A generator of [[a; b; c]] behind a [DataFetcher] of depth 1, left
    after one batch: [a] was handed over and [b] was buffered; the next loop
    hands over [c] alone, as the last batch. *)
Lemma DataFetcher_second_pass_over_an_iterator_witness :
  (1 <= 1)%nat
  /\ (1 <= 3)%nat
  /\ (3 < 4)%nat
  /\ exists self0 self1 self2,
       new_DataFetcher true 1 true = Return self0
       /\ consume 1 (abc_generator "a" "b" "c") None self0
          = ([BatchIsLast "a" false], None, self1)
       /\ for_loop 4 self1 = ([BatchIsLast "c" true], Some StopIteration, self2).
Proof.
  split; [lia|]. split; [lia|]. split; [lia|].
  destruct (DataFetcher_second_pass_over_an_iterator
              true 1 true 0 [("a", []); ("b", []); ("c", [])] None 1 4)
    as (self0 & self1 & Hn & Hc & (self2 & Hl) & _); [lia|simpl; lia|simpl; lia|].
  exists self0, self1, self2. split; [exact Hn|]. split; [exact Hc|exact Hl].
Defined.
